(** * Customer Call Analyzer: a shallow embedding of the analysis scripts

    The repository holds three near-duplicate Streamlit scripts
    ([best.py], [test2.py], [main.py]) and a maintenance script
    ([data.py]).  This development embeds, as executable definitions:

    - Python text ([str]) as a list of code points, with [str.strip];
    - the regular expression search [re.search(r'\{.*?\}', s, re.DOTALL)];
    - [json.loads] (objects, arrays, strings with escapes, numbers kept as
      their lexeme, the literals), with the limit on the digits of an
      integer and the recursion guard of the interpreter;
    - the name extraction of [best.py]/[test2.py] and of [main.py];
    - the SQLite file [call_analysis.db] as far as the scripts use it:
      the table [call_reports], its columns, CHECK constraints, rows in
      rowid order and the AUTOINCREMENT bookkeeping in [sqlite_sequence],
      and the steps of a statement: prepared, bound, run;
    - [create_database], [update_database_schema], the INSERT and SELECT
      of the pages, and [clear_database];
    - the Home page of [best.py] as a computation in a state and
      exception monad over the database and a trace of effects. *)

From Stdlib Require Import List NArith ZArith Bool Ascii String Lia Sorted.
Import ListNotations.

Set Warnings "-register-all".

(** ** Python text *)

Module Py.

(** A Python [str] is a sequence of Unicode code points. *)
Definition char := N.
Definition str := list char.

Definition ch (a : ascii) : char := N_of_ascii a.

(** [lit s] is the [str] of an ASCII literal of the source. *)
Definition lit (s : string) : str := map ch (list_ascii_of_string s).

Definition str_eq_dec : forall a b : str, {a = b} + {a <> b} :=
  list_eq_dec N.eq_dec.

Definition str_eqb (a b : str) : bool :=
  if str_eq_dec a b then true else false.

Lemma str_eqb_eq a b : str_eqb a b = true <-> a = b.
Proof.
  unfold str_eqb. destruct (str_eq_dec a b); split; congruence.
Qed.

Lemma str_eqb_refl a : str_eqb a a = true.
Proof. now apply str_eqb_eq. Qed.

Lemma str_eqb_neq a b : a <> b -> str_eqb a b = false.
Proof.
  unfold str_eqb. destruct (str_eq_dec a b); congruence.
Qed.

(** [x in xs] on a list of [str]. *)
Definition py_in (x : str) (xs : list str) : bool := existsb (str_eqb x) xs.

Lemma py_in_In x xs : py_in x xs = true <-> In x xs.
Proof.
  unfold py_in. rewrite existsb_exists. split.
  - intros [y [Hy He]]. apply str_eqb_eq in He. now subst.
  - intros H. exists x. split; [assumption | apply str_eqb_refl].
Qed.

Lemma py_in_false x xs : py_in x xs = false <-> ~ In x xs.
Proof.
  rewrite <- py_in_In. destruct (py_in x xs); split; congruence.
Qed.

(** [str.isspace] on one code point: the code points whose bidirectional
    class is WS, B or S, or whose category is Zs. *)
Definition isspace (c : char) : bool :=
  ((9 <=? c) && (c <=? 13) || (28 <=? c) && (c <=? 32)
   || (c =? 133) || (c =? 160) || (c =? 5760)
   || (8192 <=? c) && (c <=? 8202)
   || (c =? 8232) || (c =? 8233) || (c =? 8239) || (c =? 8287)
   || (c =? 12288))%N.

(** [str.lstrip()], [str.rstrip()] and [str.strip()] without argument. *)
Fixpoint lstrip (s : str) : str :=
  match s with
  | c :: s' => if isspace c then lstrip s' else s
  | [] => []
  end.

Definition rstrip (s : str) : str := rev (lstrip (rev s)).

Definition strip (s : str) : str := rstrip (lstrip s).

(** The exceptions the scripts can meet. *)
Inductive exn :=
| JSONDecodeError
| ValueError
| RecursionError
| AttributeError
| UnicodeEncodeError
| OperationalError
| IntegrityError
| CollaboratorError.

(** What the scripts take from the interpreter that runs them.

    [int_max_str_digits] is [sys.get_int_max_str_digits()]: 4300 unless
    configured otherwise, 0 when the limit is off (or the interpreter
    has none).

    [nesting_room] is what the recursion guard leaves to [json.loads]
    at the line that calls it: the number of objects and arrays the
    scanner can still open inside the outermost one.  The outermost
    itself is always opened: the calls of the lines before (the model
    call, [re.search]) go deeper than [json.loads] does with one
    container. *)
Class interpreter := {
  int_max_str_digits : nat;
  nesting_room : nat
}.

(** An interpreter for the examples: the default limit on digits, and
    room for 900 containers inside the outermost (the default recursion
    limit is 1000; how much of it is in use at the call depends on what
    runs the script). *)
Definition cpython : interpreter :=
  {| int_max_str_digits := 4300; nesting_room := 900 |}.

Definition result (A : Type) : Type := (exn + A)%type.

Definition Ok {A} (a : A) : result A := inr a.
Definition Raise {A} (e : exn) : result A := inl e.

Definition rbind {A B} (r : result A) (k : A -> result B) : result B :=
  match r with
  | inl e => inl e
  | inr a => k a
  end.

End Py.

Import Py.

Declare Scope py_scope.
Delimit Scope py_scope with py.
Notation "x <- r ;; k" := (rbind r (fun x => k))
  (at level 61, r at next level, right associativity) : py_scope.
Notation "' p <- r ;; k" := (rbind r (fun x => match x with p => k end))
  (at level 61, p pattern, r at next level, right associativity) : py_scope.
Local Open Scope py_scope.

(** ** The regular expression of the name extraction *)

Module Re.

Definition lbrace : char := Eval cbv in ch "{".
Definition rbrace : char := Eval cbv in ch "}".

(** [lazy_dot_close s] matches [.*?\}] at the head of [s] under
    [re.DOTALL]: the lazy star first tries to stop, which needs a closing
    brace here, and otherwise lets the dot take one more character (any
    character, newlines too).  It returns the matched text. *)
Fixpoint lazy_dot_close (s : str) : option str :=
  match s with
  | [] => None
  | c :: s' =>
      if (c =? rbrace)%N then Some [c]
      else option_map (cons c) (lazy_dot_close s')
  end.

(** [match_at s] matches the whole pattern [\{.*?\}] at the head. *)
Definition match_at (s : str) : option str :=
  match s with
  | c :: s' =>
      if (c =? lbrace)%N then option_map (cons c) (lazy_dot_close s')
      else None
  | [] => None
  end.

(** [search s] is [re.search(r'\{.*?\}', s, re.DOTALL)] followed by
    [.group(0)]: the match at the leftmost position that has one. *)
Fixpoint search (s : str) : option str :=
  match match_at s with
  | Some m => Some m
  | None =>
      match s with
      | [] => None
      | _ :: s' => search s'
      end
  end.

End Re.

(** ** [json.loads] *)

Module Json.

Inductive json :=
| JNull
| JBool (b : bool)
| JNumber (lexeme : str)
| JString (s : str)
| JArray (items : list json)
| JObject (pairs : list (str * json)).

Definition quote : char := 34%N.
Definition backslash : char := Eval cbv in ch "\".
Definition colon : char := Eval cbv in ch ":".
Definition comma : char := Eval cbv in ch ",".
Definition lbracket : char := Eval cbv in ch "[".
Definition rbracket : char := Eval cbv in ch "]".

(** The decoder's whitespace: [[ \t\n\r]*]. *)
Definition is_ws (c : char) : bool :=
  ((c =? 32) || (c =? 9) || (c =? 10) || (c =? 13))%N.

Fixpoint skip_ws (s : str) : str :=
  match s with
  | c :: s' => if is_ws c then skip_ws s' else s
  | [] => []
  end.

Definition hexval (c : char) : option N :=
  (if (48 <=? c) && (c <=? 57) then Some (c - 48)
   else if (97 <=? c) && (c <=? 102) then Some (c - 87)
   else if (65 <=? c) && (c <=? 70) then Some (c - 55)
   else None)%N.

Definition hex4 (a b c d : char) : option N :=
  match hexval a, hexval b, hexval c, hexval d with
  | Some x, Some y, Some z, Some w => Some (((x * 16 + y) * 16 + z) * 16 + w)%N
  | _, _, _, _ => None
  end.

(** The one-character escapes after a backslash. *)
Definition simple_escape (c : char) : option char :=
  (if c =? 34 then Some 34          (* quote *)
   else if c =? 92 then Some 92     (* backslash *)
   else if c =? 47 then Some 47     (* slash *)
   else if c =? 98 then Some 8      (* b: backspace *)
   else if c =? 102 then Some 12    (* f: form feed *)
   else if c =? 110 then Some 10    (* n: line feed *)
   else if c =? 114 then Some 13    (* r: carriage return *)
   else if c =? 116 then Some 9     (* t: tab *)
   else None)%N.

Definition is_high_surrogate (u : N) : bool := ((55296 <=? u) && (u <=? 56319))%N.
Definition is_low_surrogate (u : N) : bool := ((56320 <=? u) && (u <=? 57343))%N.
Definition join_surrogates (hi lo : N) : N :=
  (65536 + ((hi - 55296) * 1024 + (lo - 56320)))%N.

(** [scanstring s]: [s] starts just after the opening quote.  Returns
    the decoded text and what follows the closing quote.  Strict mode:
    a control character inside the literal is an error. *)
Fixpoint scanstring (s : str) : result (str * str) :=
  match s with
  | [] => Raise JSONDecodeError
  | c :: s1 =>
      if (c =? quote)%N then Ok ([], s1)
      else if (c =? backslash)%N then
        match s1 with
        | [] => Raise JSONDecodeError
        | e :: s2 =>
            if (e =? 117)%N then           (* u and four hex digits *)
              match s2 with
              | h1 :: h2 :: h3 :: h4 :: s3 =>
                  match hex4 h1 h2 h3 h4 with
                  | None => Raise JSONDecodeError
                  | Some u =>
                      let lone :=
                        '(d, r) <- scanstring s3 ;; Ok (u :: d, r) in
                      if is_high_surrogate u then
                        match s3 with
                        | b :: v :: l1 :: l2 :: l3 :: l4 :: s4 =>
                            if ((b =? backslash) && (v =? 117))%N then
                              match hex4 l1 l2 l3 l4 with
                              | None => Raise JSONDecodeError
                              | Some u2 =>
                                  if is_low_surrogate u2 then
                                    '(d, r) <- scanstring s4 ;;
                                    Ok (join_surrogates u u2 :: d, r)
                                  else lone
                              end
                            else lone
                        | _ => lone
                        end
                      else lone
                  end
              | _ => Raise JSONDecodeError
              end
            else
              match simple_escape e with
              | None => Raise JSONDecodeError
              | Some x => '(d, r) <- scanstring s2 ;; Ok (x :: d, r)
              end
        end
      else if (c <=? 31)%N then Raise JSONDecodeError
      else '(d, r) <- scanstring s1 ;; Ok (c :: d, r)
  end.

(** Numbers: an optional minus sign, then a zero or a nonzero digit
    followed by digits; then optionally a dot and digits; then optionally
    an exponent mark, a sign and digits.  The value is kept as the
    matched lexeme; an integer of too many digits is refused when it
    is converted (see [number]). *)
Definition is_digit (c : char) : bool := ((48 <=? c) && (c <=? 57))%N.

Fixpoint span_digits (s : str) : str * str :=
  match s with
  | c :: s' =>
      if is_digit c then let '(d, r) := span_digits s' in (c :: d, r)
      else ([], s)
  | [] => ([], [])
  end.

Definition match_unsigned (t : str) : option (str * str) :=
  match t with
  | c :: t' =>
      if (c =? 48)%N then Some ([c], t')
      else if is_digit c then
        let '(d, r) := span_digits t' in Some (c :: d, r)
      else None
  | [] => None
  end.

Definition match_int (s : str) : option (str * str) :=
  match s with
  | c :: s' =>
      if (c =? 45)%N then
        match match_unsigned s' with
        | Some (d, r) => Some (c :: d, r)
        | None => None
        end
      else match_unsigned s
  | [] => None
  end.

Definition match_frac (s : str) : str * str :=
  match s with
  | c :: s' =>
      if (c =? 46)%N then
        match span_digits s' with
        | ([], _) => ([], s)
        | (d, r) => (c :: d, r)
        end
      else ([], s)
  | [] => ([], [])
  end.

Definition match_sign (s : str) : str * str :=
  match s with
  | g :: t => if ((g =? 45) || (g =? 43))%N then ([g], t) else ([], s)
  | [] => ([], s)
  end.

Definition match_exp (s : str) : str * str :=
  match s with
  | c :: s' =>
      if ((c =? 101) || (c =? 69))%N then
        let '(sign, s'') := match_sign s' in
        match span_digits s'' with
        | ([], _) => ([], s)
        | (d, r) => (c :: sign ++ d, r)
        end
      else ([], s)
  | [] => ([], [])
  end.

(** The match: the integer part, the fraction with the exponent, and
    what follows. *)
Definition match_number (s : str) : option (str * str * str) :=
  match match_int s with
  | None => None
  | Some (i, r1) =>
      let '(f, r2) := match_frac r1 in
      let '(e, r3) := match_exp r2 in
      Some (i, f ++ e, r3)
  end.

(** [starts_with p s] returns what follows the prefix [p] of [s]. *)
Fixpoint starts_with (p s : str) : option str :=
  match p, s with
  | [], _ => Some s
  | a :: p', b :: s' => if (a =? b)%N then starts_with p' s' else None
  | _ :: _, [] => None
  end.

Section Scanner.

Context {I : interpreter}.

(** [int(integer)] refuses a text of more digits than the limit; the
    sign does not count, and texts of up to 640 digits are never
    checked. *)
Definition too_many_digits (integer : str) : bool :=
  let digits := List.length (filter is_digit integer) in
  (640 <? digits) && (0 <? int_max_str_digits)
  && (int_max_str_digits <? digits).

(** The value of a matched number: [int(integer)] when there is
    neither fraction nor exponent, and a float, which has no limit on
    its digits, otherwise. *)
Definition number (integer rest : str) : result json :=
  match rest with
  | [] =>
      if too_many_digits integer then Raise ValueError
      else Ok (JNumber integer)
  | _ :: _ => Ok (JNumber (integer ++ rest))
  end.

(** The scanner.  [fuel] bounds the nesting and the number of members;
    [loads] gives it more than the length of the text, which is enough
    (see [scan_enough]).  [None] is only returned when the fuel runs
    out.  [room] is the number of objects and arrays the recursion
    guard still lets the scanner open: the guard is asked at the
    opening brace or bracket, before anything inside is read, and
    gives the place back when the container is closed. *)
Fixpoint scan_once (fuel room : nat) (s : str)
  : option (result (json * str)) :=
  match fuel with
  | O => None
  | S fuel' =>
      match s with
      | [] => Some (Raise JSONDecodeError)
      | c :: s' =>
          if (c =? quote)%N then
            Some ('(d, r) <- scanstring s' ;; Ok (JString d, r))
          else if (c =? Re.lbrace)%N then
            match room with
            | O => Some (Raise RecursionError)
            | S room' =>
            match skip_ws s' with
            | k :: s1 =>
                if (k =? Re.rbrace)%N then Some (Ok (JObject [], s1))
                else if (k =? quote)%N then
                  match object_members fuel' room' s1 with
                  | Some r => Some ('(kv, r') <- r ;; Ok (JObject kv, r'))
                  | None => None
                  end
                else Some (Raise JSONDecodeError)
            | [] => Some (Raise JSONDecodeError)
            end
            end
          else if (c =? lbracket)%N then
            match room with
            | O => Some (Raise RecursionError)
            | S room' =>
            match skip_ws s' with
            | k :: s1 =>
                if (k =? rbracket)%N then Some (Ok (JArray [], s1))
                else
                  match array_items fuel' room' (k :: s1) with
                  | Some r => Some ('(vs, r') <- r ;; Ok (JArray vs, r'))
                  | None => None
                  end
            | [] => Some (Raise JSONDecodeError)
            end
            end
          else
            match starts_with (lit "null") s with
            | Some r => Some (Ok (JNull, r))
            | None =>
            match starts_with (lit "true") s with
            | Some r => Some (Ok (JBool true, r))
            | None =>
            match starts_with (lit "false") s with
            | Some r => Some (Ok (JBool false, r))
            | None =>
            match match_number s with
            | Some (i, fe, r) => Some (n <- number i fe ;; Ok (n, r))
            | None =>
            match starts_with (lit "NaN") s with
            | Some r => Some (Ok (JNumber (lit "NaN"), r))
            | None =>
            match starts_with (lit "Infinity") s with
            | Some r => Some (Ok (JNumber (lit "Infinity"), r))
            | None =>
            match starts_with (lit "-Infinity") s with
            | Some r => Some (Ok (JNumber (lit "-Infinity"), r))
            | None => Some (Raise JSONDecodeError)
            end end end end end end end
      end
  end

(** [object_members fuel s]: [s] starts just after the opening quote of
    a key. *)
with object_members (fuel room : nat) (s : str)
  : option (result (list (str * json) * str)) :=
  match fuel with
  | O => None
  | S fuel' =>
      match scanstring s with
      | inl e => Some (Raise e)
      | inr (key, s1) =>
          match skip_ws s1 with
          | c :: s2 =>
              if (c =? colon)%N then
                match scan_once fuel' room (skip_ws s2) with
                | None => None
                | Some (inl e) => Some (Raise e)
                | Some (inr (v, s3)) =>
                    match skip_ws s3 with
                    | d :: s4 =>
                        if (d =? Re.rbrace)%N then Some (Ok ([(key, v)], s4))
                        else if (d =? comma)%N then
                          match skip_ws s4 with
                          | q :: s5 =>
                              if (q =? quote)%N then
                                match object_members fuel' room s5 with
                                | None => None
                                | Some r =>
                                    Some ('(kv, r') <- r ;;
                                          Ok ((key, v) :: kv, r'))
                                end
                              else Some (Raise JSONDecodeError)
                          | [] => Some (Raise JSONDecodeError)
                          end
                        else Some (Raise JSONDecodeError)
                    | [] => Some (Raise JSONDecodeError)
                    end
                end
              else Some (Raise JSONDecodeError)
          | [] => Some (Raise JSONDecodeError)
          end
      end
  end

(** [array_items fuel s]: [s] starts at the first character of an item. *)
with array_items (fuel room : nat) (s : str)
  : option (result (list json * str)) :=
  match fuel with
  | O => None
  | S fuel' =>
      match scan_once fuel' room s with
      | None => None
      | Some (inl e) => Some (Raise e)
      | Some (inr (v, s1)) =>
          match skip_ws s1 with
          | d :: s2 =>
              if (d =? rbracket)%N then Some (Ok ([v], s2))
              else if (d =? comma)%N then
                match array_items fuel' room (skip_ws s2) with
                | None => None
                | Some r => Some ('(vs, r') <- r ;; Ok (v :: vs, r'))
                end
              else Some (Raise JSONDecodeError)
          | [] => Some (Raise JSONDecodeError)
          end
      end
  end.

(** Fuel that [loads] hands to the scanner. *)
Definition fuel_for (s : str) : nat := 2 * List.length s + 2.

(** [json.loads(s)] on a [str]: a byte order mark is refused, whitespace
    is allowed around the one value, anything after it is an error. *)
Definition loads (s : str) : result json :=
  match s with
  | 65279%N :: _ => Raise JSONDecodeError
  | _ =>
      match scan_once (fuel_for s) (S nesting_room) (skip_ws s) with
      | None => Raise JSONDecodeError
      | Some r =>
          '(v, rest) <- r ;;
          match skip_ws rest with
          | [] => Ok v
          | _ :: _ => Raise JSONDecodeError
          end
      end
  end.

End Scanner.

(** A [dict] built from the pairs in order: a later pair with the same
    key replaces an earlier one. *)
Fixpoint dict_lookup (kv : list (str * json)) (k : str) : option json :=
  match kv with
  | [] => None
  | (k', v) :: kv' =>
      match dict_lookup kv' k with
      | Some w => Some w
      | None => if str_eqb k' k then Some v else None
      end
  end.

(** [obj.get(key, default)]: only a [dict] has the method. *)
Definition get (obj : json) (key : str) (default : json) : result json :=
  match obj with
  | JObject kv =>
      match dict_lookup kv key with
      | Some v => Ok v
      | None => Ok default
      end
  | _ => Raise AttributeError
  end.

(** [obj.strip()]: only a [str] has the method. *)
Definition strip_method (obj : json) : result str :=
  match obj with
  | JString s => Ok (strip s)
  | _ => Raise AttributeError
  end.

End Json.

(** ** Name extraction *)

Module Names.

Import Json.

(** What a run writes to the page, as far as the analysis goes: the
    upload notice, the transcription and the summary under their
    headings, the warning and the raw response shown when the name
    extraction fails ([st.warning(...)], [st.code(name_result.content)]),
    and the alternative responses. *)
Inductive widget :=
| StSuccess
| StTranscription (body : str)
| StSummary (body : str)
| StWarning
| StCode (body : str)
| StAlternatives (body : str)
| StDataframe (n : nat)
| StNoRecords.

Record names := { agent_name : str; customer_name : str }.

Definition Unknown : str := lit "Unknown".

(** [agent_name, customer_name = "Unknown", "Unknown"] *)
Definition unknown_names : names :=
  {| agent_name := Unknown; customer_name := Unknown |}.

(** [name_data.get(key, "Unknown").strip()] *)
Definition field (name_data : json) (key : str) : result str :=
  v <- get name_data key (JString Unknown) ;; strip_method v.

(** The body of the [try] of [best.py] and [test2.py]:
<<
  match = re.search(r'\{.*?\}', name_result.content, re.DOTALL)
  if match:
      name_data = json.loads(match.group(0))
      agent_name = name_data.get("agent_name", "Unknown").strip()
      customer_name = name_data.get("customer_name", "Unknown").strip()
>>
    The only statement that can raise [JSONDecodeError] comes before
    both assignments, so the variables still hold [init] when the
    handler runs. *)
Definition try_body {I : interpreter} (content : str) (init : names)
  : result names :=
  match Re.search content with
  | Some block =>
      name_data <- loads block ;;
      a <- field name_data (lit "agent_name") ;;
      c <- field name_data (lit "customer_name") ;;
      Ok {| agent_name := a; customer_name := c |}
  | None => Ok init
  end.

(** The whole statement with its handler
    [except json.JSONDecodeError: st.warning(...); st.code(...)].
    Any other exception leaves the handler aside and ends the run. *)
Definition extract_names {I : interpreter} (content : str)
  : result (names * list widget) :=
  match try_body content unknown_names with
  | inr n => Ok (n, [])
  | inl JSONDecodeError => Ok (unknown_names, [StWarning; StCode content])
  | inl e => Raise e
  end.

(** [main.py] parses the whole response and its handler is [pass]:
<<
  try:
      name_data = json.loads(name_result.content)
      agent_name = name_data.get("agent_name", "Unknown").strip()
      customer_name = name_data.get("customer_name", "Unknown").strip()
  except json.JSONDecodeError:
      pass
>> *)
Definition try_body_main {I : interpreter} (content : str) : result names :=
  name_data <- loads content ;;
  a <- field name_data (lit "agent_name") ;;
  c <- field name_data (lit "customer_name") ;;
  Ok {| agent_name := a; customer_name := c |}.

Definition extract_names_main {I : interpreter} (content : str)
  : result (names * list widget) :=
  match try_body_main content with
  | inr n => Ok (n, [])
  | inl JSONDecodeError => Ok (unknown_names, [])
  | inl e => Raise e
  end.

(** The other facets keep the response as it is, trimmed:
    [satisfaction_result.content.strip()],
    [improvements_result.content.strip()]. *)
Definition extract_text (content : str) : str := strip content.

End Names.

(** ** The database file *)

Module Sqlite.

(** Values the scripts store: every bound parameter is a Python [str];
    a column left out of an INSERT, or added later, reads NULL. *)
Inductive value :=
| Null
| Text (s : str).

Record column := { col_name : str; col_default : value }.

(** [CHECK(col IN ('a', 'b', ...))] *)
Record check := { chk_column : str; chk_allowed : list str }.

Record row := { rowid : Z; cells : list (str * value) }.

(** A table of the repository: its columns in declaration order (what
    [PRAGMA table_info] lists), its CHECK constraints, and its rows in
    the order of the rowid tree.  Every variant of the scripts declares
    [id INTEGER PRIMARY KEY AUTOINCREMENT], so the column [id] is the
    rowid and new rowids come from [sqlite_sequence]. *)
Record table := {
  columns : list column;
  checks : list check;
  rows : list row
}.

(** The file [call_analysis.db]: the table [call_reports] when it
    exists, and the [seq] that [sqlite_sequence] records for it (the
    largest rowid ever handed out) when that entry exists. *)
Record db := {
  call_reports : option table;
  sqlite_sequence : option Z
}.

Definition empty_db : db :=
  {| call_reports := None; sqlite_sequence := None |}.

(** SQL identifiers compare without regard to ASCII case. *)
Definition lower (c : char) : char :=
  (if (65 <=? c) && (c <=? 90) then c + 32 else c)%N.

Definition ident_eqb (a b : str) : bool :=
  str_eqb (map lower a) (map lower b).

Definition column_names (t : table) : list str := map col_name (columns t).

Definition has_column (t : table) (name : str) : bool :=
  existsb (fun c => ident_eqb (col_name c) name) (columns t).

Definition id_column : str := lit "id".

(** The table of [create_database] in [best.py] and [test2.py]. *)
Definition fresh_table : table :=
  {| columns :=
       [ {| col_name := id_column; col_default := Null |};
         {| col_name := lit "customer_name"; col_default := Text (lit "Unknown") |};
         {| col_name := lit "agent_name"; col_default := Text (lit "Unknown") |};
         {| col_name := lit "customer_satisfied"; col_default := Null |};
         {| col_name := lit "company_improvements"; col_default := Null |} ];
     checks :=
       [ {| chk_column := lit "customer_satisfied";
            chk_allowed := [lit "Yes"; lit "No"] |} ];
     rows := [] |}.

(** [CREATE TABLE IF NOT EXISTS call_reports (...)], then commit. *)
Definition create_database (d : db) : result db :=
  match call_reports d with
  | Some _ => Ok d
  | None =>
      Ok {| call_reports := Some fresh_table;
            sqlite_sequence := sqlite_sequence d |}
  end.

(** [PRAGMA table_info(call_reports)] and
    [[column[1] for column in cursor.fetchall()]]: no table, no rows. *)
Definition table_info (d : db) : list str :=
  match call_reports d with
  | Some t => column_names t
  | None => []
  end.

(** [ALTER TABLE call_reports ADD COLUMN name TEXT]: refused when the
    table is missing or already has a column of that name. *)
Definition add_column (d : db) (name : str) : result db :=
  match call_reports d with
  | None => Raise OperationalError
  | Some t =>
      if has_column t name then Raise OperationalError
      else
        Ok {| call_reports :=
                Some {| columns :=
                          columns t ++ [ {| col_name := name; col_default := Null |} ];
                        checks := checks t;
                        rows := rows t |};
              sqlite_sequence := sqlite_sequence d |}
  end.

Definition company_improvements : str := lit "company_improvements".

(** [update_database_schema] *)
Definition update_database_schema (d : db) : result db :=
  let existing_columns := table_info d in
  if negb (py_in company_improvements existing_columns) then
    add_column d company_improvements
  else Ok d.

(** The two calls at the top of [best.py] and [test2.py]:
    [create_database()] then [update_database_schema()]. *)
Definition ensure_schema (d : db) : result db :=
  d1 <- create_database d ;; update_database_schema d1.

(** *** INSERT *)

Definition max_rowid_value : Z := 9223372036854775807.

(** The largest rowid in the table. *)
Fixpoint largest_rowid (rs : list row) : option Z :=
  match rs with
  | [] => None
  | r :: rs' =>
      match largest_rowid rs' with
      | None => Some (rowid r)
      | Some m => Some (Z.max (rowid r) m)
      end
  end.

(** The rowid an AUTOINCREMENT table gives to a new row: one more than
    the largest rowid in the table (1 when it is empty), and at least
    one more than the recorded [seq].  When the largest possible rowid
    has been used the INSERT fails. *)
Definition new_rowid (t : table) (seq : option Z) : option Z :=
  let s := match seq with Some s => s | None => 0%Z end in
  match largest_rowid (rows t) with
  | None =>
      if (s =? max_rowid_value)%Z then None else Some (Z.max 1 (s + 1))
  | Some m =>
      if ((m =? max_rowid_value) || (s =? max_rowid_value))%Z then None
      else Some (Z.max (m + 1) (s + 1))
  end.

(** A row takes its place in the rowid tree. *)
Fixpoint tree_insert (r : row) (rs : list row) : list row :=
  match rs with
  | [] => [r]
  | x :: rs' =>
      if (rowid r <? rowid x)%Z then r :: rs
      else x :: tree_insert r rs'
  end.

Fixpoint assoc (kv : list (str * value)) (name : str) : option value :=
  match kv with
  | [] => None
  | (k, v) :: kv' => if ident_eqb k name then Some v else assoc kv' name
  end.

(** The cells of a new row: a column named by the INSERT takes the
    bound value, any other column its default.  The rowid column holds
    no cell of its own. *)
Definition new_cells (t : table) (named : list (str * value))
  : list (str * value) :=
  map (fun c =>
         (col_name c,
          match assoc named (col_name c) with
          | Some v => v
          | None => col_default c
          end))
      (filter (fun c => negb (ident_eqb (col_name c) id_column)) (columns t)).

(** A CHECK fails only when its expression is false: NULL passes. *)
Definition check_holds (cs : list (str * value)) (k : check) : bool :=
  match assoc cs (chk_column k) with
  | Some (Text s) => py_in s (chk_allowed k)
  | Some Null => true
  | None => true
  end.

(** A [str] parameter goes to SQLite as UTF-8, and UTF-8 has no
    encoding for a surrogate code point. *)
Definition is_surrogate (c : char) : bool :=
  ((55296 <=? c) && (c <=? 57343))%N.

Definition encodable (s : str) : bool :=
  forallb (fun c => negb (is_surrogate c)) s.

Definition bindable (v : value) : bool :=
  match v with
  | Null => true
  | Text s => encodable s
  end.

(** [cursor.execute("INSERT INTO call_reports (c1, ..., cn) VALUES
    (?, ..., ?)", values)], then commit.  Returns the new database and
    the rowid.  The statement is prepared first, which refuses a
    missing table or column with [OperationalError]; then the values
    are bound, which raises [UnicodeEncodeError] for a text that cannot
    be encoded; then it runs: the rowid is taken first
    ([OperationalError] when the largest one has been used), the
    constraints are checked on the new row ([IntegrityError]), and the
    row is stored.  A failed statement changes nothing. *)
Definition insert_row (d : db) (named : list (str * value)) : result (db * Z) :=
  match call_reports d with
  | None => Raise OperationalError
  | Some t =>
      if forallb (fun kv => has_column t (fst kv)) named then
        if forallb (fun kv => bindable (snd kv)) named then
          match new_rowid t (sqlite_sequence d) with
          | None => Raise OperationalError
          | Some i =>
              let cs := new_cells t named in
              if forallb (check_holds cs) (checks t) then
                Ok ({| call_reports :=
                         Some {| columns := columns t;
                                 checks := checks t;
                                 rows := tree_insert
                                           {| rowid := i; cells := cs |}
                                           (rows t) |};
                       sqlite_sequence := Some i |}, i)
              else Raise IntegrityError
          end
        else Raise UnicodeEncodeError
      else Raise OperationalError
  end.

(** The fields the Home page of [best.py] and [test2.py] stores. *)
Record fields := {
  f_customer_name : str;
  f_agent_name : str;
  f_customer_satisfied : str;
  f_company_improvements : str
}.

(** [INSERT INTO call_reports (customer_name, agent_name,
    customer_satisfied, company_improvements) VALUES (?, ?, ?, ?)] *)
Definition insert_report (d : db) (f : fields) : result (db * Z) :=
  insert_row d
    [ (lit "customer_name", Text (f_customer_name f));
      (lit "agent_name", Text (f_agent_name f));
      (lit "customer_satisfied", Text (f_customer_satisfied f));
      (company_improvements, Text (f_company_improvements f)) ].

(** *** SELECT *)

(** One tuple of the Reports page. *)
Record report := {
  r_id : Z;
  r_customer_name : value;
  r_agent_name : value;
  r_customer_satisfied : value;
  r_company_improvements : value
}.

Definition cell (r : row) (name : str) : value :=
  match assoc (cells r) name with
  | Some v => v
  | None => Null
  end.

Definition report_of_row (r : row) : report :=
  {| r_id := rowid r;
     r_customer_name := cell r (lit "customer_name");
     r_agent_name := cell r (lit "agent_name");
     r_customer_satisfied := cell r (lit "customer_satisfied");
     r_company_improvements := cell r company_improvements |}.

(** [SELECT id, customer_name, agent_name, customer_satisfied,
    company_improvements FROM call_reports] and [cursor.fetchall()].
    There is no ORDER BY and no index: the statement walks the rowid
    tree from its first entry to its last. *)
Definition select_reports (d : db) : result (list report) :=
  match call_reports d with
  | None => Raise OperationalError
  | Some t =>
      if forallb (has_column t)
           [ id_column; lit "customer_name"; lit "agent_name";
             lit "customer_satisfied"; company_improvements ]
      then Ok (map report_of_row (rows t))
      else Raise OperationalError
  end.

(** *** [clear_database] of [data.py] *)

(** [DELETE FROM call_reports;] then
    [DELETE FROM sqlite_sequence WHERE name='call_reports';] then
    commit.  Without the table the first statement raises and nothing
    is committed. *)
Definition clear_database (d : db) : result db :=
  match call_reports d with
  | None => Raise OperationalError
  | Some t =>
      Ok {| call_reports :=
              Some {| columns := columns t; checks := checks t; rows := [] |};
            sqlite_sequence := None |}
  end.

(** The database after a statement: a failed one leaves it as it was. *)
Definition after (d : db) (r : result db) : db :=
  match r with
  | inr d' => d'
  | inl _ => d
  end.

End Sqlite.

(** ** The Home page of [best.py] *)

Module Page.

Import Names Sqlite.

Definition nl : str := [10%N].
Definition dq : str := [34%N].

(** The prompts, with the transcription put in as it is. *)
Definition summary_prompt (transcription : str) : str :=
  lit "Summarize the following customer support conversation:" ++ nl ++
  lit "            keep it without preamble" ++ nl ++ lit "            " ++
  transcription.

Definition name_prompt (transcription : str) : str :=
  nl ++
  lit "            Extract only the names of the agent and customer from this conversation. " ++
  nl ++ lit "            Respond strictly in JSON format:" ++ nl ++
  lit "            {" ++ nl ++ lit "              " ++ dq ++
  lit "agent_name" ++ dq ++ lit ": " ++ dq ++ lit "<agent_name>" ++ dq ++
  lit ", " ++ nl ++ lit "              " ++ dq ++ lit "customer_name" ++
  dq ++ lit ": " ++ dq ++ lit "<customer_name>" ++ dq ++ nl ++
  lit "            }" ++ nl ++ lit "            If unknown, use " ++ dq ++
  lit "Unknown" ++ dq ++ lit "." ++ nl ++ lit "            Conversation:" ++
  nl ++ lit "            " ++ transcription ++ nl ++ lit "            ".

Definition satisfaction_prompt (transcription : str) : str :=
  nl ++
  lit "            Was the customer satisfied at the end of the call? Answer only Yes or No." ++
  nl ++ lit "            " ++ transcription ++ nl ++ lit "            ".

Definition improvements_prompt (transcription : str) : str :=
  nl ++
  lit "            Identify issues the customer faced that the company needs to improve. " ++
  nl ++
  lit "            Return a short comma-separated list. No preamble." ++
  nl ++ lit "            If nothing needs improvement, return " ++ dq ++
  lit "No issues reported." ++ dq ++ nl ++ lit "            " ++
  transcription ++ nl ++ lit "            ".

Definition response_prompt (transcription : str) : str :=
  nl ++ lit "            - no preamble" ++ nl ++
  lit "            Extract all agent responses and identify weak ones. Provide better alternatives and explain why." ++
  nl ++ nl ++ lit "            Format:" ++ nl ++
  lit "            - Old Response: " ++ dq ++ lit "<original>" ++ dq ++ nl ++
  lit "            - Upgraded Response: " ++ dq ++ lit "<better version>" ++
  dq ++ nl ++ lit "            - Reason for improvement: " ++ dq ++
  lit "<why it's better>" ++ dq ++ nl ++ nl ++ lit "            Use " ++
  dq ++ lit "----------------------------" ++ dq ++
  lit " to separate entries." ++ nl ++ nl ++
  lit "            Conversation:" ++ nl ++ lit "            " ++
  transcription ++ nl ++ lit "            ".

Inductive facet :=
| Summary
| NameExtraction
| Satisfaction
| Improvements
| ResponseCritique.

Definition build_prompt (f : facet) (transcription : str) : str :=
  match f with
  | Summary => summary_prompt transcription
  | NameExtraction => name_prompt transcription
  | Satisfaction => satisfaction_prompt transcription
  | Improvements => improvements_prompt transcription
  | ResponseCritique => response_prompt transcription
  end.

Arguments build_prompt : simpl never.

(** The collaborators: the speech-to-text model on the uploaded file
    and the hosted language model on one prompt.  Either call returns
    text or raises. *)
Record upload := { file_name : str; file_bytes : list N }.

Record collaborators := {
  transcribe : upload -> result str;
  complete : str -> result str
}.

(** What a run does to the outside, in order.  The calls that write
    to the page and to the upload directory are taken to succeed. *)
Inductive event :=
| Saved (name : str)
| Transcribed
| Asked (f : facet)
| Answered (f : facet)
| Shown (w : widget)
| Committed (id : Z)
| Removed (name : str).

Record world := { database : db; trace : list event }.

(** A statement of the script: it changes the world and returns a value
    or raises; what was done before an exception stays done. *)
Definition M (A : Type) : Type := world -> result A * world.

Definition ret {A} (a : A) : M A := fun w => (Ok a, w).

Definition bind {A B} (m : M A) (k : A -> M B) : M B :=
  fun w =>
    match m w with
    | (inr a, w') => k a w'
    | (inl e, w') => (inl e, w')
    end.

Definition emit (e : event) : M unit :=
  fun w => (Ok tt, {| database := database w; trace := trace w ++ [e] |}).

Definition lift {A} (r : result A) : M A := fun w => (r, w).

Fixpoint show_all (ws : list widget) : M unit :=
  match ws with
  | [] => ret tt
  | x :: ws' => bind (emit (Shown x)) (fun _ => show_all ws')
  end.

(** A statement on the database under its own connection: committed
    when it succeeds, without effect when it raises. *)
Definition on_database {A} (stmt : db -> result (db * A)) : M A :=
  fun w =>
    match stmt (database w) with
    | inr (d', a) => (Ok a, {| database := d'; trace := trace w |})
    | inl e => (inl e, w)
    end.

End Page.

Declare Scope page_scope.
Delimit Scope page_scope with page.
Notation "x <- m ;; k" := (Page.bind m (fun x => k))
  (at level 61, m at next level, right associativity) : page_scope.
Notation "m ;;; k" := (Page.bind m (fun _ => k))
  (at level 61, right associativity) : page_scope.

Module Best.

Import Names Sqlite Page.
Local Open Scope page_scope.

(** [llm([HumanMessage(content=prompt)])] and the [.content] of what it
    returns. *)
Definition ask (c : collaborators) (f : facet) (transcription : str) : M str :=
  emit (Asked f) ;;;
  content <- lift (complete c (build_prompt f transcription)) ;;
  emit (Answered f) ;;;
  ret content.

(** The block under [if uploaded_file:] of the Home page. *)
Definition home {I : interpreter} (c : collaborators) (up : upload)
  : M unit :=
  emit (Saved (file_name up)) ;;;
  emit (Shown StSuccess) ;;;
  transcription <- lift (transcribe c up) ;;
  emit Transcribed ;;;
  emit (Shown (StTranscription transcription)) ;;;
  summary <- ask c Summary transcription ;;
  emit (Shown (StSummary summary)) ;;;
  name_result <- ask c NameExtraction transcription ;;
  extracted <- lift (extract_names name_result) ;;
  show_all (snd extracted) ;;;
  satisfaction_result <- ask c Satisfaction transcription ;;
  improvements_result <- ask c Improvements transcription ;;
  id <- on_database (fun d =>
          insert_report d
            {| f_customer_name := customer_name (fst extracted);
               f_agent_name := agent_name (fst extracted);
               f_customer_satisfied := extract_text satisfaction_result;
               f_company_improvements := extract_text improvements_result |}) ;;
  emit (Committed id) ;;;
  alternative_response <- ask c ResponseCritique transcription ;;
  emit (Shown (StAlternatives alternative_response)) ;;;
  emit (Removed (file_name up)).

(** The Reports page. *)
Definition reports : M unit :=
  data <- on_database (fun d =>
            match select_reports d with
            | inr l => inr (d, l)
            | inl e => inl e
            end) ;;
  match data with
  | [] => emit (Shown StNoRecords)
  | _ :: _ => emit (Shown (StDataframe (List.length data)))
  end.

(** One run of the script: the schema calls at the top, then the page
    chosen in the sidebar. *)
Inductive page :=
| Home (uploaded_file : option upload)
| Reports.

Definition statement (stmt : db -> result db) : M unit :=
  on_database (fun d =>
    match stmt d with
    | inr d' => inr (d', tt)
    | inl e => inl e
    end).

Definition script {I : interpreter} (c : collaborators) (p : page)
  : M unit :=
  statement create_database ;;;
  statement update_database_schema ;;;
  match p with
  | Home (Some up) => home c up
  | Home None => ret tt
  | Reports => reports
  end.

End Best.

(** * Properties *)

(** ** The regular expression *)

Module ReFacts.

Import Re.

Lemma lazy_dot_close_first body post :
  ~ In rbrace body ->
  lazy_dot_close (body ++ rbrace :: post) = Some (body ++ [rbrace]).
Proof.
  induction body as [|c body IH]; intros Hno; simpl.
  - reflexivity.
  - destruct (N.eqb_spec c rbrace) as [->|Hc].
    + exfalso. apply Hno. now left.
    + rewrite IH; [reflexivity|]. intros Hin. apply Hno. now right.
Qed.

Lemma lazy_dot_close_none s :
  ~ In rbrace s -> lazy_dot_close s = None.
Proof.
  induction s as [|c s IH]; intros Hno; simpl.
  - reflexivity.
  - destruct (N.eqb_spec c rbrace) as [->|Hc].
    + exfalso. apply Hno. now left.
    + rewrite IH; [reflexivity|]. intros Hin. apply Hno. now right.
Qed.

Lemma search_cons c s :
  search (c :: s)
  = match match_at (c :: s) with
    | Some m => Some m
    | None => search s
    end.
Proof. reflexivity. Qed.

Lemma search_skips pre s :
  ~ In lbrace pre -> search (pre ++ s) = search s.
Proof.
  induction pre as [|c pre IH]; intros Hno.
  - reflexivity.
  - rewrite <- app_comm_cons, search_cons.
    assert (Hc : (c =? lbrace)%N = false).
    { apply N.eqb_neq. intros ->. apply Hno. now left. }
    unfold match_at. rewrite Hc. apply IH.
    intros Hin. apply Hno. now right.
Qed.

(** The match is the first block: it opens at the first opening brace
    and closes at the first closing brace after it. *)
Lemma search_first_block pre body post :
  ~ In lbrace pre -> ~ In rbrace body ->
  search (pre ++ lbrace :: body ++ rbrace :: post)
  = Some (lbrace :: body ++ [rbrace]).
Proof.
  intros Hpre Hbody. rewrite search_skips by assumption.
  rewrite search_cons. unfold match_at. rewrite N.eqb_refl.
  now rewrite lazy_dot_close_first.
Qed.

(** Without an opening brace there is no match; neither is there one
    without a closing brace. *)
Lemma search_no_lbrace s : ~ In lbrace s -> search s = None.
Proof.
  intros H. rewrite <- (app_nil_r s). now rewrite search_skips.
Qed.

Lemma search_no_rbrace s : ~ In rbrace s -> search s = None.
Proof.
  induction s as [|c s IH]; intros Hno.
  - reflexivity.
  - rewrite search_cons.
    assert (Hs : ~ In rbrace s) by (intros Hin; apply Hno; now right).
    unfold match_at. rewrite (lazy_dot_close_none _ Hs). simpl.
    destruct (c =? lbrace)%N; now apply IH.
Qed.

Lemma lazy_dot_close_shape s m :
  lazy_dot_close s = Some m ->
  exists body post, s = body ++ rbrace :: post /\ m = body ++ [rbrace]
                    /\ ~ In rbrace body.
Proof.
  revert m. induction s as [|c s IH]; intros m; simpl.
  - discriminate.
  - destruct (N.eqb_spec c rbrace) as [->|Hc].
    + intros [= <-]. exists [], s. repeat split. intros [].
    + destruct (lazy_dot_close s) as [m'|] eqn:E; simpl; [|discriminate].
      intros [= <-]. destruct (IH _ eq_refl) as (body & post & -> & -> & Hno).
      exists (c :: body), post. repeat split.
      intros [H|H]; [now apply Hc | now apply Hno].
Qed.

(** Every match has the shape of a block and sits in the text. *)
Lemma search_shape s m :
  search s = Some m ->
  exists pre body post,
    s = pre ++ lbrace :: body ++ rbrace :: post
    /\ m = lbrace :: body ++ [rbrace]
    /\ ~ In rbrace body.
Proof.
  revert m. induction s as [|c s IH]; intros m.
  - discriminate.
  - rewrite search_cons.
    destruct (match_at (c :: s)) as [m'|] eqn:E.
    + intros [= <-]. unfold match_at in E.
      destruct (N.eqb_spec c lbrace) as [->|Hc]; [|discriminate].
      destruct (lazy_dot_close s) as [k|] eqn:Ek; [|discriminate].
      injection E as <-.
      destruct (lazy_dot_close_shape _ _ Ek) as (body & post & -> & -> & Hno).
      exists [], body, post. now repeat split.
    + intros H. destruct (IH _ H) as (pre & body & post & -> & -> & Hno).
      exists (c :: pre), body, post. now repeat split.
Qed.

End ReFacts.

(** ** The decoder never runs out of fuel *)

Module JsonFacts.

Import Json.

Lemma skip_ws_le s : List.length (skip_ws s) <= List.length s.
Proof.
  induction s as [|c s IH]; simpl; [lia|].
  destruct (is_ws c); simpl; lia.
Qed.

Lemma skip_ws_cons s k r :
  skip_ws s = k :: r -> List.length r < List.length s.
Proof.
  intros H. pose proof (skip_ws_le s) as L. rewrite H in L. simpl in L. lia.
Qed.

(** Case analysis on the scrutinee of a [match] in [H], without
    unfolding anything else. *)
Ltac break_in H :=
  match type of H with
  | context [match ?x with _ => _ end] =>
      destruct x eqn:?; cbv beta iota zeta in H; try discriminate H
  end.

Lemma scanstring_lt s d r :
  scanstring s = inr (d, r) -> List.length r < List.length s.
Proof.
  remember (List.length s) as n eqn:Hn. revert s d r Hn.
  induction n as [n IH] using lt_wf_ind. intros s d r Hn H.
  assert (step : forall t d' r', List.length t < n ->
                 scanstring t = inr (d', r') -> List.length r' < n).
  { intros t d' r' Ht Hs. specialize (IH _ Ht t d' r' eq_refl Hs). lia. }
  clear IH.
  destruct s as [|c s1]; [discriminate|].
  cbn [scanstring] in H. unfold rbind, Ok, Raise in H.
  cbv beta iota zeta in H.
  repeat break_in H;
    injection H as ? ?; subst; cbn [List.length] in *;
    try lia;
    match goal with
    | E : scanstring ?t = inr (_, ?r') |- List.length ?r' < _ =>
        eapply step; [| exact E]; cbn [List.length]; lia
    end.
Qed.

Lemma starts_with_length p s r :
  starts_with p s = Some r -> List.length s = List.length p + List.length r.
Proof.
  revert s. induction p as [|a p IH]; intros s H; simpl in H.
  - injection H as ->. reflexivity.
  - destruct s as [|b s]; [discriminate|].
    destruct (a =? b)%N; [|discriminate].
    apply IH in H. simpl. lia.
Qed.

Lemma span_digits_length s d r :
  span_digits s = (d, r) -> List.length s = List.length d + List.length r.
Proof.
  revert d r. induction s as [|c s IH]; intros d r H; simpl in H.
  - injection H as <- <-. reflexivity.
  - destruct (is_digit c).
    + destruct (span_digits s) as [d' r'] eqn:E. injection H as <- <-.
      specialize (IH _ _ eq_refl). simpl. lia.
    + injection H as <- <-. reflexivity.
Qed.

Lemma match_unsigned_lt s i r :
  match_unsigned s = Some (i, r) -> List.length r < List.length s.
Proof.
  unfold match_unsigned. intros H.
  repeat break_in H; injection H as ? ?; subst;
    repeat match goal with
           | E : span_digits _ = (_, _) |- _ =>
               apply span_digits_length in E
           end;
    cbn [List.length] in *; lia.
Qed.

Lemma match_int_lt s i r :
  match_int s = Some (i, r) -> List.length r < List.length s.
Proof.
  unfold match_int. intros H.
  destruct s as [|c s']; [discriminate|].
  destruct (c =? 45)%N.
  - destruct (match_unsigned s') as [[d r']|] eqn:E; [|discriminate].
    injection H as <- <-. apply match_unsigned_lt in E. simpl. lia.
  - now apply match_unsigned_lt in H.
Qed.

Lemma match_frac_le s f r :
  match_frac s = (f, r) -> List.length r <= List.length s.
Proof.
  unfold match_frac. intros H.
  repeat break_in H; injection H as ? ?; subst;
    repeat match goal with
           | E : span_digits _ = (_, _) |- _ =>
               apply span_digits_length in E
           end;
    cbn [List.length] in *; lia.
Qed.

Lemma match_sign_le s g r :
  match_sign s = (g, r) -> List.length r <= List.length s.
Proof.
  unfold match_sign. intros H.
  repeat break_in H; injection H as ? ?; subst; cbn [List.length]; lia.
Qed.

Lemma match_exp_le s e r :
  match_exp s = (e, r) -> List.length r <= List.length s.
Proof.
  unfold match_exp. intros H.
  destruct s as [|c s']; [injection H as <- <-; simpl; lia|].
  destruct ((c =? 101) || (c =? 69))%N; [|injection H as <- <-; lia].
  destruct (match_sign s') as [g s''] eqn:Eg. apply match_sign_le in Eg.
  destruct (span_digits s'') as [d r'] eqn:Ed.
  apply span_digits_length in Ed.
  destruct d; injection H as <- <-; cbn [List.length] in *; lia.
Qed.

Lemma match_number_lt s n fe r :
  match_number s = Some (n, fe, r) -> List.length r < List.length s.
Proof.
  unfold match_number. intros H.
  destruct (match_int s) as [[i r1]|] eqn:Ei; [|discriminate].
  destruct (match_frac r1) as [f r2] eqn:Ef.
  destruct (match_exp r2) as [e r3] eqn:Ee.
  injection H as <- <- <-.
  apply match_int_lt in Ei. apply match_frac_le in Ef.
  apply match_exp_le in Ee. lia.
Qed.

(** Facts about lengths that the hypotheses give. *)
Ltac lengths :=
  repeat match goal with
         | E : skip_ws _ = _ :: _ |- _ => apply skip_ws_cons in E
         | E : scanstring _ = inr (_, _) |- _ => apply scanstring_lt in E
         | E : starts_with _ _ = Some _ |- _ =>
             apply starts_with_length in E; cbn [List.length lit map
               list_ascii_of_string] in E
         | E : match_number _ = Some (_, _, _) |- _ =>
             apply match_number_lt in E
         end.

(** Every value the scanner returns took at least one character. *)
Lemma scan_consumes {I : interpreter} fuel :
  (forall room s v r, scan_once fuel room s = Some (inr (v, r)) ->
                      List.length r < List.length s)
  /\ (forall room s kv r,
        object_members fuel room s = Some (inr (kv, r)) ->
        List.length r < List.length s)
  /\ (forall room s vs r, array_items fuel room s = Some (inr (vs, r)) ->
                         List.length r < List.length s).
Proof.
  induction fuel as [|fuel (IHs & IHo & IHa)].
  - repeat split; intros; discriminate.
  - repeat split; intros room s x r H.
    + cbn [scan_once] in H. unfold number, rbind, Ok, Raise in H.
      repeat break_in H;
        repeat match goal with
               | E : Some _ = Some _ |- _ => injection E as E; subst
               | E : inr _ = inr _ |- _ => injection E as ? ?; subst
               | E : inl _ = inr _ |- _ => discriminate E
               | E : object_members fuel _ _ = Some (inr _) |- _ =>
                   apply IHo in E
               | E : array_items fuel _ _ = Some (inr _) |- _ =>
                   apply IHa in E
               end;
        subst; lengths; cbn [List.length] in *; lia.
    + cbn [object_members] in H. unfold rbind, Ok, Raise in H.
      repeat break_in H;
        repeat match goal with
               | E : Some _ = Some _ |- _ => injection E as E; subst
               | E : inr _ = inr _ |- _ => injection E as ? ?; subst
               | E : inl _ = inr _ |- _ => discriminate E
               | E : object_members fuel _ _ = Some (inr _) |- _ =>
                   apply IHo in E
               | E : scan_once fuel _ ?t = Some (inr _) |- _ =>
                   apply IHs in E; pose proof (skip_ws_le t)
               end;
        subst; lengths; cbn [List.length] in *;
        repeat match goal with
               | |- context [skip_ws ?t] => pose proof (skip_ws_le t)
               | E : context [skip_ws ?t] |- _ =>
                   lazymatch goal with
                   | _ : List.length (skip_ws t) <= _ |- _ => fail
                   | _ => pose proof (skip_ws_le t)
                   end
               end; lia.
    + cbn [array_items] in H. unfold rbind, Ok, Raise in H.
      repeat break_in H;
        repeat match goal with
               | E : Some _ = Some _ |- _ => injection E as E; subst
               | E : inr _ = inr _ |- _ => injection E as ? ?; subst
               | E : inl _ = inr _ |- _ => discriminate E
               | E : array_items fuel _ _ = Some (inr _) |- _ =>
                   apply IHa in E
               | E : scan_once fuel _ _ = Some (inr _) |- _ =>
                   apply IHs in E
               end;
        subst; lengths; cbn [List.length] in *;
        repeat match goal with
               | E : context [skip_ws ?t] |- _ =>
                   lazymatch goal with
                   | _ : List.length (skip_ws t) <= _ |- _ => fail
                   | _ => pose proof (skip_ws_le t)
                   end
               end; lia.
Qed.

(** With fuel beyond twice the length of the text, the scanner always
    comes back with a value or an error. *)
Lemma scan_enough {I : interpreter} fuel :
  (forall room s, 2 * List.length s + 1 <= fuel ->
                  scan_once fuel room s <> None)
  /\ (forall room s, 2 * List.length s + 1 <= fuel ->
                     object_members fuel room s <> None)
  /\ (forall room s, 2 * List.length s + 2 <= fuel ->
                     array_items fuel room s <> None).
Proof.
  induction fuel as [|fuel (IHs & IHo & IHa)].
  - repeat split; intros room s H; lia.
  - pose proof (scan_consumes fuel) as (Cs & Co & Ca).
    repeat split; intros room s Hf H.
    + cbn [scan_once] in H. unfold number, rbind, Ok, Raise in H.
      repeat break_in H.
      * eapply IHo; [|eassumption]. lengths. cbn [List.length] in *. lia.
      * eapply IHa; [|eassumption]. lengths. cbn [List.length] in *. lia.
    + cbn [object_members] in H. unfold rbind, Ok, Raise in H.
      repeat break_in H.
      * eapply IHo; [|eassumption].
        repeat match goal with
               | E : scan_once fuel _ ?t = Some (inr _) |- _ =>
                   apply Cs in E; pose proof (skip_ws_le t)
               end.
        lengths. cbn [List.length] in *.
        repeat match goal with
               | E : context [skip_ws ?t] |- _ =>
                   lazymatch goal with
                   | _ : List.length (skip_ws t) <= _ |- _ => fail
                   | _ => pose proof (skip_ws_le t)
                   end
               end. lia.
      * eapply IHs; [|eassumption]. lengths.
        match goal with
        | |- context [skip_ws ?t] => pose proof (skip_ws_le t)
        end. cbn [List.length] in *. lia.
    + cbn [array_items] in H. unfold rbind, Ok, Raise in H.
      repeat break_in H.
      * eapply IHa; [|eassumption].
        repeat match goal with
               | E : scan_once fuel _ ?t = Some (inr _) |- _ => apply Cs in E
               end.
        lengths.
        match goal with
        | |- context [skip_ws ?t] => pose proof (skip_ws_le t)
        end. cbn [List.length] in *. lia.
      * eapply IHs; [|eassumption]. lia.
Qed.

(** Hence [loads] only raises where the decoder does: the fuel it
    hands over is never used up. *)
Lemma loads_fuel {I : interpreter} room s :
  scan_once (fuel_for s) room (skip_ws s) <> None.
Proof.
  apply (proj1 (scan_enough (fuel_for s))).
  unfold fuel_for. pose proof (skip_ws_le s). lia.
Qed.

End JsonFacts.

(** ** A response of the asked shape parses to its two names *)

Module Render.

Import Json.

(** A character that stands for itself inside a JSON string literal. *)
Definition plainb (c : char) : bool :=
  ((32 <=? c) && negb (c =? quote) && negb (c =? backslash))%N.

Definition plain (s : str) : Prop := forallb plainb s = true.

Lemma scanstring_plain a rest :
  plain a -> scanstring (a ++ quote :: rest) = Ok (a, rest).
Proof.
  unfold plain. induction a as [|c a IH]; intros H.
  - reflexivity.
  - cbn [forallb] in H. apply andb_true_iff in H as [Hc Ha].
    unfold plainb in Hc. apply andb_true_iff in Hc as [Hc Hb].
    apply andb_true_iff in Hc as [Hc Hq].
    apply negb_true_iff in Hq, Hb. apply N.leb_le in Hc.
    cbn [app scanstring]. rewrite Hq, Hb, (IH Ha).
    destruct (N.leb_spec c 31); [lia|]. reflexivity.
Qed.

Section Rendered.

Context {I : interpreter}.

Lemma scan_once_string fuel room s d r :
  scanstring s = Ok (d, r) ->
  scan_once (S fuel) room (quote :: s) = Some (Ok (JString d, r)).
Proof. intros H. cbn [scan_once]. rewrite H. reflexivity. Qed.

Lemma object_members_last fuel room s key s2 v s4 :
  scanstring s = Ok (key, colon :: s2) ->
  scan_once fuel room (skip_ws s2) = Some (Ok (v, Re.rbrace :: s4)) ->
  object_members (S fuel) room s = Some (Ok ([(key, v)], s4)).
Proof.
  intros H1 H2. cbn [object_members]. rewrite H1. unfold Ok. cbv beta iota.
  change (skip_ws (colon :: s2)) with (colon :: s2). cbv beta iota.
  change (colon =? colon)%N with true. cbv beta iota.
  unfold Ok in H2. rewrite H2. reflexivity.
Qed.

Lemma object_members_more fuel room s key s2 v s5 kv r :
  scanstring s = Ok (key, colon :: s2) ->
  scan_once fuel room (skip_ws s2)
  = Some (Ok (v, comma :: 32%N :: quote :: s5)) ->
  object_members fuel room s5 = Some (Ok (kv, r)) ->
  object_members (S fuel) room s = Some (Ok ((key, v) :: kv, r)).
Proof.
  intros H1 H2 H3. cbn [object_members]. rewrite H1. unfold Ok. cbv beta iota.
  change (skip_ws (colon :: s2)) with (colon :: s2). cbv beta iota.
  change (colon =? colon)%N with true. cbv beta iota.
  unfold Ok in H2. rewrite H2.
  change (skip_ws (comma :: 32%N :: quote :: s5))
    with (comma :: 32%N :: quote :: s5). cbv beta iota.
  change (comma =? Re.rbrace)%N with false.
  change (comma =? comma)%N with true. cbv beta iota.
  change (skip_ws (32%N :: quote :: s5)) with (quote :: s5). cbv beta iota.
  change (quote =? quote)%N with true. cbv beta iota.
  unfold Ok in H3. rewrite H3. reflexivity.
Qed.

Definition dq : str := [quote].

(** [{"agent_name": "A", "customer_name": "C"}] *)
Definition render (a c : str) : str :=
  lit "{" ++ dq ++ lit "agent_name" ++ dq ++ lit ": " ++ dq ++ a ++ dq
  ++ lit ", " ++ dq ++ lit "customer_name" ++ dq ++ lit ": " ++ dq ++ c ++ dq
  ++ lit "}".

Lemma render_cons a c :
  render a c
  = Re.lbrace :: quote ::
    (lit "agent_name" ++ quote :: colon :: 32%N :: quote ::
     (a ++ quote :: comma :: 32%N :: quote ::
      (lit "customer_name" ++ quote :: colon :: 32%N :: quote ::
       (c ++ quote :: [Re.rbrace])))).
Proof. reflexivity. Qed.

Lemma scan_once_object fuel room s kv r :
  object_members fuel room s = Some (Ok (kv, r)) ->
  scan_once (S fuel) (S room) (Re.lbrace :: quote :: s)
  = Some (Ok (JObject kv, r)).
Proof.
  intros H. cbn [scan_once].
  change (Re.lbrace =? quote)%N with false.
  change (Re.lbrace =? Re.lbrace)%N with true. cbv beta iota.
  change (skip_ws (quote :: s)) with (quote :: s). cbv beta iota.
  change (quote =? Re.rbrace)%N with false.
  change (quote =? quote)%N with true. cbv beta iota.
  rewrite H. reflexivity.
Qed.

Lemma scan_once_value fuel room s d r :
  scanstring s = Ok (d, r) ->
  scan_once (S fuel) room (skip_ws (32%N :: quote :: s))
  = Some (Ok (JString d, r)).
Proof.
  intros H. change (skip_ws (32%N :: quote :: s)) with (quote :: s).
  now apply scan_once_string.
Qed.

Lemma scan_once_render fuel room a c :
  plain a -> plain c ->
  scan_once (S (S (S (S fuel)))) (S room) (render a c)
  = Some (Ok (JObject [ (lit "agent_name", JString a);
                        (lit "customer_name", JString c) ], [])).
Proof.
  intros Ha Hc. rewrite render_cons.
  set (t3 := c ++ quote :: [Re.rbrace]).
  set (t2 := lit "customer_name" ++ quote :: colon :: 32%N :: quote :: t3).
  set (t1 := a ++ quote :: comma :: 32%N :: quote :: t2).
  set (t0 := lit "agent_name" ++ quote :: colon :: 32%N :: quote :: t1).
  assert (K1 : scanstring t0
               = Ok (lit "agent_name", colon :: 32%N :: quote :: t1))
    by (apply scanstring_plain; reflexivity).
  assert (K2 : scanstring t2
               = Ok (lit "customer_name", colon :: 32%N :: quote :: t3))
    by (apply scanstring_plain; reflexivity).
  assert (V1 : scanstring t1 = Ok (a, comma :: 32%N :: quote :: t2))
    by (now apply scanstring_plain).
  assert (V2 : scanstring t3 = Ok (c, [Re.rbrace]))
    by (now apply scanstring_plain).
  apply scan_once_object.
  apply (object_members_more _ _ _ _ _ _ _ _ _ K1
           (scan_once_value (S fuel) room _ _ _ V1)).
  apply (object_members_last _ _ _ _ _ _ _ K2
           (scan_once_value fuel room _ _ _ V2)).
Qed.

Lemma loads_render a c :
  plain a -> plain c ->
  loads (render a c)
  = Ok (JObject [ (lit "agent_name", JString a);
                  (lit "customer_name", JString c) ]).
Proof.
  intros Ha Hc.
  assert (Hf : exists n, fuel_for (render a c) = S (S (S (S n)))).
  { exists (fuel_for (render a c) - 4). unfold fuel_for.
    rewrite render_cons. cbn [List.length]. lia. }
  destruct Hf as [n Hf].
  unfold loads. rewrite Hf.
  assert (Hs : skip_ws (render a c) = render a c)
    by (rewrite render_cons; reflexivity).
  rewrite Hs, (scan_once_render n nesting_room a c Ha Hc).
  rewrite render_cons. reflexivity.
Qed.

End Rendered.

End Render.

(** ** What the decoder raises *)

Module JsonErrors.

Import Json JsonFacts.

Lemma scanstring_raises s e :
  scanstring s = inl e -> e = JSONDecodeError.
Proof.
  remember (List.length s) as n eqn:Hn. revert s e Hn.
  induction n as [n IH] using lt_wf_ind. intros s e Hn H.
  assert (step : forall t e', List.length t < n ->
                 scanstring t = inl e' -> e' = JSONDecodeError).
  { intros t e' Ht Hs. exact (IH _ Ht t e' eq_refl Hs). }
  clear IH.
  destruct s as [|c s1]; [now injection H as <-|].
  cbn [scanstring] in H. unfold rbind, Ok, Raise in H.
  cbv beta iota zeta in H.
  repeat break_in H;
    try (injection H as <-; reflexivity);
    subst; cbn [List.length] in *;
    match goal with
    | E : scanstring ?t = inl ?e' |- _ =>
        injection H as <-; eapply step; [| exact E]; cbn [List.length]; lia
    end.
Qed.

(** What [json.loads] can raise: its own error for a text that is not
    JSON, [ValueError] from the conversion of an integer, and
    [RecursionError] from the guard. *)
Definition decoding_error (e : exn) : Prop :=
  e = JSONDecodeError \/ e = ValueError \/ e = RecursionError.

Lemma decoding_error_json : decoding_error JSONDecodeError.
Proof. now left. Qed.

Lemma decoding_error_value : decoding_error ValueError.
Proof. right. now left. Qed.

Lemma decoding_error_recursion : decoding_error RecursionError.
Proof. right. now right. Qed.

Lemma scanstring_decoding s e : scanstring s = inl e -> decoding_error e.
Proof. intros H. apply scanstring_raises in H. subst. now left. Qed.

Lemma number_raises {I : interpreter} integer rest e :
  number integer rest = inl e -> decoding_error e.
Proof.
  unfold number. destruct rest; [|discriminate].
  destruct (too_many_digits integer); [|discriminate].
  intros [= <-]. apply decoding_error_value.
Qed.

Lemma scan_raises {I : interpreter} fuel :
  (forall room s e, scan_once fuel room s = Some (inl e) ->
                    decoding_error e)
  /\ (forall room s e, object_members fuel room s = Some (inl e) ->
                       decoding_error e)
  /\ (forall room s e, array_items fuel room s = Some (inl e) ->
                       decoding_error e).
Proof.
  induction fuel as [|fuel (IHs & IHo & IHa)].
  - repeat split; intros; discriminate.
  - repeat split; intros room s e H.
    + cbn [scan_once] in H. unfold rbind, Ok, Raise in H.
      repeat break_in H;
        repeat match goal with
               | E : Some _ = Some _ |- _ => injection E as E; subst
               | E : inl _ = inl _ |- _ => injection E as E; subst
               end;
        subst;
        eauto using scanstring_decoding, number_raises,
          decoding_error_json, decoding_error_recursion.
    + cbn [object_members] in H. unfold rbind, Ok, Raise in H.
      repeat break_in H;
        repeat match goal with
               | E : Some _ = Some _ |- _ => injection E as E; subst
               | E : inl _ = inl _ |- _ => injection E as E; subst
               end;
        subst;
        eauto using scanstring_decoding, decoding_error_json.
    + cbn [array_items] in H. unfold rbind, Ok, Raise in H.
      repeat break_in H;
        repeat match goal with
               | E : Some _ = Some _ |- _ => injection E as E; subst
               | E : inl _ = inl _ |- _ => injection E as E; subst
               end;
        subst;
        eauto using scanstring_decoding, decoding_error_json.
Qed.

Lemma loads_raises {I : interpreter} s e :
  loads s = inl e -> decoding_error e.
Proof.
  unfold loads. intros H. unfold rbind, Ok, Raise in H.
  repeat break_in H;
    repeat match goal with
           | E : inl _ = inl _ |- _ => injection E as E; subst
           end;
    subst; try apply decoding_error_json.
  all: match goal with
       | E : scan_once _ _ _ = Some (inl _) |- _ =>
           now apply (proj1 (scan_raises _)) in E
       end.
Qed.

End JsonErrors.

(** ** Name extraction *)

Module NameFacts.

Import Re Json Names Render.

(** [has_char c s]: the character occurs in the text. *)
Definition has_char (c : char) (s : str) : bool := existsb (N.eqb c) s.

Lemma has_char_false c s : has_char c s = false -> ~ In c s.
Proof.
  unfold has_char. intros H Hin.
  assert (existsb (N.eqb c) s = true); [|congruence].
  apply existsb_exists. exists c. split; [assumption | apply N.eqb_refl].
Qed.

Lemma strip_unknown : strip Unknown = Unknown.
Proof. reflexivity. Qed.

Lemma field_present kv key s :
  dict_lookup kv key = Some (JString s) ->
  field (JObject kv) key = Ok (strip s).
Proof. intros H. unfold field, get. now rewrite H. Qed.

Lemma field_missing kv key :
  dict_lookup kv key = None -> field (JObject kv) key = Ok Unknown.
Proof. intros H. unfold field, get. now rewrite H. Qed.

Lemma field_not_text kv key v :
  dict_lookup kv key = Some v ->
  (forall s, v <> JString s) ->
  field (JObject kv) key = Raise AttributeError.
Proof.
  intros H Hv. unfold field, get. rewrite H. simpl.
  destruct v; try reflexivity. now destruct (Hv s).
Qed.

(** Without a block nothing is parsed and nothing is shown. *)
Lemma extract_names_no_block {I : interpreter} content :
  search content = None -> extract_names content = Ok (unknown_names, []).
Proof. intros H. unfold extract_names, try_body. now rewrite H. Qed.

(** A block the decoder refuses as not being JSON: the fallback, with
    the warning and the raw response. *)
Lemma extract_names_bad_block {I : interpreter} content block :
  search content = Some block -> loads block = Raise JSONDecodeError ->
  extract_names content
  = Ok (unknown_names, [StWarning; StCode content]).
Proof.
  intros Hs Hl. unfold extract_names, try_body. now rewrite Hs, Hl.
Qed.

(** A block on which the decoder raises anything else: the handler is
    not for it, and the exception ends the extraction. *)
Lemma extract_names_decoder_raises {I : interpreter} content block e :
  search content = Some block -> loads block = Raise e ->
  e <> JSONDecodeError ->
  extract_names content = Raise e.
Proof.
  intros Hs Hl He. unfold extract_names, try_body. rewrite Hs, Hl.
  unfold rbind, Raise. destruct e; try reflexivity. now destruct He.
Qed.

(** A block that parses to an object: the two fields, one after the
    other, and no widget. *)
Lemma extract_names_object {I : interpreter} content block kv :
  search content = Some block -> loads block = Ok (JObject kv) ->
  extract_names content
  = match field (JObject kv) (lit "agent_name") with
    | inl e => Raise e
    | inr a =>
        match field (JObject kv) (lit "customer_name") with
        | inl e => Raise e
        | inr c => Ok ({| agent_name := a; customer_name := c |}, [])
        end
    end.
Proof.
  intros Hs Hl. unfold extract_names, try_body. rewrite Hs, Hl.
  unfold rbind, Ok. unfold field, get.
  destruct (dict_lookup kv (lit "agent_name")) as [[]|];
    destruct (dict_lookup kv (lit "customer_name")) as [[]|];
    reflexivity.
Qed.

Lemma names_of_first_block {I : interpreter} pre body post kv a c :
  has_char lbrace pre = false ->
  has_char rbrace body = false ->
  loads (lbrace :: body ++ [rbrace]) = Ok (JObject kv) ->
  dict_lookup kv (lit "agent_name") = Some (JString a) ->
  dict_lookup kv (lit "customer_name") = Some (JString c) ->
  extract_names (pre ++ lbrace :: body ++ rbrace :: post)
  = Ok ({| agent_name := strip a; customer_name := strip c |}, []).
Proof.
  intros Hpre Hbody Hl Ha Hc.
  rewrite (extract_names_object _ _ kv
             (ReFacts.search_first_block pre body post
                (has_char_false _ _ Hpre) (has_char_false _ _ Hbody)) Hl).
  now rewrite (field_present _ _ _ Ha), (field_present _ _ _ Hc).
Qed.

(** C2, as amended.  When the object is the first block of the response
    (no opening brace before it, no closing brace inside it) and
    [json.loads] decodes it, in the interpreter at hand, to a dictionary
    that gives the texts [a] and [c] for the two keys, the extraction
    returns [a] and [c] trimmed and shows nothing. *)
Theorem extract_names_first_block {I : interpreter} pre body post kv a c :
  has_char lbrace pre = false ->
  has_char rbrace body = false ->
  loads (lbrace :: body ++ [rbrace]) = Ok (JObject kv) ->
  dict_lookup kv (lit "agent_name") = Some (JString a) ->
  dict_lookup kv (lit "customer_name") = Some (JString c) ->
  extract_names (pre ++ lbrace :: body ++ rbrace :: post)
  = Ok ({| agent_name := strip a; customer_name := strip c |}, []).
Proof. exact (names_of_first_block pre body post kv a c). Qed.

Definition sams_reply : str :=
  lit "agent_name" ++ dq ++ lit ": " ++ dq ++ lit "Sam" ++ dq ++ lit ", "
  ++ dq ++ lit "customer_name" ++ dq ++ lit ": " ++ dq ++ lit " Alice ".

(** The response of the spec's scenario, with blanks around one name. *)
Lemma extract_names_first_block_witness :
  extract_names (I := cpython)
    (lit "Sure! " ++ lbrace :: (dq ++ sams_reply ++ dq)
     ++ rbrace :: lit " Anything else?")
  = Ok ({| agent_name := lit "Sam"; customer_name := lit "Alice" |}, []).
Proof.
  apply (extract_names_first_block (I := cpython)
           (lit "Sure! ") (dq ++ sams_reply ++ dq)
           (lit " Anything else?")
           [ (lit "agent_name", JString (lit "Sam"));
             (lit "customer_name", JString (lit " Alice ")) ]
           (lit "Sam") (lit " Alice "));
    vm_compute; reflexivity.
Defined.

(** The same for a response rendered in the asked shape, whatever the
    two names, as long as they need no escape and hold no closing
    brace. *)
Lemma extract_names_render {I : interpreter} pre a c post :
  has_char lbrace pre = false ->
  plain a -> plain c ->
  has_char rbrace a = false -> has_char rbrace c = false ->
  extract_names (pre ++ render a c ++ post)
  = Ok ({| agent_name := strip a; customer_name := strip c |}, []).
Proof.
  intros Hpre Pa Pc Ha Hc.
  pose proof (loads_render a c Pa Pc) as Hl.
  set (body := quote ::
    (lit "agent_name" ++ quote :: colon :: 32%N :: quote ::
     (a ++ quote :: comma :: 32%N :: quote ::
      (lit "customer_name" ++ quote :: colon :: 32%N :: quote ::
       (c ++ [quote]))))).
  assert (E : render a c = lbrace :: body ++ [rbrace]).
  { rewrite render_cons. unfold body. cbn [app]. do 2 f_equal.
    rewrite <- !app_assoc. cbn [app]. do 5 f_equal.
    rewrite <- !app_assoc. cbn [app]. do 5 f_equal.
    rewrite <- !app_assoc. cbn [app]. do 5 f_equal.
    rewrite <- !app_assoc. reflexivity. }
  rewrite E in Hl. rewrite E.
  replace ((lbrace :: body ++ [rbrace]) ++ post)
    with (lbrace :: body ++ rbrace :: post)
    by (cbn [app]; now rewrite <- app_assoc).
  eapply (names_of_first_block pre body post);
    [exact Hpre | | exact Hl | reflexivity | reflexivity].
  unfold body, has_char. cbn [existsb].
  repeat (rewrite existsb_app; cbn [existsb]).
  change (existsb (N.eqb rbrace) a) with (has_char rbrace a).
  change (existsb (N.eqb rbrace) c) with (has_char rbrace c).
  rewrite Ha, Hc. reflexivity.
Qed.

(** C2, as stated, fails: braces in the text before the object make the
    first block something else, and the extraction falls back. *)
Lemma extract_names_embedded_counterexample :
  let text := lit "Format {json}: " ++ render (lit "Sam") (lit "Alice") in
  loads (I := cpython) (render (lit "Sam") (lit "Alice"))
  = Ok (JObject [ (lit "agent_name", JString (lit "Sam"));
                  (lit "customer_name", JString (lit "Alice")) ])
  /\ extract_names (I := cpython) text
     = Ok (unknown_names, [StWarning; StCode text])
  /\ extract_names (I := cpython) text
     <> Ok ({| agent_name := strip (lit "Sam");
               customer_name := strip (lit "Alice") |}, []).
Proof.
  cbv zeta. split; [|split].
  - apply loads_render; reflexivity.
  - vm_compute. reflexivity.
  - vm_compute. discriminate.
Qed.

(** C3, as amended.  A response without a block, or whose first block
    [json.loads] refuses with [JSONDecodeError], gives ("Unknown",
    "Unknown"); the warning and the raw response are shown when there
    is a block, and nothing is shown when there is none. *)
Theorem extract_names_fallback {I : interpreter} content :
  search content = None
  \/ (exists block, search content = Some block
                    /\ loads block = Raise JSONDecodeError) ->
  exists shown,
    extract_names content = Ok (unknown_names, shown)
    /\ (search content = None -> shown = [])
    /\ (forall block, search content = Some block ->
                      shown = [StWarning; StCode content]).
Proof.
  intros [Hn | (block & Hs & Hl)].
  - exists []. split; [now apply extract_names_no_block|].
    split; [reflexivity|]. intros block Hb. congruence.
  - exists [StWarning; StCode content].
    split; [eapply extract_names_bad_block; eassumption|].
    split; [congruence | reflexivity].
Qed.

Lemma extract_names_fallback_witness :
  exists shown,
    extract_names (I := cpython) (lit "Names: {Sam, Alice}")
    = Ok (unknown_names, shown)
    /\ (search (lit "Names: {Sam, Alice}") = None -> shown = [])
    /\ (forall block, search (lit "Names: {Sam, Alice}") = Some block ->
                      shown = [StWarning; StCode (lit "Names: {Sam, Alice}")]).
Proof.
  apply (extract_names_fallback (I := cpython) (lit "Names: {Sam, Alice}")).
  right. exists (lit "{Sam, Alice}").
  split; vm_compute; reflexivity.
Defined.

(** C3, as stated, fails: a response without braces gives the fallback
    and shows no warning. *)
Lemma extract_names_no_braces_counterexample :
  search (lit "The agent is Sam and the customer is Alice.") = None
  /\ extract_names (I := cpython)
       (lit "The agent is Sam and the customer is Alice.")
     = Ok (unknown_names, []).
Proof. split; vm_compute; reflexivity. Qed.

(** [main.py] never shows a warning, whatever the response. *)
Lemma extract_names_main_silent {I : interpreter} content n shown :
  extract_names_main content = Ok (n, shown) -> shown = [].
Proof.
  unfold extract_names_main.
  destruct (try_body_main content) as [[]|]; intros H; inversion H;
    reflexivity.
Qed.

Definition null_name_reply : str :=
  lit "{" ++ dq ++ lit "agent_name" ++ dq ++ lit ": null, " ++ dq
  ++ lit "customer_name" ++ dq ++ lit ": " ++ dq ++ lit "Alice" ++ dq
  ++ lit "}".

(** C4: a response whose object gives [null] for a name.  The object
    parses, [.strip()] is called on [None], and the [AttributeError]
    passes the handler: no names come back. *)
Theorem extract_names_null_value {I : interpreter} :
  loads null_name_reply
  = Ok (JObject [ (lit "agent_name", JNull);
                  (lit "customer_name", JString (lit "Alice")) ])
  /\ extract_names null_name_reply = Raise AttributeError
  /\ extract_names_main null_name_reply = Raise AttributeError.
Proof. repeat split; vm_compute; reflexivity. Qed.

(** More generally, a name that is present and is not text ends the
    extraction with [AttributeError]. *)
Lemma extract_names_not_text {I : interpreter} content block kv v :
  search content = Some block -> loads block = Ok (JObject kv) ->
  dict_lookup kv (lit "agent_name") = Some v ->
  (forall s, v <> JString s) ->
  extract_names content = Raise AttributeError.
Proof.
  intros Hs Hl Hv Hn.
  rewrite (extract_names_object _ _ _ Hs Hl).
  now rewrite (field_not_text _ _ _ Hv Hn).
Qed.

(** The name a field resolves to when it is text or missing. *)
Definition resolved (kv : list (str * json)) (key : str) : option str :=
  match dict_lookup kv key with
  | None => Some Unknown
  | Some (JString s) => Some (strip s)
  | Some _ => None
  end.

(** When the first block parses to an object in which each of the two
    keys is missing or holds text, the extraction returns "Unknown" for
    a missing key and the trimmed text for a present one, and shows
    nothing. *)
Lemma missing_key_defaults {I : interpreter} content block kv a c :
  search content = Some block -> loads block = Ok (JObject kv) ->
  resolved kv (lit "agent_name") = Some a ->
  resolved kv (lit "customer_name") = Some c ->
  extract_names content
  = Ok ({| agent_name := a; customer_name := c |}, [])
  /\ (dict_lookup kv (lit "agent_name") = None -> a = Unknown)
  /\ (dict_lookup kv (lit "customer_name") = None -> c = Unknown).
Proof.
  intros Hs Hl Ha Hc. rewrite (extract_names_object _ _ _ Hs Hl).
  unfold resolved in Ha, Hc. unfold field, get.
  destruct (dict_lookup kv (lit "agent_name")) as [[]|];
    try discriminate;
    destruct (dict_lookup kv (lit "customer_name")) as [[]|];
    try discriminate;
    injection Ha as <-; injection Hc as <-;
    repeat split; try reflexivity; intros; discriminate.
Qed.

Definition agent_only_reply : str :=
  lit "{" ++ dq ++ lit "agent_name" ++ dq ++ lit ": " ++ dq ++ lit "Sam" ++ dq
  ++ lit "}".

Lemma missing_key_defaults_example :
  extract_names (I := cpython) agent_only_reply
  = Ok ({| agent_name := lit "Sam"; customer_name := Unknown |}, []).
Proof.
  apply (missing_key_defaults (I := cpython) agent_only_reply
           agent_only_reply
           [(lit "agent_name", JString (lit "Sam"))] (lit "Sam") Unknown);
    vm_compute; reflexivity.
Qed.

Definition number_name_reply : str :=
  lit "{" ++ dq ++ lit "agent_name" ++ dq ++ lit ": 5}".

(** C9.  The response [{"agent_name": 5}] is its own first block and
    parses to an object that lacks [customer_name].  "Unknown" is what
    the missing key resolves to, but it never comes back: [.strip()]
    on the number under [agent_name] raises [AttributeError], which
    passes the handler and ends the extraction, in [best.py] and in
    [main.py] alike.  The defect is the one of C4. *)
Theorem extract_names_missing_key {I : interpreter} :
  search number_name_reply = Some number_name_reply
  /\ loads number_name_reply
     = Ok (JObject [(lit "agent_name", JNumber (lit "5"))])
  /\ dict_lookup [(lit "agent_name", JNumber (lit "5"))] (lit "customer_name")
     = None
  /\ resolved [(lit "agent_name", JNumber (lit "5"))] (lit "customer_name")
     = Some Unknown
  /\ extract_names number_name_reply = Raise AttributeError
  /\ extract_names_main number_name_reply = Raise AttributeError.
Proof. repeat split; vm_compute; reflexivity. Qed.

End NameFacts.

(** ** The schema *)

Module SchemaFacts.

Import Sqlite.

Lemma ident_eqb_refl a : ident_eqb a a = true.
Proof. apply str_eqb_refl. Qed.

Lemma ident_eqb_lower a b :
  ident_eqb a b = true -> map lower a = map lower b.
Proof. apply str_eqb_eq. Qed.

Lemma has_column_In t name :
  In name (column_names t) -> has_column t name = true.
Proof.
  unfold column_names, has_column. intros H.
  apply in_map_iff in H as (c & <- & Hc).
  apply existsb_exists. exists c. split; [assumption | apply ident_eqb_refl].
Qed.

Lemma create_database_table d :
  exists d1 t,
    create_database d = Ok d1 /\ call_reports d1 = Some t
    /\ sqlite_sequence d1 = sqlite_sequence d
    /\ (call_reports d = None -> t = fresh_table)
    /\ (forall t0, call_reports d = Some t0 -> d1 = d).
Proof.
  unfold create_database. destruct (call_reports d) as [t|] eqn:E.
  - exists d, t. repeat split; try assumption; try discriminate.
  - exists {| call_reports := Some fresh_table;
              sqlite_sequence := sqlite_sequence d |}, fresh_table.
    repeat split. intros t0 H. discriminate.
Qed.

(** Once the column is there, [update_database_schema] does nothing. *)
Lemma update_schema_present d t :
  call_reports d = Some t -> In company_improvements (column_names t) ->
  update_database_schema d = Ok d.
Proof.
  intros Ht Hin. unfold update_database_schema, table_info. rewrite Ht.
  apply py_in_In in Hin. now rewrite Hin.
Qed.

(** The starting states of the store: no table yet, a table of an
    older schema without the column, a table that has it. *)
Inductive starting_state (d : db) : Prop :=
| start_empty :
    call_reports d = None -> starting_state d
| start_old t :
    call_reports d = Some t -> has_column t company_improvements = false ->
    starting_state d
| start_current t :
    call_reports d = Some t -> In company_improvements (column_names t) ->
    starting_state d.

(** C6.  From each starting state the schema calls succeed, and calling
    them again changes nothing: the second run returns the database of
    the first run, so the columns of [call_reports] are the same. *)
Theorem ensure_schema_idempotent d :
  starting_state d ->
  exists d1,
    ensure_schema d = Ok d1
    /\ ensure_schema d1 = Ok d1
    /\ table_info d1 = table_info (after d1 (ensure_schema d1))
    /\ In company_improvements (table_info d1).
Proof.
  assert (fixed : forall d1 t, call_reports d1 = Some t ->
            In company_improvements (column_names t) ->
            ensure_schema d1 = Ok d1).
  { intros d1 t Ht Hin. unfold ensure_schema, create_database.
    rewrite Ht. cbn [rbind Ok]. now apply (update_schema_present d1 t). }
  intros [Hnone | t Ht Hold | t Ht Hin].
  - exists {| call_reports := Some fresh_table;
              sqlite_sequence := sqlite_sequence d |}.
    assert (E : ensure_schema d
                = Ok {| call_reports := Some fresh_table;
                        sqlite_sequence := sqlite_sequence d |}).
    { unfold ensure_schema, create_database. rewrite Hnone. reflexivity. }
    assert (F := fixed {| call_reports := Some fresh_table;
                          sqlite_sequence := sqlite_sequence d |}
                   fresh_table eq_refl).
    rewrite E, F; [|cbv; tauto]. repeat split. cbv; tauto.
  - set (t' := {| columns := columns t ++
                    [ {| col_name := company_improvements;
                         col_default := Null |} ];
                  checks := checks t; rows := rows t |}).
    set (d1 := {| call_reports := Some t';
                  sqlite_sequence := sqlite_sequence d |}).
    assert (Hin : In company_improvements (column_names t')).
    { unfold column_names, t'. cbn [columns]. rewrite map_app.
      apply in_or_app. right. now left. }
    assert (E : ensure_schema d = Ok d1).
    { unfold ensure_schema, create_database. rewrite Ht. cbn [rbind Ok].
      unfold update_database_schema, table_info. rewrite Ht.
      assert (N : py_in company_improvements (column_names t) = false).
      { apply py_in_false. intros H. apply has_column_In in H. congruence. }
      rewrite N. cbn [negb]. unfold add_column. rewrite Ht, Hold.
      reflexivity. }
    exists d1. rewrite E, (fixed d1 t' eq_refl Hin). repeat split.
    exact Hin.
  - exists d. rewrite (fixed d t Ht Hin). repeat split.
    unfold table_info. now rewrite Ht.
Qed.

Lemma ensure_schema_idempotent_witness :
  exists d1,
    ensure_schema empty_db = Ok d1
    /\ ensure_schema d1 = Ok d1
    /\ table_info d1 = table_info (after d1 (ensure_schema d1))
    /\ In company_improvements (table_info d1).
Proof.
  apply (ensure_schema_idempotent empty_db). apply start_empty. reflexivity.
Defined.

(** Whatever the database, a second run of the schema calls gives what
    the first run gave, failures included. *)
Lemma ensure_schema_twice d :
  (d1 <- ensure_schema d ;; ensure_schema d1) = ensure_schema d.
Proof.
  destruct (ensure_schema d) as [e|d1] eqn:E; [reflexivity|].
  cbn [rbind]. unfold ensure_schema in E.
  destruct (create_database_table d) as (d0 & t & Hc & Ht & _).
  rewrite Hc in E. cbn [rbind Ok] in E.
  unfold update_database_schema, table_info in E. rewrite Ht in E.
  destruct (py_in company_improvements (column_names t)) eqn:P;
    cbn [negb] in E.
  - injection E as <-. apply py_in_In in P.
    unfold ensure_schema, create_database. rewrite Ht. cbn [rbind Ok].
    now apply (update_schema_present d0 t).
  - unfold add_column in E. rewrite Ht in E.
    destruct (has_column t company_improvements); [discriminate|].
    injection E as <-.
    unfold ensure_schema, create_database. cbn [call_reports rbind Ok].
    eapply update_schema_present; [reflexivity|].
    unfold column_names. cbn [columns]. rewrite map_app.
    apply in_or_app. right. now left.
Qed.

(** C10.  On an existing table the migration leaves the columns as
    they are or appends [company_improvements]; any other column that
    was missing is still missing; rows and constraints are kept. *)
Theorem update_schema_only_adds d t :
  call_reports d = Some t ->
  exists t',
    call_reports (after d (update_database_schema d)) = Some t'
    /\ (column_names t' = column_names t
        \/ column_names t' = column_names t ++ [company_improvements])
    /\ (forall name, name <> company_improvements ->
          ~ In name (column_names t) -> ~ In name (column_names t'))
    /\ rows t' = rows t
    /\ checks t' = checks t.
Proof.
  intros Ht. unfold update_database_schema, table_info. rewrite Ht.
  destruct (py_in company_improvements (column_names t)); cbn [negb].
  - exists t. cbn [after]. repeat split; auto.
  - unfold add_column. rewrite Ht.
    destruct (has_column t company_improvements).
    + exists t. cbn [after]. repeat split; auto.
    + eexists. cbn [after call_reports]. split; [reflexivity|].
      unfold column_names. cbn [columns rows checks]. rewrite map_app.
      cbn [map col_name]. repeat split.
      * now right.
      * intros name Hne Hno Hin. apply in_app_or in Hin as [Hin | [Hin | []]].
        -- now apply Hno.
        -- now apply Hne.
Qed.

Definition agentless_table : table :=
  {| columns :=
       [ {| col_name := id_column; col_default := Null |};
         {| col_name := lit "customer_name"; col_default := Null |};
         {| col_name := lit "customer_satisfied"; col_default := Null |} ];
     checks := []; rows := [] |}.

Lemma update_schema_only_adds_witness :
  exists t',
    call_reports
      (after {| call_reports := Some agentless_table;
                sqlite_sequence := None |}
         (update_database_schema
            {| call_reports := Some agentless_table;
               sqlite_sequence := None |})) = Some t'
    /\ (column_names t' = column_names agentless_table
        \/ column_names t'
           = column_names agentless_table ++ [company_improvements])
    /\ (forall name, name <> company_improvements ->
          ~ In name (column_names agentless_table) ->
          ~ In name (column_names t'))
    /\ rows t' = rows agentless_table
    /\ checks t' = checks agentless_table.
Proof.
  apply (update_schema_only_adds
           {| call_reports := Some agentless_table; sqlite_sequence := None |}
           agentless_table).
  reflexivity.
Defined.

(** The example of the claim: a table without [agent_name] is still
    without it after the migration, and the INSERT of the Home page
    then fails. *)
Lemma agent_name_stays_missing :
  exists d1 t1,
    update_database_schema
      {| call_reports := Some agentless_table; sqlite_sequence := None |}
    = Ok d1
    /\ call_reports d1 = Some t1
    /\ ~ In (lit "agent_name") (column_names t1)
    /\ forall f, insert_report d1 f = Raise OperationalError.
Proof.
  eexists. eexists. split; [vm_compute; reflexivity|].
  split; [reflexivity|]. split.
  - vm_compute. intuition discriminate.
  - intros f. reflexivity.
Qed.

End SchemaFacts.

(** ** Rows *)

Module RowFacts.

Import Sqlite SchemaFacts.

Lemma assoc_lower kv a b :
  map lower a = map lower b -> assoc kv a = assoc kv b.
Proof.
  intros H. induction kv as [|[k v] kv IH]; [reflexivity|].
  cbn [assoc]. unfold ident_eqb. now rewrite H, IH.
Qed.

(** A column that the INSERT names holds the bound value in the new
    row. *)
Lemma new_cells_named t named name v :
  has_column t name = true ->
  ident_eqb name id_column = false ->
  assoc named name = Some v ->
  assoc (new_cells t named) name = Some v.
Proof.
  unfold has_column, new_cells. intros Hc Hid Hv.
  induction (columns t) as [|c cs IH]; [discriminate|].
  cbn [existsb] in Hc. cbn [filter].
  destruct (ident_eqb (col_name c) name) eqn:E.
  - assert (L := ident_eqb_lower _ _ E).
    assert (Hn : ident_eqb (col_name c) id_column = false).
    { unfold ident_eqb in *. now rewrite L. }
    rewrite Hn. cbn [negb map assoc]. rewrite E.
    now rewrite (assoc_lower named _ _ L), Hv.
  - cbn [orb] in Hc.
    destruct (negb (ident_eqb (col_name c) id_column)).
    + cbn [map assoc]. rewrite E. now apply IH.
    + now apply IH.
Qed.

Lemma forallb_false_In {A} (f : A -> bool) x l :
  In x l -> f x = false -> forallb f l = false.
Proof.
  intros Hin Hf. destruct (forallb f l) eqn:E; [|reflexivity].
  rewrite forallb_forall in E. rewrite (E x Hin) in Hf. discriminate.
Qed.

(** The CHECK of [create_database]. *)
Definition satisfied_check : check :=
  {| chk_column := lit "customer_satisfied";
     chk_allowed := [lit "Yes"; lit "No"] |}.

Definition named_columns : list str :=
  [ lit "customer_name"; lit "agent_name"; lit "customer_satisfied";
    company_improvements ].

(** The four texts of a row can be encoded. *)
Definition encodable_fields (f : fields) : bool :=
  encodable (f_customer_name f) && encodable (f_agent_name f)
  && encodable (f_customer_satisfied f)
  && encodable (f_company_improvements f).

Lemma bindable_fields f :
  forallb (fun kv : str * value => bindable (snd kv))
    [ (lit "customer_name", Text (f_customer_name f));
      (lit "agent_name", Text (f_agent_name f));
      (lit "customer_satisfied", Text (f_customer_satisfied f));
      (company_improvements, Text (f_company_improvements f)) ]
  = encodable_fields f.
Proof.
  unfold encodable_fields. cbn [forallb snd bindable].
  now rewrite andb_true_r, !andb_assoc.
Qed.

(** What the INSERT raises for a value the CHECK refuses. *)
Definition refusal (d : db) (t : table) (f : fields) : exn :=
  if encodable_fields f then
    match new_rowid t (sqlite_sequence d) with
    | Some _ => IntegrityError
    | None => OperationalError
    end
  else UnicodeEncodeError.

Lemma insert_refused d t f :
  call_reports d = Some t ->
  forallb (has_column t) named_columns = true ->
  In satisfied_check (checks t) ->
  py_in (f_customer_satisfied f) [lit "Yes"; lit "No"] = false ->
  insert_report d f = Raise (refusal d t f).
Proof.
  intros Ht Hcols Hchk Hno.
  unfold insert_report, insert_row, refusal. rewrite Ht.
  rewrite bindable_fields.
  cbn [forallb fst]. unfold named_columns in Hcols.
  cbn [forallb] in Hcols. rewrite Hcols.
  apply andb_true_iff in Hcols as [_ Hcols].
  apply andb_true_iff in Hcols as [_ Hcols].
  apply andb_true_iff in Hcols as [Hsat _].
  destruct (encodable_fields f); [|reflexivity].
  destruct (new_rowid t (sqlite_sequence d)) as [i|]; [|reflexivity].
  cbv zeta.
  match goal with
  | |- (if forallb (check_holds ?cs) _ then _ else _) = _ =>
      assert (F : check_holds cs satisfied_check = false)
  end.
  { unfold check_holds, satisfied_check. cbn [chk_column chk_allowed].
    erewrite new_cells_named; [| exact Hsat | reflexivity | reflexivity].
    exact Hno. }
  now rewrite (forallb_false_In _ _ _ Hchk F).
Qed.

(** A text that cannot be encoded stops the INSERT when it is bound,
    whatever the other values. *)
Lemma insert_unencodable d t f :
  call_reports d = Some t ->
  forallb (has_column t) named_columns = true ->
  encodable_fields f = false ->
  insert_report d f = Raise UnicodeEncodeError.
Proof.
  intros Ht Hcols Henc. unfold insert_report, insert_row. rewrite Ht.
  rewrite bindable_fields, Henc.
  cbn [forallb fst]. unfold named_columns in Hcols.
  cbn [forallb] in Hcols. now rewrite Hcols.
Qed.

Lemma refusal_check d t f :
  encodable_fields f = true ->
  new_rowid t (sqlite_sequence d) <> None ->
  refusal d t f = IntegrityError.
Proof.
  intros He Hr. unfold refusal. rewrite He.
  destruct (new_rowid t (sqlite_sequence d)); [reflexivity|].
  now destruct Hr.
Qed.

(** C5, as amended.  On a table that has the four columns and the
    CHECK, an INSERT with a value of [customer_satisfied] other than
    'Yes' and 'No' always raises, and the statement run on the page
    hands the exception on and leaves the world, the database in it, as
    it was.  The exception is [IntegrityError] when the four texts can
    be encoded and a rowid is left to give; a text that cannot be
    encoded stops the statement before with [UnicodeEncodeError], and
    a used-up rowid sequence with [OperationalError]. *)
Theorem insert_report_check_violation d t f tr :
  call_reports d = Some t ->
  forallb (has_column t) named_columns = true ->
  In satisfied_check (checks t) ->
  f_customer_satisfied f <> lit "Yes" ->
  f_customer_satisfied f <> lit "No" ->
  insert_report d f = Raise (refusal d t f)
  /\ Page.on_database (fun d0 => insert_report d0 f)
       {| Page.database := d; Page.trace := tr |}
     = (Raise (refusal d t f),
        {| Page.database := d; Page.trace := tr |})
  /\ (encodable_fields f = true ->
      new_rowid t (sqlite_sequence d) <> None ->
      refusal d t f = IntegrityError).
Proof.
  intros Ht Hcols Hchk Hy Hn.
  assert (Hno : py_in (f_customer_satisfied f) [lit "Yes"; lit "No"]
                = false).
  { cbn [py_in existsb].
    now rewrite (str_eqb_neq _ _ Hy), (str_eqb_neq _ _ Hn). }
  pose proof (insert_refused d t f Ht Hcols Hchk Hno) as E.
  split; [exact E|]. split.
  - unfold Page.on_database. cbn [Page.database]. now rewrite E.
  - apply refusal_check.
Qed.

Definition ready_db : db :=
  {| call_reports := Some fresh_table; sqlite_sequence := None |}.

Definition maybe_fields : fields :=
  {| f_customer_name := lit "Alice"; f_agent_name := lit "Sam";
     f_customer_satisfied := lit "Maybe";
     f_company_improvements := lit "No issues reported." |}.

Lemma insert_report_check_violation_witness :
  insert_report ready_db maybe_fields = Raise IntegrityError
  /\ Page.on_database (fun d0 => insert_report d0 maybe_fields)
       {| Page.database := ready_db; Page.trace := [] |}
     = (Raise IntegrityError,
        {| Page.database := ready_db; Page.trace := [] |})
  /\ (encodable_fields maybe_fields = true ->
      new_rowid fresh_table (sqlite_sequence ready_db) <> None ->
      refusal ready_db fresh_table maybe_fields = IntegrityError).
Proof.
  apply (insert_report_check_violation ready_db fresh_table maybe_fields []).
  - reflexivity.
  - vm_compute. reflexivity.
  - left. reflexivity.
  - vm_compute. discriminate.
  - vm_compute. discriminate.
Defined.

(** A value outside the enum that is a lone surrogate, as the escape
    [\ud800] in a model response decodes to. *)
Definition surrogate_fields : fields :=
  {| f_customer_name := lit "Alice"; f_agent_name := lit "Sam";
     f_customer_satisfied := [55296%N];
     f_company_improvements := lit "No issues reported." |}.

(** A table whose rowid sequence has been used up. *)
Definition full_db : db :=
  {| call_reports := Some fresh_table;
     sqlite_sequence := Some max_rowid_value |}.

(** C5, as stated, fails: a value outside the enum that cannot be
    encoded is refused when it is bound, with [UnicodeEncodeError], and
    on a used-up sequence "Maybe" is refused with [OperationalError];
    neither is the constraint violation. *)
Lemma insert_report_check_violation_counterexample :
  py_in (f_customer_satisfied surrogate_fields) [lit "Yes"; lit "No"] = false
  /\ insert_report ready_db surrogate_fields = Raise UnicodeEncodeError
  /\ insert_report ready_db surrogate_fields <> Raise IntegrityError
  /\ insert_report full_db maybe_fields = Raise OperationalError
  /\ insert_report full_db maybe_fields <> Raise IntegrityError.
Proof. repeat split; vm_compute; (reflexivity || discriminate). Qed.

(** *** Rowids *)

Lemma largest_rowid_bound rs :
  match largest_rowid rs with
  | None => rs = []
  | Some m => Forall (fun r => (rowid r <= m)%Z) rs
  end.
Proof.
  induction rs as [|r rs IH]; [reflexivity|].
  cbn [largest_rowid]. destruct (largest_rowid rs) as [m|].
  - constructor; [lia|].
    eapply Forall_impl; [|exact IH]. cbv beta. intros; lia.
  - subst. constructor; [lia | constructor].
Qed.

(** A row whose rowid is above all others goes to the end of the
    tree. *)
Lemma tree_insert_last r rs :
  Forall (fun x => (rowid x < rowid r)%Z) rs ->
  tree_insert r rs = rs ++ [r].
Proof.
  induction 1 as [|x rs Hx _ IH]; [reflexivity|].
  cbn [tree_insert app].
  destruct (Z.ltb_spec (rowid r) (rowid x)); [lia|]. now rewrite IH.
Qed.

Lemma largest_rowid_app rs r :
  Forall (fun x => (rowid x < rowid r)%Z) rs ->
  largest_rowid (rs ++ [r]) = Some (rowid r).
Proof.
  induction 1 as [|x rs Hx Hrs IH]; [reflexivity|].
  cbn [app largest_rowid]. rewrite IH. f_equal. lia.
Qed.

(** The rowids are positive and [sqlite_sequence] is not ahead of the
    table. *)
Definition in_step (d : db) (t : table) : Prop :=
  Forall (fun r => (1 <= rowid r)%Z) (rows t)
  /\ (match sqlite_sequence d with Some s => s | None => 0 end
      <= match largest_rowid (rows t) with Some m => m | None => 0 end)%Z.

Definition next_id (t : table) : Z :=
  match largest_rowid (rows t) with
  | Some m => m + 1
  | None => 1
  end.

Definition report_of_fields (i : Z) (f : fields) : report :=
  {| r_id := i;
     r_customer_name := Text (f_customer_name f);
     r_agent_name := Text (f_agent_name f);
     r_customer_satisfied := Text (f_customer_satisfied f);
     r_company_improvements := Text (f_company_improvements f) |}.

Definition report_columns : list str :=
  [ id_column; lit "customer_name"; lit "agent_name";
    lit "customer_satisfied"; company_improvements ].

Lemma new_rowid_in_step d t :
  in_step d t -> (next_id t <= max_rowid_value)%Z ->
  new_rowid t (sqlite_sequence d) = Some (next_id t).
Proof.
  intros [Hpos Hseq] Hmax. unfold new_rowid, next_id in *.
  pose proof (largest_rowid_bound (rows t)) as B.
  destruct (largest_rowid (rows t)) as [m|] eqn:L.
  - assert (1 <= m)%Z.
    { revert L Hpos B. destruct (rows t) as [|r rs]; [discriminate|].
      intros _ Hpos B. inversion Hpos; inversion B; subst. lia. }
    destruct (sqlite_sequence d) as [s|].
    + destruct (Z.eqb_spec m max_rowid_value); [lia|].
      destruct (Z.eqb_spec s max_rowid_value); [lia|].
      cbn [orb]. f_equal. lia.
    + destruct (Z.eqb_spec m max_rowid_value); [lia|].
      change (0 =? max_rowid_value)%Z with false. cbn [orb]. f_equal. lia.
  - destruct (sqlite_sequence d) as [s|].
    + destruct (Z.eqb_spec s max_rowid_value);
        [unfold max_rowid_value in *; lia|].
      f_equal. lia.
    + reflexivity.
Qed.

(** The INSERT of the Home page on a table with the five columns and
    the constraint of [create_database]. *)
Lemma insert_report_ok d t f :
  call_reports d = Some t ->
  forallb (has_column t) report_columns = true ->
  checks t = [satisfied_check] ->
  encodable_fields f = true ->
  py_in (f_customer_satisfied f) [lit "Yes"; lit "No"] = true ->
  in_step d t -> (next_id t <= max_rowid_value)%Z ->
  exists cs,
    insert_report d f
    = Ok ({| call_reports :=
               Some {| columns := columns t; checks := checks t;
                       rows := rows t ++ [ {| rowid := next_id t;
                                              cells := cs |} ] |};
             sqlite_sequence := Some (next_id t) |}, next_id t)
    /\ report_of_row {| rowid := next_id t; cells := cs |}
       = report_of_fields (next_id t) f.
Proof.
  intros Ht Hcols Hchk Henc Hsat Hstep Hmax.
  unfold report_columns in Hcols. cbn [forallb] in Hcols.
  apply andb_true_iff in Hcols as [_ Hcols].
  assert (Hnamed := Hcols).
  apply andb_true_iff in Hcols as [H1 Hcols].
  apply andb_true_iff in Hcols as [H2 Hcols].
  apply andb_true_iff in Hcols as [H3 Hcols].
  apply andb_true_iff in Hcols as [H4 _].
  unfold insert_report, insert_row. rewrite Ht.
  rewrite bindable_fields, Henc.
  cbn [forallb fst]. rewrite Hnamed.
  rewrite (new_rowid_in_step d t Hstep Hmax). cbv zeta.
  match goal with
  | |- context [new_cells t ?n] => set (named := n)
  end.
  assert (C1 := new_cells_named t named _ _ H1 eq_refl eq_refl).
  assert (C2 := new_cells_named t named _ _ H2 eq_refl eq_refl).
  assert (C3 := new_cells_named t named _ _ H3 eq_refl eq_refl).
  assert (C4 := new_cells_named t named _ _ H4 eq_refl eq_refl).
  exists (new_cells t named).
  rewrite Hchk. cbn [forallb]. unfold check_holds at 1.
  cbn [satisfied_check chk_column chk_allowed]. rewrite C3, Hsat.
  cbn [andb].
  rewrite tree_insert_last.
  - split; [reflexivity|].
    unfold report_of_row, report_of_fields, cell. cbn [rowid cells].
    now rewrite C1, C2, C3, C4.
  - cbn [rowid]. unfold next_id.
    pose proof (largest_rowid_bound (rows t)) as B.
    destruct (largest_rowid (rows t)) as [m|].
    + eapply Forall_impl; [|exact B]. cbv beta. intros; lia.
    + rewrite B. constructor.
Qed.

Lemma select_reports_ok d t :
  call_reports d = Some t ->
  forallb (has_column t) report_columns = true ->
  select_reports d = Ok (map report_of_row (rows t)).
Proof.
  intros Ht Hcols. unfold select_reports. rewrite Ht.
  fold report_columns. now rewrite Hcols.
Qed.

(** The INSERT of the Home page returns only for texts that can be
    encoded and a satisfaction the CHECK allows. *)
Lemma insert_report_only d t f d1 i :
  call_reports d = Some t ->
  has_column t (lit "customer_satisfied") = true ->
  In satisfied_check (checks t) ->
  insert_report d f = Ok (d1, i) ->
  encodable_fields f = true
  /\ py_in (f_customer_satisfied f) [lit "Yes"; lit "No"] = true.
Proof.
  intros Ht Hsat Hchk. unfold insert_report, insert_row. rewrite Ht.
  rewrite bindable_fields.
  destruct (forallb _ _); [|discriminate].
  destruct (encodable_fields f); [|discriminate].
  destruct (new_rowid t (sqlite_sequence d)) as [k|]; [|discriminate].
  cbv zeta.
  match goal with
  | |- (if forallb (check_holds ?cs) _ then _ else _) = _ -> _ =>
      destruct (forallb (check_holds cs) (checks t)) eqn:F;
      [|discriminate];
      assert (K : check_holds cs satisfied_check = true)
        by (rewrite forallb_forall in F; now apply F)
  end.
  intros _. split; [reflexivity|].
  unfold check_holds, satisfied_check in K.
  cbn [chk_column chk_allowed] in K.
  erewrite new_cells_named in K; [| exact Hsat | reflexivity | reflexivity].
  exact K.
Qed.

(** C7.  On a table with the five columns and the constraint of
    [create_database], in step with its sequence, and for a row the
    INSERT accepts (texts that can be encoded, a satisfaction the CHECK
    allows; see [insert_report_only]): the INSERT gives the new row the
    rowid one above the largest (1 on an empty table), the Reports page
    then lists the old rows followed by the new one with the stored
    fields, and after [clear_database] the INSERT gives rowid 1. *)
Theorem insert_then_list d t f :
  call_reports d = Some t ->
  forallb (has_column t) report_columns = true ->
  checks t = [satisfied_check] ->
  encodable_fields f = true ->
  py_in (f_customer_satisfied f) [lit "Yes"; lit "No"] = true ->
  in_step d t -> (next_id t <= max_rowid_value)%Z ->
  exists d1 old,
    insert_report d f = Ok (d1, next_id t)
    /\ select_reports d = Ok old
    /\ select_reports d1 = Ok (old ++ [report_of_fields (next_id t) f])
    /\ last (old ++ [report_of_fields (next_id t) f])
            (report_of_fields 0 f)
       = report_of_fields (next_id t) f
    /\ exists d0 d2,
         clear_database d = Ok d0
         /\ select_reports d0 = Ok []
         /\ insert_report d0 f = Ok (d2, 1%Z)
         /\ select_reports d2 = Ok [report_of_fields 1 f].
Proof.
  intros Ht Hcols Hchk Henc Hsat Hstep Hmax.
  destruct (insert_report_ok d t f Ht Hcols Hchk Henc Hsat Hstep Hmax)
    as (cs & Hins & Hrep).
  eexists. exists (map report_of_row (rows t)).
  split; [exact Hins|]. split; [now apply select_reports_ok|]. split.
  { erewrite select_reports_ok; [|reflexivity|exact Hcols].
    cbn [rows]. now rewrite map_app, <- Hrep. }
  split; [apply last_last|].
  set (t0 := {| columns := columns t; checks := checks t; rows := [] |}).
  set (d0 := {| call_reports := Some t0; sqlite_sequence := None |}).
  assert (Hstep0 : in_step d0 t0).
  { split; [constructor | cbn; lia]. }
  assert (Hmax0 : (next_id t0 <= max_rowid_value)%Z) by (cbv; discriminate).
  destruct (insert_report_ok d0 t0 f eq_refl Hcols Hchk Henc Hsat
              Hstep0 Hmax0)
    as (cs0 & Hins0 & Hrep0).
  change (next_id t0) with 1%Z in Hins0, Hrep0.
  change (rows t0) with (@nil row) in Hins0.
  exists d0. eexists.
  split; [unfold clear_database; now rewrite Ht|].
  split; [now apply (select_reports_ok d0 t0)|].
  split; [exact Hins0|].
  erewrite select_reports_ok; [|reflexivity|exact Hcols].
  cbn [rows app map]. now rewrite Hrep0.
Qed.

Definition yes_fields : fields :=
  {| f_customer_name := lit "Alice"; f_agent_name := lit "Sam";
     f_customer_satisfied := lit "Yes";
     f_company_improvements := lit "No issues reported." |}.

Definition no_fields : fields :=
  {| f_customer_name := lit "Bob"; f_agent_name := lit "Sam";
     f_customer_satisfied := lit "No";
     f_company_improvements := lit "billing" |}.

(** The row the INSERT of the Home page makes of the fields. *)
Definition row_of (i : Z) (f : fields) : row :=
  {| rowid := i;
     cells := new_cells fresh_table
                [ (lit "customer_name", Text (f_customer_name f));
                  (lit "agent_name", Text (f_agent_name f));
                  (lit "customer_satisfied", Text (f_customer_satisfied f));
                  (company_improvements,
                   Text (f_company_improvements f)) ] |}.

Definition two_rows : table :=
  {| columns := columns fresh_table;
     checks := checks fresh_table;
     rows := [row_of 1 yes_fields; row_of 2 no_fields] |}.

Definition two_row_db : db :=
  {| call_reports := Some two_rows; sqlite_sequence := Some 2%Z |}.

Lemma insert_then_list_witness :
  exists d1 old,
    insert_report two_row_db yes_fields = Ok (d1, 3%Z)
    /\ select_reports two_row_db = Ok old
    /\ select_reports d1 = Ok (old ++ [report_of_fields 3 yes_fields])
    /\ last (old ++ [report_of_fields 3 yes_fields])
            (report_of_fields 0 yes_fields)
       = report_of_fields 3 yes_fields
    /\ exists d0 d2,
         clear_database two_row_db = Ok d0
         /\ select_reports d0 = Ok []
         /\ insert_report d0 yes_fields = Ok (d2, 1%Z)
         /\ select_reports d2 = Ok [report_of_fields 1 yes_fields].
Proof.
  apply (insert_then_list two_row_db two_rows yes_fields).
  - reflexivity.
  - vm_compute. reflexivity.
  - reflexivity.
  - vm_compute. reflexivity.
  - vm_compute. reflexivity.
  - split; [repeat constructor; cbn; lia | cbn; lia].
  - cbv. discriminate.
Defined.

End RowFacts.

(** ** What the scripts can make of the database *)

Module Reach.

Import Sqlite SchemaFacts RowFacts.

(** One committed statement of the scripts. *)
Inductive step : db -> db -> Prop :=
| step_create d d' :
    create_database d = Ok d' -> step d d'
| step_update d d' :
    update_database_schema d = Ok d' -> step d d'
| step_insert d f d' i :
    insert_report d f = Ok (d', i) -> step d d'
| step_clear d d' :
    clear_database d = Ok d' -> step d d'.

(** The databases the scripts reach from a missing file. *)
Inductive reachable : db -> Prop :=
| reach_start : reachable empty_db
| reach_step d d' : reachable d -> step d d' -> reachable d'.

Definition increasing (rs : list row) : Prop :=
  StronglySorted (fun a b => (rowid a < rowid b)%Z) rs.

(** What every reachable database keeps: rows in increasing rowid
    order, positive rowids, and a sequence that records the largest
    rowid of the table. *)
Definition well_kept (d : db) : Prop :=
  match call_reports d with
  | None => sqlite_sequence d = None
  | Some t =>
      increasing (rows t)
      /\ Forall (fun r => (1 <= rowid r)%Z) (rows t)
      /\ sqlite_sequence d = largest_rowid (rows t)
  end.

Lemma increasing_app rs r :
  increasing rs -> Forall (fun x => (rowid x < rowid r)%Z) rs ->
  increasing (rs ++ [r]).
Proof.
  unfold increasing. induction 1 as [|x rs Hs IH Hx]; intros Hr.
  - repeat constructor.
  - inversion Hr; subst. cbn [app]. constructor; [now apply IH|].
    apply Forall_app. split; [assumption | now repeat constructor].
Qed.

Lemma new_rowid_above t seq i :
  Forall (fun r => (1 <= rowid r)%Z) (rows t) ->
  new_rowid t seq = Some i ->
  Forall (fun x => (rowid x < i)%Z) (rows t) /\ (1 <= i)%Z.
Proof.
  intros Hpos. unfold new_rowid.
  pose proof (largest_rowid_bound (rows t)) as B.
  destruct (largest_rowid (rows t)) as [m|] eqn:L.
  - destruct ((m =? max_rowid_value) || _)%Z; [discriminate|].
    intros [= <-]. split.
    + eapply Forall_impl; [|exact B]. cbv beta. intros; lia.
    + revert L Hpos B. destruct (rows t) as [|r rs]; [discriminate|].
      intros _ Hpos B. inversion Hpos; inversion B; subst. lia.
  - rewrite B. destruct (_ =? _)%Z; [discriminate|].
    intros [= <-]. split; [constructor | lia].
Qed.

Lemma step_well_kept d d' : well_kept d -> step d d' -> well_kept d'.
Proof.
  intros W Hs. revert W.
  destruct Hs as [d0 d1 H | d0 d1 H | d0 f d1 i H | d0 d1 H];
    unfold well_kept; intros W.
  - unfold create_database in H.
    destruct (call_reports d0) as [t|] eqn:E.
    + injection H as <-. now rewrite E.
    + injection H as <-. cbn. repeat split; try constructor. assumption.
  - unfold update_database_schema in H.
    destruct (negb _).
    + unfold add_column in H.
      destruct (call_reports d0) as [t|] eqn:E; [|discriminate].
      destruct (has_column t company_improvements); [discriminate|].
      injection H as <-. exact W.
    + now injection H as <-.
  - unfold insert_report, insert_row in H.
    destruct (call_reports d0) as [t|] eqn:E; [|discriminate].
    destruct (forallb _ _); [|discriminate].
    destruct (forallb _ _); [|discriminate].
    destruct (new_rowid t (sqlite_sequence d0)) as [k|] eqn:Ek;
      [|discriminate].
    cbv zeta in H.
    destruct (forallb _ _); [|discriminate].
    injection H as <- <-. cbn [call_reports rows sqlite_sequence].
    destruct W as (Winc & Wpos & Wseq).
    destruct (new_rowid_above t _ k Wpos Ek) as [Habove Hone].
    rewrite tree_insert_last by exact Habove.
    split; [now apply increasing_app|]. split.
    + apply Forall_app. split; [assumption | now repeat constructor].
    + symmetry. now apply (largest_rowid_app (rows t)
                             {| rowid := k; cells := _ |}).
  - unfold clear_database in H.
    destruct (call_reports d0) as [t|]; [|discriminate].
    injection H as <-. cbn. repeat split; constructor.
Qed.

Lemma reachable_well_kept d : reachable d -> well_kept d.
Proof.
  induction 1 as [|d d' _ IH Hs]; [reflexivity|].
  exact (step_well_kept d d' IH Hs).
Qed.

(** *** The rowid tree *)

Lemma tree_insert_Forall (P : row -> Prop) r rs :
  P r -> Forall P rs -> Forall P (tree_insert r rs).
Proof.
  intros Hr. induction 1 as [|x rs Hx Hrs IH]; cbn [tree_insert].
  - now repeat constructor.
  - destruct (rowid r <? rowid x)%Z; now repeat constructor.
Qed.

(** A row takes its place by its rowid, wherever that is: the tree
    stays in rowid order. *)
Lemma tree_insert_increasing r rs :
  increasing rs ->
  Forall (fun x => rowid x <> rowid r) rs ->
  increasing (tree_insert r rs).
Proof.
  unfold increasing. induction 1 as [|x rs Hs IH Hx]; intros Hne.
  - repeat constructor.
  - inversion Hne as [|? ? Hxr Hrest]; subst. cbn [tree_insert].
    destruct (Z.ltb_spec (rowid r) (rowid x)) as [Hlt | Hge].
    + constructor; [now constructor|].
      constructor; [exact Hlt|].
      eapply Forall_impl; [|exact Hx]. cbv beta. intros; lia.
    + constructor; [now apply IH|].
      apply tree_insert_Forall; [lia | exact Hx].
Qed.

(** The rowid of a new row is above every rowid in the table. *)
Lemma new_rowid_fresh t seq i :
  new_rowid t seq = Some i ->
  Forall (fun x => (rowid x < i)%Z) (rows t).
Proof.
  unfold new_rowid.
  pose proof (largest_rowid_bound (rows t)) as B.
  destruct (largest_rowid (rows t)) as [m|].
  - destruct ((m =? max_rowid_value) || _)%Z; [discriminate|].
    intros [= <-]. eapply Forall_impl; [|exact B]. cbv beta. intros; lia.
  - rewrite B. intros _. constructor.
Qed.

(** Every INSERT, whatever columns it names, keeps the rowid order. *)
Lemma insert_row_increasing d t named d' i :
  call_reports d = Some t -> increasing (rows t) ->
  insert_row d named = Ok (d', i) ->
  exists t', call_reports d' = Some t'
             /\ increasing (rows t')
             /\ List.length (rows t') = S (List.length (rows t)).
Proof.
  intros Ht Hinc. unfold insert_row. rewrite Ht.
  destruct (forallb _ _); [|discriminate].
  destruct (forallb _ _); [|discriminate].
  destruct (new_rowid t (sqlite_sequence d)) as [k|] eqn:Ek; [|discriminate].
  cbv zeta. destruct (forallb _ _); [|discriminate].
  intros [= <- <-]. eexists. split; [reflexivity|]. cbn [rows].
  pose proof (new_rowid_fresh t _ k Ek) as Hk.
  rewrite tree_insert_last by exact Hk. split.
  - now apply increasing_app.
  - rewrite length_app. cbn [List.length]. lia.
Qed.

Definition ids (l : list report) : list Z := map r_id l.

(** C8.  The table keeps its rows in the rowid tree, in rowid order,
    whatever the schema and however many they are.  In every such
    state the SELECT of the Reports page, when it returns, returns one
    tuple for each stored row, all of them, with the ids strictly
    increasing; it does return when the table has the five columns;
    and every INSERT, of any script, leaves the tree in rowid order
    with one row more. *)
Theorem reports_in_id_order d t :
  call_reports d = Some t -> increasing (rows t) ->
  (forall l, select_reports d = Ok l ->
             StronglySorted Z.lt (ids l)
             /\ l = map report_of_row (rows t)
             /\ ids l = map rowid (rows t))
  /\ (forallb (has_column t) report_columns = true ->
      exists l, select_reports d = Ok l)
  /\ (forall named d' i,
        insert_row d named = Ok (d', i) ->
        exists t', call_reports d' = Some t'
                   /\ increasing (rows t')
                   /\ List.length (rows t') = S (List.length (rows t))).
Proof.
  intros Ht Hinc. split; [|split].
  - intros l Hs. unfold select_reports in Hs. rewrite Ht in Hs.
    destruct (forallb _ _); [|discriminate].
    injection Hs as <-.
    assert (E : ids (map report_of_row (rows t)) = map rowid (rows t)).
    { unfold ids. rewrite map_map. reflexivity. }
    split; [|split; [reflexivity | exact E]].
    rewrite E. clear E. unfold increasing in Hinc.
    induction Hinc as [|x rs Hs IH Hx]; [constructor|].
    cbn [map]. constructor; [exact IH|].
    rewrite Forall_map. exact Hx.
  - intros Hcols. exists (map report_of_row (rows t)).
    exact (select_reports_ok d t Ht Hcols).
  - intros named d' i. now apply insert_row_increasing.
Qed.

End Reach.

(** ** The order of the Home page *)

Module PageFacts.

Import Names Sqlite Page Best.

Lemma show_all_run ws w :
  show_all ws w
  = (Ok tt, {| database := database w;
               trace := trace w ++ map Shown ws |}).
Proof.
  revert w. induction ws as [|x ws IH]; intros [d tr].
  - cbn. now rewrite app_nil_r.
  - cbn [show_all]. unfold bind, emit. cbn [database trace].
    rewrite IH. cbn [database trace map]. now rewrite <- app_assoc.
Qed.

Lemma no_commit_shown i ws : ~ In (Committed i) (map Shown ws).
Proof. intros H. apply in_map_iff in H as (x & Hx & _). discriminate. Qed.

(** The fields the page stores, from the three responses it uses. *)
Definition stored_fields (extracted : names * list widget)
    (satisfaction_result improvements_result : str) : fields :=
  {| f_customer_name := customer_name (fst extracted);
     f_agent_name := agent_name (fst extracted);
     f_customer_satisfied := extract_text satisfaction_result;
     f_company_improvements := extract_text improvements_result |}.

(** What a run that commits has been through. *)
Definition commits {I : interpreter} (c : collaborators) (up : upload)
    (w w' : world) (evs : list event) : Prop :=
  exists t summary n extracted sat imp d' i before after,
    transcribe c up = Ok t
    /\ complete c (build_prompt Summary t) = Ok summary
    /\ complete c (build_prompt NameExtraction t) = Ok n
    /\ extract_names n = Ok extracted
    /\ complete c (build_prompt Satisfaction t) = Ok sat
    /\ complete c (build_prompt Improvements t) = Ok imp
    /\ insert_report (database w) (stored_fields extracted sat imp)
       = Ok (d', i)
    /\ database w' = d'
    /\ evs = before ++ Committed i :: after
    /\ In (Answered Summary) before
    /\ In (Answered NameExtraction) before
    /\ In (Answered Satisfaction) before
    /\ In (Answered Improvements) before
    /\ ~ In (Asked ResponseCritique) before
    /\ In (Asked ResponseCritique) after
    /\ (forall j, ~ In (Committed j) before)
    /\ (forall j, ~ In (Committed j) after).

Ltac no_commit :=
  intros ? ?;
  repeat match goal with
         | H : In _ (_ ++ _) |- _ => apply in_app_or in H as [H | H]
         | H : In _ (_ :: _) |- _ => destruct H as [H | H]; [discriminate H|]
         | H : In _ [] |- _ => destruct H
         | H : In (Committed _) (map Shown _) |- _ =>
             exact (no_commit_shown _ _ H)
         end.

(** C1, as amended.  A run of the Home page either leaves the database
    as it was and commits nothing, or it has transcribed the call, got
    the answers to the summary, name, satisfaction and improvement
    prompts, and committed the one row made of them; the critique is
    asked only after that commit. *)
Theorem home_commits_after_four_answers {I : interpreter} c up w :
  exists evs,
    trace (snd (home c up w)) = trace w ++ evs
    /\ ((database (snd (home c up w)) = database w
         /\ forall i, ~ In (Committed i) evs)
        \/ commits c up w (snd (home c up w)) evs).
Proof.
  destruct w as [d tr].
  unfold home, ask, bind, emit, lift, ret, on_database, Ok.
  cbv beta iota zeta. cbn [database trace].
  destruct (transcribe c up) as [e|t] eqn:Et.
  { cbn [snd trace database]. rewrite <- ?app_assoc. eexists.
    split; [reflexivity|]. left. split; [reflexivity | no_commit]. }
  cbv beta iota zeta. cbn [database trace].
  destruct (complete c (build_prompt Summary t)) as [e|summary] eqn:Es.
  { cbn [snd trace database]. rewrite <- ?app_assoc. eexists.
    split; [reflexivity|]. left. split; [reflexivity | no_commit]. }
  cbv beta iota zeta. cbn [database trace].
  destruct (complete c (build_prompt NameExtraction t)) as [e|n] eqn:En.
  { cbn [snd trace database]. rewrite <- ?app_assoc. eexists.
    split; [reflexivity|]. left. split; [reflexivity | no_commit]. }
  cbv beta iota zeta. cbn [database trace].
  destruct (extract_names n) as [e|extracted] eqn:Ex.
  { cbn [snd trace database]. rewrite <- ?app_assoc. eexists.
    split; [reflexivity|]. left. split; [reflexivity | no_commit]. }
  cbv beta iota zeta. rewrite show_all_run. cbn [database trace].
  destruct (complete c (build_prompt Satisfaction t)) as [e|sat] eqn:Esat.
  { cbn [snd trace database]. rewrite <- ?app_assoc. eexists.
    split; [reflexivity|]. left. split; [reflexivity | no_commit]. }
  cbv beta iota zeta. cbn [database trace].
  destruct (complete c (build_prompt Improvements t)) as [e|imp] eqn:Ei.
  { cbn [snd trace database]. rewrite <- ?app_assoc. eexists.
    split; [reflexivity|]. left. split; [reflexivity | no_commit]. }
  cbv beta iota zeta. cbn [database trace].
  fold (stored_fields extracted sat imp).
  destruct (insert_report d (stored_fields extracted sat imp))
    as [e|[d' i]] eqn:Eins.
  { cbn [snd trace database]. rewrite <- ?app_assoc. eexists.
    split; [reflexivity|]. left. split; [reflexivity | no_commit]. }
  cbv beta iota zeta. cbn [database trace].
  destruct (complete c (build_prompt ResponseCritique t)) as [e|alt] eqn:Ea;
    cbn [snd trace database]; rewrite <- !app_assoc; eexists;
    (split; [reflexivity|]); right;
    exists t, summary, n, extracted, sat, imp, d', i;
    eexists; eexists;
    (split; [exact Et|]); (split; [exact Es|]); (split; [exact En|]);
    (split; [exact Ex|]); (split; [exact Esat|]); (split; [exact Ei|]);
    (split; [exact Eins|]); (split; [reflexivity|]).
  - split.
    { instantiate (2 :=
        [Saved (file_name up); Shown StSuccess; Transcribed;
         Shown (StTranscription t); Asked Summary; Answered Summary;
         Shown (StSummary summary); Asked NameExtraction;
         Answered NameExtraction] ++ map Shown (snd extracted)
        ++ [Asked Satisfaction; Answered Satisfaction; Asked Improvements;
            Answered Improvements]).
      cbn [app]. rewrite <- !app_assoc. reflexivity. }
    repeat split;
      try (apply in_or_app; left; cbn [In]; tauto);
      try (apply in_or_app; right; apply in_or_app; right; cbn [In]; tauto);
      try (cbn [In]; tauto);
      try no_commit.
    intros H.
    repeat match goal with
           | H : In _ (_ ++ _) |- _ => apply in_app_or in H as [H | H]
           | H : In _ (_ :: _) |- _ => destruct H as [H | H]; [discriminate H|]
           | H : In _ [] |- _ => destruct H
           | H : In _ (map Shown _) |- _ =>
               apply in_map_iff in H as (? & ? & _); discriminate
           end.
  - split.
    { instantiate (2 :=
        [Saved (file_name up); Shown StSuccess; Transcribed;
         Shown (StTranscription t); Asked Summary; Answered Summary;
         Shown (StSummary summary); Asked NameExtraction;
         Answered NameExtraction] ++ map Shown (snd extracted)
        ++ [Asked Satisfaction; Answered Satisfaction; Asked Improvements;
            Answered Improvements]).
      cbn [app]. rewrite <- !app_assoc. reflexivity. }
    repeat split;
      try (apply in_or_app; left; cbn [In]; tauto);
      try (apply in_or_app; right; apply in_or_app; right; cbn [In]; tauto);
      try (cbn [In]; tauto);
      try no_commit.
    intros H.
    repeat match goal with
           | H : In _ (_ ++ _) |- _ => apply in_app_or in H as [H | H]
           | H : In _ (_ :: _) |- _ => destruct H as [H | H]; [discriminate H|]
           | H : In _ [] |- _ => destruct H
           | H : In _ (map Shown _) |- _ =>
               apply in_map_iff in H as (? & ? & _); discriminate
           end.
Qed.

End PageFacts.

(** ** A run whose last call fails *)

Module Scenario.

Import Names Sqlite Page Best RowFacts Reach.

Definition sample_transcript : str :=
  lit "Agent Sam helped. Customer Alice was happy.".

Definition sample_upload : upload :=
  {| file_name := lit "call.wav"; file_bytes := [] |}.

(** Collaborators that answer every prompt but the critique. *)
Definition failing_critique : collaborators :=
  {| transcribe := fun _ => Ok sample_transcript;
     complete := fun prompt =>
       if str_eqb prompt (build_prompt ResponseCritique sample_transcript)
       then Raise CollaboratorError
       else if str_eqb prompt (build_prompt Satisfaction sample_transcript)
       then Ok (lit "Yes")
       else if str_eqb prompt (build_prompt NameExtraction sample_transcript)
       then Ok (lit "Sure! " ++ Render.render (lit "Sam") (lit "Alice"))
       else Ok (lit "No issues reported.") |}.

Definition ready_world : world := {| database := ready_db; trace := [] |}.

Definition sams_report : report :=
  {| r_id := 1;
     r_customer_name := Text (lit "Alice");
     r_agent_name := Text (lit "Sam");
     r_customer_satisfied := Text (lit "Yes");
     r_company_improvements := Text (lit "No issues reported.") |}.

(** C1, as stated, fails: the critique call raises, the run ends with
    that exception, and the row is in the table all the same. *)
Lemma critique_failure_counterexample :
  complete failing_critique
    (build_prompt ResponseCritique sample_transcript)
  = Raise CollaboratorError
  /\ fst (home (I := cpython) failing_critique sample_upload ready_world)
     = Raise CollaboratorError
  /\ select_reports (database ready_world) = Ok []
  /\ select_reports
       (database (snd (home (I := cpython) failing_critique sample_upload
                         ready_world)))
     = Ok [sams_report]
  /\ database (snd (home (I := cpython) failing_critique sample_upload
                      ready_world))
     <> database ready_world.
Proof.
  repeat split; try (vm_compute; reflexivity).
  vm_compute. discriminate.
Qed.

(** The database that run leaves. *)
Definition one_row_db : db :=
  database (snd (home (I := cpython) failing_critique sample_upload
                   ready_world)).

Lemma ready_db_reachable : reachable ready_db.
Proof.
  apply (reach_step empty_db ready_db reach_start).
  apply step_create. reflexivity.
Defined.

Lemma one_row_db_reachable : reachable one_row_db.
Proof.
  apply (reach_step ready_db one_row_db ready_db_reachable).
  apply (step_insert ready_db yes_fields one_row_db 1).
  vm_compute. reflexivity.
Defined.

(** Three rows, put in the tree in the order 1, 3, 2. *)
Definition three_rows : table :=
  {| columns := columns fresh_table;
     checks := checks fresh_table;
     rows := tree_insert (row_of 2 no_fields)
               (tree_insert (row_of 3 yes_fields)
                  (tree_insert (row_of 1 yes_fields) [])) |}.

Definition three_row_db : db :=
  {| call_reports := Some three_rows; sqlite_sequence := Some 3%Z |}.

Lemma reports_in_id_order_witness :
  (select_reports three_row_db
   = Ok [ report_of_fields 1 yes_fields; report_of_fields 2 no_fields;
          report_of_fields 3 yes_fields ])
  /\ (forall l, select_reports three_row_db = Ok l ->
                StronglySorted Z.lt (ids l)
                /\ l = map report_of_row (rows three_rows)
                /\ ids l = map rowid (rows three_rows))
  /\ (forallb (has_column three_rows) report_columns = true ->
      exists l, select_reports three_row_db = Ok l)
  /\ (forall named d' i,
        insert_row three_row_db named = Ok (d', i) ->
        exists t', call_reports d' = Some t'
                   /\ increasing (rows t')
                   /\ List.length (rows t')
                      = S (List.length (rows three_rows))).
Proof.
  split; [vm_compute; reflexivity|].
  apply (reports_in_id_order three_row_db three_rows); [reflexivity|].
  unfold increasing. vm_compute.
  repeat (constructor; try reflexivity).
Defined.

End Scenario.

(** * Further properties of the scripts *)

(** ** The block search *)

Module BlockFacts.

Import Re ReFacts.

Lemma lazy_dot_close_some mid post :
  lazy_dot_close (mid ++ rbrace :: post) <> None.
Proof.
  induction mid as [|c mid IH]; cbn [app lazy_dot_close].
  - rewrite N.eqb_refl. discriminate.
  - destruct (c =? rbrace)%N; [discriminate|].
    destruct (lazy_dot_close (mid ++ rbrace :: post)); [discriminate|].
    now destruct IH.
Qed.

(** The search finds a block in every text that has an opening brace
    with a closing brace somewhere after it, and only in those; the
    block it returns opens with a brace, closes with the first closing
    brace after it and holds no other closing brace. *)
Theorem search_finds_block s :
  (exists pre mid post, s = pre ++ lbrace :: mid ++ rbrace :: post)
  <-> exists block body,
        search s = Some block
        /\ block = lbrace :: body ++ [rbrace]
        /\ ~ In rbrace body.
Proof.
  split.
  - intros (pre & mid & post & ->).
    assert (H : search (pre ++ lbrace :: mid ++ rbrace :: post) <> None).
    { induction pre as [|c pre IH].
      - cbn [app]. rewrite search_cons. unfold match_at.
        rewrite N.eqb_refl.
        pose proof (lazy_dot_close_some mid post) as L.
        destruct (lazy_dot_close (mid ++ rbrace :: post)); [discriminate|].
        now destruct L.
      - rewrite <- app_comm_cons, search_cons.
        destruct (match_at _); [discriminate | exact IH]. }
    destruct (search (pre ++ lbrace :: mid ++ rbrace :: post)) as [m|] eqn:E;
      [|now destruct H].
    destruct (search_shape _ _ E) as (pre' & body & post' & _ & -> & Hno).
    exists (lbrace :: body ++ [rbrace]), body. now repeat split.
  - intros (block & body & Hs & _ & _).
    destruct (search_shape _ _ Hs) as (pre & body' & post & -> & _ & _).
    now exists pre, body', post.
Qed.

(** The block is where the text has it: what comes before it holds no
    block of its own. *)
Theorem search_leftmost s block :
  search s = Some block ->
  exists pre post, s = pre ++ block ++ post /\ search pre = None.
Proof.
  revert block. induction s as [|c s IH]; intros block; [discriminate|].
  rewrite search_cons. destruct (match_at (c :: s)) as [m|] eqn:E.
  - intros [= <-]. unfold match_at in E.
    destruct (c =? lbrace)%N; [|discriminate].
    destruct (lazy_dot_close s) as [k|] eqn:Ek; [|discriminate].
    injection E as <-.
    destruct (lazy_dot_close_shape _ _ Ek) as (body & post & -> & -> & _).
    exists [], post. split; [|reflexivity].
    cbn [app]. now rewrite <- app_assoc.
  - intros H. destruct (IH _ H) as (pre & post & -> & Hpre).
    exists (c :: pre), post. split; [reflexivity|].
    rewrite search_cons.
    assert (M : match_at (c :: pre) = None).
    { unfold match_at in *. destruct (c =? lbrace)%N; [|reflexivity].
      destruct (lazy_dot_close (pre ++ block ++ post)) eqn:L;
        [discriminate|].
      destruct (lazy_dot_close pre) as [k|] eqn:K; [|reflexivity].
      destruct (lazy_dot_close_shape _ _ K) as (b & q & -> & _ & _).
      rewrite <- app_assoc in L. cbn [app] in L.
      now destruct (lazy_dot_close_some b (q ++ block ++ post)). }
    now rewrite M.
Qed.

Lemma search_leftmost_witness :
  exists pre post,
    lit "a {b} {c}" = pre ++ lit "{b}" ++ post /\ search pre = None.
Proof.
  apply (search_leftmost (lit "a {b} {c}") (lit "{b}")). reflexivity.
Defined.

End BlockFacts.

(** ** Trimming *)

Module StripFacts.

Import Names.

Definition all_space (s : str) : bool := forallb isspace s.

(** No whitespace at either end. *)
Definition trimmed (s : str) : bool :=
  match s with
  | [] => true
  | c :: _ => negb (isspace c)
  end
  && match rev s with
     | [] => true
     | c :: _ => negb (isspace c)
     end.

Lemma lstrip_spaces pre s :
  all_space pre = true -> lstrip (pre ++ s) = lstrip s.
Proof.
  unfold all_space. induction pre as [|c pre IH]; intros H; [reflexivity|].
  cbn [forallb] in H. apply andb_true_iff in H as [Hc Hp].
  cbn [app lstrip]. rewrite Hc. now apply IH.
Qed.

Lemma lstrip_head s :
  match s with
  | [] => true
  | c :: _ => negb (isspace c)
  end = true -> lstrip s = s.
Proof.
  destruct s as [|c s]; [reflexivity|]. cbn [lstrip]. intros H.
  apply negb_true_iff in H. now rewrite H.
Qed.

Lemma lstrip_result s :
  match lstrip s with
  | [] => true
  | c :: _ => negb (isspace c)
  end = true.
Proof.
  induction s as [|c s IH]; [reflexivity|]. cbn [lstrip].
  destruct (isspace c) eqn:E; [exact IH|]. now rewrite E.
Qed.

Lemma lstrip_split s :
  exists sp, s = sp ++ lstrip s /\ all_space sp = true.
Proof.
  induction s as [|c s (sp & Hs & Hsp)]; [now exists []|].
  cbn [lstrip]. destruct (isspace c) eqn:E.
  - exists (c :: sp). split; [cbn [app]; now f_equal|].
    unfold all_space in *. cbn [forallb]. now rewrite E.
  - now exists [].
Qed.

Lemma all_space_rev s : all_space (rev s) = all_space s.
Proof.
  unfold all_space. induction s as [|c s IH]; [reflexivity|].
  cbn [rev forallb]. rewrite forallb_app, IH. cbn [forallb].
  now rewrite andb_true_r, andb_comm.
Qed.

Lemma strip_around pre s post :
  all_space pre = true -> all_space post = true -> trimmed s = true ->
  extract_text (pre ++ s ++ post) = s.
Proof.
  intros Hpre Hpost Ht. unfold extract_text, strip, rstrip.
  apply andb_true_iff in Ht as [Hh Hl].
  rewrite (lstrip_spaces pre _ Hpre).
  destruct s as [|c s].
  - cbn [app]. rewrite <- (app_nil_r post), (lstrip_spaces post [] Hpost).
    reflexivity.
  - assert (E : lstrip ((c :: s) ++ post) = (c :: s) ++ post)
      by (apply lstrip_head; exact Hh).
    rewrite E, rev_app_distr, lstrip_spaces
      by (now rewrite all_space_rev).
    rewrite (lstrip_head _ Hl). apply rev_involutive.
Qed.

(** [.strip()] takes the whitespace around a text away and leaves the
    text: what the model answers as [" Yes\n"] is stored as ["Yes"]. *)
Theorem strip_surrounded pre s post :
  all_space pre = true -> all_space post = true -> trimmed s = true ->
  extract_text (pre ++ s ++ post) = s.
Proof.
  exact (strip_around pre s post).
Qed.

Lemma strip_surrounded_witness :
  extract_text (lit " " ++ lit "Yes" ++ [10%N]) = lit "Yes".
Proof.
  apply (strip_surrounded (lit " ") (lit "Yes") [10%N]); reflexivity.
Defined.

(** What [.strip()] returns has no whitespace at either end, so
    trimming it again changes nothing. *)
Theorem strip_trimmed s :
  trimmed (extract_text s) = true
  /\ extract_text (extract_text s) = extract_text s.
Proof.
  assert (T : trimmed (extract_text s) = true).
  { unfold extract_text, strip, rstrip, trimmed.
    set (u := lstrip s).
    destruct (lstrip_split (rev u)) as (sp & Hs & Hsp).
    set (v := lstrip (rev u)) in *.
    rewrite rev_involutive. apply andb_true_iff. split.
    - assert (Hu : u = rev v ++ rev sp).
      { rewrite <- rev_app_distr, <- Hs. symmetry. apply rev_involutive. }
      pose proof (lstrip_result s) as Hh. fold u in Hh. rewrite Hu in Hh.
      destruct (rev v) as [|c r]; [reflexivity | exact Hh].
    - apply lstrip_result. }
  split; [exact T|].
  rewrite <- (app_nil_r (extract_text s)) at 1.
  exact (strip_around [] (extract_text s) [] eq_refl eq_refl T).
Qed.

End StripFacts.

(** ** When the name extraction raises *)

Module RaiseFacts.

Import Re Json Names NameFacts JsonFacts.

(** The test for the byte order mark, as a comparison. *)
Lemma loads_unfold {I : interpreter} s :
  loads s
  = match s with
    | c :: _ =>
        if (c =? 65279)%N then Raise JSONDecodeError
        else
          match scan_once (fuel_for s) (S nesting_room) (skip_ws s) with
          | None => Raise JSONDecodeError
          | Some r =>
              '(v, rest) <- r ;;
              match skip_ws rest with
              | [] => Ok v
              | _ :: _ => Raise JSONDecodeError
              end
          end
    | [] =>
        match scan_once (fuel_for s) (S nesting_room) (skip_ws s) with
        | None => Raise JSONDecodeError
        | Some r =>
            '(v, rest) <- r ;;
            match skip_ws rest with
            | [] => Ok v
            | _ :: _ => Raise JSONDecodeError
            end
        end
    end.
Proof.
  destruct s as [|c s]; [reflexivity|].
  unfold loads. destruct c as [|p]; [reflexivity|].
  repeat (destruct p as [p|p|]; try reflexivity).
Qed.

(** A text that opens with a brace parses to a dictionary or not at
    all. *)
Lemma loads_block_object {I : interpreter} s v :
  loads (lbrace :: s) = Ok v -> exists kv, v = JObject kv.
Proof.
  rewrite loads_unfold. change (lbrace =? 65279)%N with false.
  cbv beta iota. change (skip_ws (lbrace :: s)) with (lbrace :: s).
  assert (F : exists n, fuel_for (lbrace :: s) = S n).
  { unfold fuel_for. cbn [List.length]. exists (2 * S (List.length s) + 1).
    lia. }
  destruct F as [n ->]. cbn [scan_once].
  change (lbrace =? quote)%N with false.
  change (lbrace =? lbrace)%N with true. cbv beta iota.
  unfold rbind, Ok, Raise. intros H.
  repeat break_in H; injection H as <-.
  match goal with
  | E : _ = Some (inr (_, _)) |- _ =>
      repeat break_in E; injection E as <- <-; eauto
  end.
Qed.

Lemma field_raises v key e : field v key = inl e -> e = AttributeError.
Proof.
  unfold field, get, strip_method, rbind, Ok, Raise.
  destruct v as [| | | | |kv]; try (now intros [= <-]).
  destruct (dict_lookup kv key) as [[]|]; cbv beta iota;
    intros H; first [discriminate H | now injection H as <-].
Qed.

Lemma object_result kv :
  let r := match field (JObject kv) (lit "agent_name") with
           | inl e => Raise e
           | inr a =>
               match field (JObject kv) (lit "customer_name") with
               | inl e => Raise e
               | inr c => Ok ({| agent_name := a; customer_name := c |},
                              @nil widget)
               end
           end in
  (forall e, r = Raise e -> e = AttributeError)
  /\ (r = Raise AttributeError
      <-> resolved kv (lit "agent_name") = None
          \/ resolved kv (lit "customer_name") = None).
Proof.
  unfold resolved, field, get, strip_method, rbind, Ok, Raise.
  destruct (dict_lookup kv (lit "agent_name")) as [[]|];
    destruct (dict_lookup kv (lit "customer_name")) as [[]|];
    cbv beta iota zeta;
    (split;
     [ intros e H; first [discriminate H | now injection H as <-]
     | split;
       [ intros H;
         first [discriminate H | left; reflexivity | right; reflexivity]
       | intros [H | H]; first [discriminate H | reflexivity] ] ]).
Qed.

(** What ends the name extraction of [best.py] with an exception, and
    with which.  The first block makes [json.loads] raise [ValueError]
    (an integer of too many digits) or [RecursionError] (containers
    nested too deep), which the handler is not for; or the block
    parses and one of the two names is there without being text, and
    [.strip()] raises [AttributeError].  In every other case names
    come back. *)
Theorem extract_names_raises {I : interpreter} content :
  (forall e, extract_names content = Raise e ->
             e = ValueError \/ e = RecursionError \/ e = AttributeError)
  /\ (forall e, e = ValueError \/ e = RecursionError ->
        (extract_names content = Raise e
         <-> exists block, search content = Some block
                           /\ loads block = Raise e))
  /\ (extract_names content = Raise AttributeError
      <-> exists block kv,
            search content = Some block
            /\ loads block = Ok (JObject kv)
            /\ (resolved kv (lit "agent_name") = None
                \/ resolved kv (lit "customer_name") = None)).
Proof.
  destruct (search content) as [block|] eqn:Es.
  - destruct (ReFacts.search_shape _ _ Es)
      as (pre & body & post & _ & Hb & _).
    destruct (loads block) as [e0|v] eqn:El.
    + destruct (JsonErrors.loads_raises _ _ El) as [-> | He0].
      * rewrite (extract_names_bad_block _ _ Es El).
        split; [intros e H; discriminate|]. split.
        -- intros e He. split; [discriminate|].
           intros (b & Hs & Hl). injection Hs as <-.
           rewrite El in Hl. injection Hl as <-.
           destruct He; discriminate.
        -- split; [discriminate|].
           intros (b & kv & Hs & Hl & _).
           injection Hs as <-. rewrite El in Hl. discriminate.
      * assert (Hne : e0 <> JSONDecodeError)
          by (destruct He0; subst; discriminate).
        rewrite (extract_names_decoder_raises _ _ _ Es El Hne).
        split; [|split].
        -- intros e [= <-]. destruct He0; auto.
        -- intros e He. split.
           ++ intros [= <-]. now exists block.
           ++ intros (b & Hs & Hl). injection Hs as <-.
              rewrite El in Hl. now injection Hl as <-.
        -- split.
           ++ intros [= ->]. destruct He0; discriminate.
           ++ intros (b & kv & Hs & Hl & _).
              injection Hs as <-. rewrite El in Hl. discriminate.
    + assert (Hv : exists kv, v = JObject kv).
      { rewrite Hb in El. exact (loads_block_object _ _ El). }
      destruct Hv as [kv ->].
      rewrite (extract_names_object _ _ _ Es El).
      destruct (object_result kv) as [R1 R2]. cbv zeta in R1, R2.
      split; [|split].
      * intros e H. right. right. now apply R1.
      * intros e He. split.
        -- intros H. apply R1 in H. subst. destruct He; discriminate.
        -- intros (b & Hs & Hl). injection Hs as <-.
           rewrite El in Hl. discriminate.
      * rewrite R2. split.
        -- intros H. now exists block, kv.
        -- intros (b & kv' & Hs & Hl & Hr).
           injection Hs as <-. rewrite El in Hl. now injection Hl as <-.
  - rewrite (extract_names_no_block _ Es). split; [|split].
    + intros e H. discriminate.
    + intros e _. split; [discriminate|].
      intros (b & Hs & _). discriminate.
    + split; [discriminate|]. intros (b & kv & Hs & _). discriminate.
Qed.

(** *** Replies that are JSON and end the run *)

(** [{"n": [[...]]}] with [n] arrays one inside the other. *)
Definition deep_reply (n : nat) : str :=
  lit "{" ++ Render.dq ++ lit "n" ++ Render.dq ++ lit ": "
  ++ repeat lbracket n ++ repeat rbracket n ++ lit "}".

(** [{"n": 11...1}] with [n] digits. *)
Definition long_integer_reply (n : nat) : str :=
  lit "{" ++ Render.dq ++ lit "n" ++ Render.dq ++ lit ": "
  ++ repeat 49%N n ++ lit "}".

(** One array more than the guard has room for. *)
Lemma deep_arrays {I : interpreter} room :
  forall fuel rest,
    2 * room + 1 <= fuel ->
    scan_once fuel room (repeat lbracket (S room) ++ rest)
    = Some (Raise RecursionError).
Proof.
  induction room as [|r IH]; intros fuel rest Hf.
  - destruct fuel as [|f]; [lia|]. reflexivity.
  - destruct fuel as [|[|f]]; try lia.
    change (repeat lbracket (S (S r)) ++ rest)
      with (lbracket :: repeat lbracket (S r) ++ rest).
    cbn [scan_once].
    change (lbracket =? quote)%N with false.
    change (lbracket =? lbrace)%N with false.
    change (lbracket =? lbracket)%N with true. cbv beta iota.
    change (skip_ws (repeat lbracket (S r) ++ rest))
      with (lbracket :: repeat lbracket r ++ rest). cbv beta iota.
    change (lbracket =? rbracket)%N with false. cbv beta iota.
    cbn [array_items].
    change (lbracket :: repeat lbracket r ++ rest)
      with (repeat lbracket (S r) ++ rest).
    rewrite (IH f rest) by lia. reflexivity.
Qed.

Lemma search_whole_block body :
  has_char rbrace body = false ->
  search (lbrace :: body ++ [rbrace]) = Some (lbrace :: body ++ [rbrace]).
Proof.
  intros H.
  pose proof (ReFacts.search_first_block [] body []
                (fun F => F) (has_char_false _ _ H)) as E.
  exact E.
Qed.

Lemma has_char_repeat c d n :
  (c =? d)%N = false -> has_char c (repeat d n) = false.
Proof.
  intros H. induction n as [|n IH]; [reflexivity|].
  cbn [repeat has_char existsb]. unfold has_char in IH. now rewrite H, IH.
Qed.

Lemma loads_deep_reply {I : interpreter} :
  loads (deep_reply (S nesting_room)) = Raise RecursionError.
Proof.
  rewrite loads_unfold. unfold deep_reply.
  set (n := S nesting_room).
  set (tail := repeat rbracket n ++ lit "}").
  change (lit "{" ++ Render.dq ++ lit "n" ++ Render.dq ++ lit ": "
          ++ repeat lbracket n ++ tail)
    with (lbrace :: quote :: 110%N :: quote :: colon :: 32%N
          :: (repeat lbracket n ++ tail)).
  change (lbrace =? 65279)%N with false. cbv beta iota.
  match goal with
  | |- context [fuel_for ?s] =>
      assert (F : exists f, fuel_for s = S (S (S f))
                            /\ 2 * nesting_room + 1 <= f)
  end.
  { unfold fuel_for. cbn [List.length]. rewrite length_app, repeat_length.
    eexists. split; [cbn [Nat.mul Nat.add]; reflexivity|]. unfold n. lia. }
  destruct F as (f & -> & Hf). unfold n in *. clear n.
  set (n := S nesting_room) in tail.
  set (deep := repeat lbracket (S nesting_room) ++ tail).
  change (skip_ws (lbrace :: quote :: 110%N :: quote :: colon :: 32%N
                   :: deep))
    with (lbrace :: quote :: 110%N :: quote :: colon :: 32%N :: deep).
  assert (V : scan_once (S f) nesting_room deep
              = Some (Raise RecursionError))
    by (apply deep_arrays; lia).
  assert (O : object_members (S (S f)) nesting_room
                (110%N :: quote :: colon :: 32%N :: deep)
              = Some (Raise RecursionError)).
  { cbn [object_members].
    change (scanstring (110%N :: quote :: colon :: 32%N :: deep))
      with (@inr exn _ ([110%N], colon :: 32%N :: deep)).
    cbv beta iota.
    change (skip_ws (colon :: 32%N :: deep)) with (colon :: 32%N :: deep).
    cbv beta iota.
    change (colon =? colon)%N with true. cbv beta iota.
    change (skip_ws (32%N :: deep)) with deep.
    fold scan_once. rewrite V. reflexivity. }
  change (scan_once (S (S (S f))) (S nesting_room)
            (lbrace :: quote :: 110%N :: quote :: colon :: 32%N :: deep))
    with (match object_members (S (S f)) nesting_room
                  (110%N :: quote :: colon :: 32%N :: deep) with
          | Some r => Some ('(kv, r') <- r ;; Ok (JObject kv, r'))
          | None => None
          end).
  rewrite O. reflexivity.
Qed.

(** A reply that is JSON, with one array more than the guard has room
    for: [json.loads] raises [RecursionError], the handler is not for
    it, and the extraction ends the run.  So it is in every
    interpreter, whatever its room. *)
Theorem extract_names_deep_reply {I : interpreter} :
  extract_names (deep_reply (S nesting_room)) = Raise RecursionError
  /\ extract_names_main (deep_reply (S nesting_room))
     = Raise RecursionError.
Proof.
  split.
  - apply (extract_names_decoder_raises _ (deep_reply (S nesting_room)));
      [| exact loads_deep_reply | discriminate].
    unfold deep_reply.
    change (lit "{" ++ Render.dq ++ lit "n" ++ Render.dq ++ lit ": "
            ++ repeat lbracket (S nesting_room)
            ++ repeat rbracket (S nesting_room) ++ lit "}")
      with (lbrace :: (quote :: 110%N :: quote :: colon :: 32%N
                       :: (repeat lbracket (S nesting_room)
                           ++ repeat rbracket (S nesting_room)
                           ++ [rbrace]))).
    rewrite (app_assoc (repeat lbracket _)).
    change (quote :: 110%N :: quote :: colon :: 32%N
            :: ((repeat lbracket (S nesting_room)
                 ++ repeat rbracket (S nesting_room)) ++ [rbrace]))
      with ((quote :: 110%N :: quote :: colon :: 32%N
             :: (repeat lbracket (S nesting_room)
                 ++ repeat rbracket (S nesting_room))) ++ [rbrace]).
    apply search_whole_block.
    unfold has_char. cbn [existsb].
    change (rbrace =? quote)%N with false.
    change (rbrace =? 110)%N with false.
    change (rbrace =? colon)%N with false.
    change (rbrace =? 32)%N with false. cbn [orb].
    rewrite existsb_app.
    change (has_char rbrace (repeat lbracket (S nesting_room))
            || has_char rbrace (repeat rbracket (S nesting_room)) = false).
    now rewrite !has_char_repeat.
  - unfold extract_names_main, try_body_main.
    now rewrite loads_deep_reply.
Qed.

Lemma span_digits_ones n rest :
  span_digits (repeat 49%N n ++ rbrace :: rest)
  = (repeat 49%N n, rbrace :: rest).
Proof.
  induction n as [|n IH]; [reflexivity|].
  cbn [repeat app span_digits].
  change (is_digit 49%N) with true. cbv beta iota. now rewrite IH.
Qed.

Lemma filter_digits_ones n :
  filter is_digit (repeat 49%N n) = repeat 49%N n.
Proof.
  induction n as [|n IH]; [reflexivity|].
  cbn [repeat filter]. change (is_digit 49%N) with true. cbv beta iota.
  now rewrite IH.
Qed.

(** An integer of more digits than the limit, as a value. *)
Lemma scan_long_integer {I : interpreter} fuel room n rest :
  640 < S n -> 0 < int_max_str_digits -> int_max_str_digits < S n ->
  scan_once (S fuel) room (repeat 49%N (S n) ++ rbrace :: rest)
  = Some (Raise ValueError).
Proof.
  intros H1 H2 H3.
  change (repeat 49%N (S n) ++ rbrace :: rest)
    with (49%N :: (repeat 49%N n ++ rbrace :: rest)).
  set (X := repeat 49%N n ++ rbrace :: rest).
  cbn [scan_once].
  change (49 =? quote)%N with false.
  change (49 =? lbrace)%N with false.
  change (49 =? lbracket)%N with false. cbv beta iota.
  change (starts_with (lit "null") (49%N :: X)) with (@None str).
  change (starts_with (lit "true") (49%N :: X)) with (@None str).
  change (starts_with (lit "false") (49%N :: X)) with (@None str).
  cbv beta iota.
  assert (M : match_number (49%N :: X)
              = Some (repeat 49%N (S n), [], rbrace :: rest)).
  { unfold match_number, match_int, match_unsigned.
    change (49 =? 45)%N with false. change (49 =? 48)%N with false.
    change (is_digit 49%N) with true. cbv beta iota.
    unfold X. rewrite span_digits_ones. reflexivity. }
  rewrite M. unfold number, too_many_digits.
  rewrite filter_digits_ones, repeat_length.
  apply Nat.ltb_lt in H1, H2, H3. now rewrite H1, H2, H3.
Qed.

Lemma loads_long_integer {I : interpreter} n :
  640 < S n -> 0 < int_max_str_digits -> int_max_str_digits < S n ->
  loads (long_integer_reply (S n)) = Raise ValueError.
Proof.
  intros H1 H2 H3. rewrite loads_unfold. unfold long_integer_reply.
  set (long := repeat 49%N (S n) ++ lit "}").
  change (lit "{" ++ Render.dq ++ lit "n" ++ Render.dq ++ lit ": " ++ long)
    with (lbrace :: quote :: 110%N :: quote :: colon :: 32%N :: long).
  change (lbrace =? 65279)%N with false. cbv beta iota.
  match goal with
  | |- context [fuel_for ?s] =>
      assert (F : exists f, fuel_for s = S (S (S f)))
  end.
  { unfold fuel_for. cbn [List.length]. eexists.
    cbn [Nat.mul Nat.add]. reflexivity. }
  destruct F as (f & ->).
  change (skip_ws (lbrace :: quote :: 110%N :: quote :: colon :: 32%N
                   :: long))
    with (lbrace :: quote :: 110%N :: quote :: colon :: 32%N :: long).
  assert (V : scan_once (S f) nesting_room long = Some (Raise ValueError))
    by (now apply scan_long_integer).
  assert (O : object_members (S (S f)) nesting_room
                (110%N :: quote :: colon :: 32%N :: long)
              = Some (Raise ValueError)).
  { cbn [object_members].
    change (scanstring (110%N :: quote :: colon :: 32%N :: long))
      with (@inr exn _ ([110%N], colon :: 32%N :: long)).
    cbv beta iota.
    change (skip_ws (colon :: 32%N :: long)) with (colon :: 32%N :: long).
    cbv beta iota.
    change (colon =? colon)%N with true. cbv beta iota.
    change (skip_ws (32%N :: long)) with long.
    fold scan_once. rewrite V. reflexivity. }
  change (scan_once (S (S (S f))) (S nesting_room)
            (lbrace :: quote :: 110%N :: quote :: colon :: 32%N :: long))
    with (match object_members (S (S f)) nesting_room
                  (110%N :: quote :: colon :: 32%N :: long) with
          | Some r => Some ('(kv, r') <- r ;; Ok (JObject kv, r'))
          | None => None
          end).
  rewrite O. reflexivity.
Qed.

(** A reply that is JSON, with an integer of more digits than the
    limit: [json.loads] raises [ValueError], the handler is not for it,
    and the extraction ends the run.  So it is in every interpreter
    that has a limit. *)
Theorem extract_names_long_integer {I : interpreter} n :
  640 < S n -> 0 < int_max_str_digits -> int_max_str_digits < S n ->
  extract_names (long_integer_reply (S n)) = Raise ValueError
  /\ extract_names_main (long_integer_reply (S n)) = Raise ValueError.
Proof.
  intros H1 H2 H3. split.
  - apply (extract_names_decoder_raises _ (long_integer_reply (S n)));
      [| now apply loads_long_integer | discriminate].
    unfold long_integer_reply.
    change (lit "{" ++ Render.dq ++ lit "n" ++ Render.dq ++ lit ": "
            ++ repeat 49%N (S n) ++ lit "}")
      with (lbrace :: ((quote :: 110%N :: quote :: colon :: 32%N
                        :: repeat 49%N (S n)) ++ [rbrace])).
    apply search_whole_block.
    unfold has_char. cbn [existsb].
    change (rbrace =? quote)%N with false.
    change (rbrace =? 110)%N with false.
    change (rbrace =? colon)%N with false.
    change (rbrace =? 32)%N with false. cbn [orb].
    change (has_char rbrace (repeat 49%N (S n)) = false).
    now apply has_char_repeat.
  - unfold extract_names_main, try_body_main.
    now rewrite loads_long_integer.
Qed.

Lemma extract_names_long_integer_witness :
  extract_names (I := cpython) (long_integer_reply 4301) = Raise ValueError
  /\ extract_names_main (I := cpython) (long_integer_reply 4301)
     = Raise ValueError.
Proof.
  apply (extract_names_long_integer (I := cpython) 4300);
    cbn [int_max_str_digits cpython]; lia.
Defined.

(** At the limit the integer is converted; and a number for a name. *)
Lemma extract_names_raises_examples :
  extract_names (I := cpython) (long_integer_reply 4300)
  = Ok (unknown_names, [])
  /\ extract_names (I := cpython) number_name_reply = Raise AttributeError.
Proof. repeat split; vm_compute; reflexivity. Qed.

(** *** [main.py] *)

(** The characters a JSON document can open with, whitespace
    included. *)
Definition value_start (c : char) : bool :=
  is_ws c || is_digit c
  || existsb (N.eqb c) [34; 123; 91; 110; 116; 102; 78; 73; 45]%N.

Lemma loads_bad_start {I : interpreter} c s :
  value_start c = false -> loads (c :: s) = Raise JSONDecodeError.
Proof.
  unfold value_start. intros H.
  apply orb_false_iff in H as [H Hx]. apply orb_false_iff in H as [Hw Hd].
  cbn [existsb] in Hx.
  repeat match type of Hx with
         | (_ || _)%bool = false => apply orb_false_iff in Hx as [? Hx]
         end.
  rewrite loads_unfold.
  destruct (c =? 65279)%N; [reflexivity|].
  cbn [skip_ws]. rewrite Hw.
  assert (F : exists n, fuel_for (c :: s) = S n).
  { unfold fuel_for. cbn [List.length]. exists (2 * S (List.length s) + 1).
    lia. }
  destruct F as [n ->]. cbn [scan_once].
  change quote with 34%N. change lbrace with 123%N.
  change lbracket with 91%N.
  repeat match goal with
         | E : (c =? ?k)%N = false |- _ => rewrite E; clear E
         end.
  cbn [lit list_ascii_of_string map starts_with].
  change (ch "n") with 110%N. change (ch "t") with 116%N.
  change (ch "f") with 102%N. change (ch "N") with 78%N.
  change (ch "I") with 73%N. change (ch "-") with 45%N.
  rewrite !(N.eqb_sym _ c).
  repeat match goal with
         | E : (c =? ?k)%N = false |- _ => rewrite E
         end.
  unfold match_number, match_int, match_unsigned.
  repeat match goal with
         | E : (c =? ?k)%N = false |- _ => rewrite E
         end.
  assert (Z0 : (c =? 48)%N = false).
  { unfold is_digit in Hd. apply N.eqb_neq. intros ->. discriminate. }
  rewrite Z0, Hd. reflexivity.
Qed.

(** [main.py] parses the whole response: one that opens with a
    character no JSON document opens with, like the S of "Sure!", gives
    ("Unknown", "Unknown") and shows nothing, whatever follows. *)
Theorem main_whole_response {I : interpreter} c s :
  value_start c = false ->
  extract_names_main (c :: s) = Ok (unknown_names, []).
Proof.
  intros H. unfold extract_names_main, try_body_main.
  now rewrite (loads_bad_start c s H).
Qed.

Lemma main_whole_response_witness :
  extract_names_main (I := cpython)
    (lit "Sure! " ++ Render.render (lit "Sam") (lit "Alice"))
  = Ok (unknown_names, []).
Proof.
  exact (main_whole_response (I := cpython) 83%N
           (lit "ure! " ++ Render.render (lit "Sam") (lit "Alice"))
           eq_refl).
Defined.

(** On the response alone, in the asked shape, [main.py] and [best.py]
    agree. *)
Theorem main_agrees_on_object {I : interpreter} a c :
  Render.plain a -> Render.plain c ->
  has_char rbrace a = false -> has_char rbrace c = false ->
  extract_names_main (Render.render a c)
  = extract_names (Render.render a c).
Proof.
  intros Pa Pc Ha Hc.
  pose proof (extract_names_render [] a c [] eq_refl Pa Pc Ha Hc) as E.
  cbn [app] in E. rewrite app_nil_r in E. rewrite E.
  unfold extract_names_main, try_body_main.
  rewrite (Render.loads_render a c Pa Pc). reflexivity.
Qed.

Lemma main_agrees_on_object_witness :
  extract_names_main (I := cpython)
    (Render.render (lit "Sam") (lit " Alice"))
  = extract_names (I := cpython)
      (Render.render (lit "Sam") (lit " Alice")).
Proof.
  apply (main_agrees_on_object (I := cpython) (lit "Sam") (lit " Alice"));
    reflexivity.
Defined.

(** With words before the object the two scripts part: [best.py]
    finds the object and takes the two names from it, [main.py] parses
    the whole response, fails on its first character and keeps
    "Unknown" for both. *)
Theorem wrapped_reply_differs {I : interpreter} c0 pre a c post :
  value_start c0 = false ->
  has_char lbrace (c0 :: pre) = false ->
  Render.plain a -> Render.plain c ->
  has_char rbrace a = false -> has_char rbrace c = false ->
  extract_names ((c0 :: pre) ++ Render.render a c ++ post)
  = Ok ({| agent_name := strip a; customer_name := strip c |}, [])
  /\ extract_names_main ((c0 :: pre) ++ Render.render a c ++ post)
     = Ok (unknown_names, []).
Proof.
  intros Hv Hpre Pa Pc Ha Hc. split.
  - now apply extract_names_render.
  - cbn [app]. unfold extract_names_main, try_body_main.
    now rewrite (loads_bad_start c0 _ Hv).
Qed.

Lemma wrapped_reply_differs_witness :
  extract_names (I := cpython)
    ((83%N :: lit "ure! ")
     ++ Render.render (lit "Sam") (lit " Alice") ++ lit " Done.")
  = Ok ({| agent_name := strip (lit "Sam");
           customer_name := strip (lit " Alice") |}, [])
  /\ extract_names_main (I := cpython)
       ((83%N :: lit "ure! ")
        ++ Render.render (lit "Sam") (lit " Alice") ++ lit " Done.")
     = Ok (unknown_names, []).
Proof.
  apply (wrapped_reply_differs (I := cpython) 83%N (lit "ure! ")
           (lit "Sam") (lit " Alice") (lit " Done.")); reflexivity.
Defined.

End RaiseFacts.

(** ** Whole runs of the Home page *)

Module RunFacts.

Import Names Sqlite Page Best RowFacts PageFacts.

(** The trace of a run that gets through. *)
Definition full_trace (up : upload) (t summary : str)
    (shown : list widget) (i : Z) (alt : str) : list event :=
  [ Saved (file_name up); Shown StSuccess; Transcribed;
    Shown (StTranscription t); Asked Summary; Answered Summary;
    Shown (StSummary summary); Asked NameExtraction;
    Answered NameExtraction ]
  ++ map Shown shown
  ++ [ Asked Satisfaction; Answered Satisfaction; Asked Improvements;
       Answered Improvements; Committed i; Asked ResponseCritique;
       Answered ResponseCritique; Shown (StAlternatives alt);
       Removed (file_name up) ].

(** The trace of a run that the INSERT ends. *)
Definition trace_to_insert (up : upload) (t summary : str)
    (shown : list widget) : list event :=
  [ Saved (file_name up); Shown StSuccess; Transcribed;
    Shown (StTranscription t); Asked Summary; Answered Summary;
    Shown (StSummary summary); Asked NameExtraction;
    Answered NameExtraction ]
  ++ map Shown shown
  ++ [ Asked Satisfaction; Answered Satisfaction; Asked Improvements;
       Answered Improvements ].

(** The run up to the INSERT, when the five calls before it return. *)
Lemma home_to_insert {I : interpreter} c up w t summary n extracted sat imp :
  transcribe c up = Ok t ->
  complete c (build_prompt Summary t) = Ok summary ->
  complete c (build_prompt NameExtraction t) = Ok n ->
  extract_names n = Ok extracted ->
  complete c (build_prompt Satisfaction t) = Ok sat ->
  complete c (build_prompt Improvements t) = Ok imp ->
  home c up w
  = match insert_report (database w) (stored_fields extracted sat imp) with
    | inl e =>
        (inl e,
         {| database := database w;
            trace := trace w
                     ++ trace_to_insert up t summary (snd extracted) |})
    | inr (d', i) =>
        match complete c (build_prompt ResponseCritique t) with
        | inl e =>
            (inl e,
             {| database := d';
                trace := trace w
                         ++ trace_to_insert up t summary (snd extracted)
                         ++ [Committed i; Asked ResponseCritique] |})
        | inr alt =>
            (Ok tt,
             {| database := d';
                trace := trace w
                         ++ full_trace up t summary (snd extracted) i alt |})
        end
    end.
Proof.
  intros Et Es En Ex Esat Ei. destruct w as [d tr].
  unfold home, ask, bind, emit, lift, ret, on_database.
  unfold Ok in *. cbv beta iota zeta. cbn [database trace].
  rewrite Et. cbv beta iota zeta. cbn [database trace].
  rewrite Es. cbv beta iota zeta. cbn [database trace].
  rewrite En. cbv beta iota zeta. cbn [database trace].
  rewrite Ex. cbv beta iota zeta. rewrite show_all_run.
  cbn [database trace].
  rewrite Esat. cbv beta iota zeta. cbn [database trace].
  rewrite Ei. cbv beta iota zeta. cbn [database trace].
  fold (stored_fields extracted sat imp).
  destruct (insert_report d (stored_fields extracted sat imp))
    as [e|[d' i]].
  - unfold trace_to_insert. rewrite <- !app_assoc. reflexivity.
  - cbv beta iota zeta. cbn [database trace].
    destruct (complete c (build_prompt ResponseCritique t)) as [e|alt];
      cbv beta iota zeta; cbn [database trace];
      unfold trace_to_insert, full_trace; rewrite <- !app_assoc;
      reflexivity.
Qed.

(** A run on a table with the five columns and the constraint of
    [create_database], in step with its sequence and with a rowid left,
    in which the transcription and the five model calls all answer,
    the name extraction returns names (it raises nothing), the two
    names and the two trimmed answers can be encoded, and the answer
    on satisfaction, trimmed, is Yes or No: it ends without exception,
    the Reports page then lists the old rows followed by the new one,
    made of the extracted names and the two trimmed answers under the
    next id, and the events come in the order of the script, the
    removal of the uploaded file last. *)
Theorem home_stores_report {I : interpreter}
    c up w tbl t summary n extracted sat imp alt :
  call_reports (database w) = Some tbl ->
  forallb (has_column tbl) report_columns = true ->
  checks tbl = [satisfied_check] ->
  in_step (database w) tbl -> (next_id tbl <= max_rowid_value)%Z ->
  transcribe c up = Ok t ->
  complete c (build_prompt Summary t) = Ok summary ->
  complete c (build_prompt NameExtraction t) = Ok n ->
  extract_names n = Ok extracted ->
  complete c (build_prompt Satisfaction t) = Ok sat ->
  complete c (build_prompt Improvements t) = Ok imp ->
  complete c (build_prompt ResponseCritique t) = Ok alt ->
  encodable_fields (stored_fields extracted sat imp) = true ->
  py_in (strip sat) [lit "Yes"; lit "No"] = true ->
  exists old,
    fst (home c up w) = Ok tt
    /\ select_reports (database w) = Ok old
    /\ select_reports (database (snd (home c up w)))
       = Ok (old ++ [ {| r_id := next_id tbl;
                         r_customer_name :=
                           Text (customer_name (fst extracted));
                         r_agent_name := Text (agent_name (fst extracted));
                         r_customer_satisfied := Text (strip sat);
                         r_company_improvements := Text (strip imp) |} ])
    /\ trace (snd (home c up w))
       = trace w
         ++ full_trace up t summary (snd extracted) (next_id tbl) alt.
Proof.
  intros Ht Hcols Hchk Hstep Hmax Et Es En Ex Esat Ei Ea Henc Hsat.
  rewrite (home_to_insert c up w t summary n extracted sat imp
             Et Es En Ex Esat Ei).
  destruct (insert_report_ok (database w) tbl
              (stored_fields extracted sat imp) Ht Hcols Hchk Henc Hsat
              Hstep Hmax) as (cs & Hins & Hrep).
  unfold Ok in Hins, Ea. rewrite Hins, Ea. cbn [fst snd database trace].
  exists (map report_of_row (rows tbl)).
  split; [reflexivity|]. split; [now apply select_reports_ok|].
  split; [|reflexivity].
  erewrite select_reports_ok; [|reflexivity|exact Hcols].
  cbn [rows]. rewrite map_app. cbn [map]. rewrite Hrep. reflexivity.
Qed.

(** Collaborators that answer every prompt. *)
Definition answering : collaborators :=
  {| transcribe := fun _ => Ok Scenario.sample_transcript;
     complete := fun prompt =>
       if str_eqb prompt
            (build_prompt Satisfaction Scenario.sample_transcript)
       then Ok (lit " Yes ")
       else if str_eqb prompt
                 (build_prompt NameExtraction Scenario.sample_transcript)
       then Ok (lit "Sure! " ++ Render.render (lit "Sam") (lit "Alice"))
       else Ok (lit "No issues reported.") |}.

Lemma home_stores_report_witness :
  exists old,
    fst (home (I := cpython) answering Scenario.sample_upload
           Scenario.ready_world)
    = Ok tt
    /\ select_reports (database Scenario.ready_world) = Ok old
    /\ select_reports
         (database
            (snd (home (I := cpython) answering Scenario.sample_upload
                    Scenario.ready_world)))
       = Ok (old ++ [ {| r_id := next_id fresh_table;
                         r_customer_name := Text (lit "Alice");
                         r_agent_name := Text (lit "Sam");
                         r_customer_satisfied := Text (strip (lit " Yes "));
                         r_company_improvements :=
                           Text (strip (lit "No issues reported.")) |} ])
    /\ trace
         (snd (home (I := cpython) answering Scenario.sample_upload
                 Scenario.ready_world))
       = trace Scenario.ready_world
         ++ full_trace Scenario.sample_upload Scenario.sample_transcript
              (lit "No issues reported.") [] (next_id fresh_table)
              (lit "No issues reported.").
Proof.
  apply (home_stores_report (I := cpython) answering Scenario.sample_upload
           Scenario.ready_world fresh_table Scenario.sample_transcript
           (lit "No issues reported.")
           (lit "Sure! " ++ Render.render (lit "Sam") (lit "Alice"))
           ({| agent_name := lit "Sam"; customer_name := lit "Alice" |}, [])
           (lit " Yes ") (lit "No issues reported.")
           (lit "No issues reported."));
    try (vm_compute; reflexivity).
  - split; [constructor | cbn; lia].
  - cbv. discriminate.
Defined.

(** A run on a table with the four columns of the INSERT and the
    constraint on satisfaction, with a rowid left, in which the
    transcription and the four model calls before the INSERT all
    answer, the name extraction returns names, and the two names and
    the two trimmed answers can be encoded: the answer on satisfaction
    is stored as it comes, trimmed, so when it is anything but Yes or
    No (say "Yes." or "The customer was satisfied") the run gets as far
    as the INSERT, ends there with [IntegrityError], stores nothing and
    never asks for the critique nor removes the upload. *)
Theorem home_rejects_other_answers {I : interpreter}
    c up w tbl t summary n extracted sat imp :
  call_reports (database w) = Some tbl ->
  forallb (has_column tbl) named_columns = true ->
  In satisfied_check (checks tbl) ->
  new_rowid tbl (sqlite_sequence (database w)) <> None ->
  transcribe c up = Ok t ->
  complete c (build_prompt Summary t) = Ok summary ->
  complete c (build_prompt NameExtraction t) = Ok n ->
  extract_names n = Ok extracted ->
  complete c (build_prompt Satisfaction t) = Ok sat ->
  complete c (build_prompt Improvements t) = Ok imp ->
  encodable_fields (stored_fields extracted sat imp) = true ->
  py_in (strip sat) [lit "Yes"; lit "No"] = false ->
  home c up w
  = (Raise IntegrityError,
     {| database := database w;
        trace := trace w ++ trace_to_insert up t summary (snd extracted) |}).
Proof.
  intros Ht Hcols Hchk Hrow Et Es En Ex Esat Ei Henc Hno.
  rewrite (home_to_insert c up w t summary n extracted sat imp
             Et Es En Ex Esat Ei).
  rewrite (insert_refused (database w) tbl
             (stored_fields extracted sat imp) Ht Hcols Hchk Hno).
  now rewrite (refusal_check _ _ _ Henc Hrow).
Qed.

(** A run on a table with the four columns of the INSERT, in which
    the transcription and the four model calls before the INSERT all
    answer and the name extraction returns names, but one of the two
    names or of the two trimmed answers cannot be encoded (a lone
    surrogate, as the escape for it in the JSON of the names decodes
    to): the run gets as far as the INSERT, ends there with
    [UnicodeEncodeError], stores nothing and never asks for the
    critique nor removes the upload. *)
Theorem home_unencodable_text {I : interpreter}
    c up w tbl t summary n extracted sat imp :
  call_reports (database w) = Some tbl ->
  forallb (has_column tbl) named_columns = true ->
  transcribe c up = Ok t ->
  complete c (build_prompt Summary t) = Ok summary ->
  complete c (build_prompt NameExtraction t) = Ok n ->
  extract_names n = Ok extracted ->
  complete c (build_prompt Satisfaction t) = Ok sat ->
  complete c (build_prompt Improvements t) = Ok imp ->
  encodable_fields (stored_fields extracted sat imp) = false ->
  home c up w
  = (Raise UnicodeEncodeError,
     {| database := database w;
        trace := trace w ++ trace_to_insert up t summary (snd extracted) |}).
Proof.
  intros Ht Hcols Et Es En Ex Esat Ei Henc.
  rewrite (home_to_insert c up w t summary n extracted sat imp
             Et Es En Ex Esat Ei).
  now rewrite (insert_unencodable (database w) tbl
                 (stored_fields extracted sat imp) Ht Hcols Henc).
Qed.

(** The names come as [{"agent_name": "\ud800", "customer_name":
    "Alice"}]. *)
Definition surrogate_reply : str :=
  lit "{" ++ Render.dq ++ lit "agent_name" ++ Render.dq ++ lit ": "
  ++ Render.dq ++ lit "\ud800" ++ Render.dq ++ lit ", "
  ++ Render.dq ++ lit "customer_name" ++ Render.dq ++ lit ": "
  ++ Render.dq ++ lit "Alice" ++ Render.dq ++ lit "}".

Definition escaping : collaborators :=
  {| transcribe := fun _ => Ok Scenario.sample_transcript;
     complete := fun prompt =>
       if str_eqb prompt
            (build_prompt Satisfaction Scenario.sample_transcript)
       then Ok (lit "Yes")
       else if str_eqb prompt
                 (build_prompt NameExtraction Scenario.sample_transcript)
       then Ok surrogate_reply
       else Ok (lit "No issues reported.") |}.

Lemma home_unencodable_text_witness :
  home (I := cpython) escaping Scenario.sample_upload Scenario.ready_world
  = (Raise UnicodeEncodeError,
     {| database := database Scenario.ready_world;
        trace := trace Scenario.ready_world
                 ++ trace_to_insert Scenario.sample_upload
                      Scenario.sample_transcript
                      (lit "No issues reported.") [] |}).
Proof.
  apply (home_unencodable_text (I := cpython) escaping
           Scenario.sample_upload Scenario.ready_world fresh_table
           Scenario.sample_transcript (lit "No issues reported.")
           surrogate_reply
           ({| agent_name := [55296%N]; customer_name := lit "Alice" |}, [])
           (lit "Yes") (lit "No issues reported."));
    vm_compute; reflexivity.
Defined.

(** Collaborators whose answer on satisfaction is a sentence. *)
Definition wordy : collaborators :=
  {| transcribe := fun _ => Ok Scenario.sample_transcript;
     complete := fun prompt =>
       if str_eqb prompt
            (build_prompt Satisfaction Scenario.sample_transcript)
       then Ok (lit "Yes.")
       else Ok (lit "No issues reported.") |}.

Lemma home_rejects_other_answers_witness :
  home (I := cpython) wordy Scenario.sample_upload Scenario.ready_world
  = (Raise IntegrityError,
     {| database := database Scenario.ready_world;
        trace := trace Scenario.ready_world
                 ++ trace_to_insert Scenario.sample_upload
                      Scenario.sample_transcript
                      (lit "No issues reported.")
                      (snd (unknown_names, @nil widget)) |}).
Proof.
  apply (home_rejects_other_answers (I := cpython) wordy
           Scenario.sample_upload
           Scenario.ready_world fresh_table Scenario.sample_transcript
           (lit "No issues reported.") (lit "No issues reported.")
           (unknown_names, []) (lit "Yes.") (lit "No issues reported."));
    try (vm_compute; reflexivity).
  - left. reflexivity.
  - vm_compute. discriminate.
Defined.

End RunFacts.

(** ** The uploaded file *)

Module UploadFacts.

Import Names Sqlite Page Best PageFacts.

Lemma no_removal_shown nm ws : ~ In (Removed nm) (map Shown ws).
Proof. intros H. apply in_map_iff in H as (x & Hx & _). discriminate. Qed.

Ltac no_removal :=
  intros ? ?;
  repeat match goal with
         | H : In _ (_ ++ _) |- _ => apply in_app_or in H as [H | H]
         | H : In _ (_ :: _) |- _ => destruct H as [H | H]; [discriminate H|]
         | H : In _ [] |- _ => destruct H
         | H : In (Removed _) (map Shown _) |- _ =>
             exact (no_removal_shown _ _ H)
         end.

(** Every run saves the upload first.  A run that gets through removes
    it as its last step; a run that an exception ends, wherever that
    is, leaves the file behind. *)
Theorem upload_removed_on_success_only {I : interpreter} c up w :
  exists evs,
    trace (snd (home c up w)) = trace w ++ Saved (file_name up) :: evs
    /\ match fst (home c up w) with
       | inr _ =>
           exists before,
             evs = before ++ [Removed (file_name up)]
             /\ forall nm, ~ In (Removed nm) before
       | inl _ => forall nm, ~ In (Removed nm) evs
       end.
Proof.
  destruct w as [d tr].
  unfold home, ask, bind, emit, lift, ret, on_database, Ok.
  cbv beta iota zeta. cbn [database trace].
  destruct (transcribe c up) as [e|t].
  { cbn [fst snd trace database]. rewrite <- ?app_assoc. cbn [app].
    eexists. split; [reflexivity | no_removal]. }
  cbv beta iota zeta. cbn [database trace].
  destruct (complete c (build_prompt Summary t)) as [e|summary].
  { cbn [fst snd trace database]. rewrite <- ?app_assoc. cbn [app].
    eexists. split; [reflexivity | no_removal]. }
  cbv beta iota zeta. cbn [database trace].
  destruct (complete c (build_prompt NameExtraction t)) as [e|n].
  { cbn [fst snd trace database]. rewrite <- ?app_assoc. cbn [app].
    eexists. split; [reflexivity | no_removal]. }
  cbv beta iota zeta. cbn [database trace].
  destruct (extract_names n) as [e|extracted].
  { cbn [fst snd trace database]. rewrite <- ?app_assoc. cbn [app].
    eexists. split; [reflexivity | no_removal]. }
  cbv beta iota zeta. rewrite show_all_run. cbn [database trace].
  destruct (complete c (build_prompt Satisfaction t)) as [e|sat].
  { cbn [fst snd trace database]. rewrite <- ?app_assoc. cbn [app].
    eexists. split; [reflexivity | no_removal]. }
  cbv beta iota zeta. cbn [database trace].
  destruct (complete c (build_prompt Improvements t)) as [e|imp].
  { cbn [fst snd trace database]. rewrite <- ?app_assoc. cbn [app].
    eexists. split; [reflexivity | no_removal]. }
  cbv beta iota zeta. cbn [database trace].
  destruct (insert_report d _) as [e|[d' i]].
  { cbn [fst snd trace database]. rewrite <- ?app_assoc. cbn [app].
    eexists. split; [reflexivity | no_removal]. }
  cbv beta iota zeta. cbn [database trace].
  destruct (complete c (build_prompt ResponseCritique t)) as [e|alt].
  { cbn [fst snd trace database]. rewrite <- ?app_assoc. cbn [app].
    eexists. split; [reflexivity | no_removal]. }
  cbn [fst snd trace database]. rewrite <- ?app_assoc. cbn [app].
  eexists. split; [reflexivity|].
  exists ([ Shown StSuccess; Transcribed; Shown (StTranscription t);
            Asked Summary; Answered Summary; Shown (StSummary summary);
            Asked NameExtraction; Answered NameExtraction ]
          ++ map Shown (snd extracted)
          ++ [ Asked Satisfaction; Answered Satisfaction;
               Asked Improvements; Answered Improvements; Committed i;
               Asked ResponseCritique; Answered ResponseCritique;
               Shown (StAlternatives alt) ]).
  split; [cbn [app]; rewrite <- ?app_assoc; reflexivity | no_removal].
Qed.

End UploadFacts.

(** ** The prompts *)

Module PromptFacts.

Import Page.

Fixpoint common_prefix (a b : str) : str :=
  match a, b with
  | x :: a', y :: b' => if (x =? y)%N then x :: common_prefix a' b' else []
  | _, _ => []
  end.

(** What a prompt puts before and after the transcription. *)
Definition lead (f : facet) : str :=
  common_prefix (build_prompt f [0%N]) (build_prompt f [1%N]).

Definition tail (f : facet) : str :=
  skipn (List.length (lead f)) (build_prompt f []).

Lemma build_prompt_shape f t : build_prompt f t = lead f ++ t ++ tail f.
Proof.
  destruct f; try (vm_compute; reflexivity).
  assert (E : tail Summary = []) by (vm_compute; reflexivity).
  rewrite E, app_nil_r. vm_compute. reflexivity.
Qed.

(** A prompt holds the transcription as it is, between two fixed
    texts, and tells which facet and which transcription it was built
    for: two prompts are equal only for the same facet and the same
    transcription. *)
Theorem build_prompt_injective f g t u :
  build_prompt f t = build_prompt g u <-> f = g /\ t = u.
Proof.
  split; [|now intros [-> ->]].
  intros H.
  assert (F : f = g).
  { apply (f_equal (firstn 14)) in H. rewrite !build_prompt_shape in H.
    destruct f, g; try reflexivity; vm_compute in H; discriminate. }
  subst g. split; [reflexivity|].
  rewrite !build_prompt_shape in H. apply app_inv_head in H.
  now apply app_inv_tail in H.
Qed.

End PromptFacts.

(** ** The script from its first line *)

Module ScriptFacts.

Import Names Sqlite Page Best SchemaFacts RowFacts Reach.

(** The only table the scripts make is the one of [create_database]:
    a reachable database has no table or a table with exactly those
    columns and that constraint. *)
Definition current_schema (d : db) : Prop :=
  match call_reports d with
  | None => True
  | Some t => columns t = columns fresh_table
              /\ checks t = checks fresh_table
  end.

Lemma step_current_schema d d' :
  current_schema d -> step d d' -> current_schema d'.
Proof.
  intros W Hs. revert W.
  destruct Hs as [d0 d1 H | d0 d1 H | d0 f d1 i H | d0 d1 H];
    unfold current_schema; intros W.
  - unfold create_database in H.
    destruct (call_reports d0) as [t|] eqn:E.
    + injection H as <-. now rewrite E.
    + injection H as <-. cbn. now split.
  - unfold update_database_schema, table_info in H.
    destruct (call_reports d0) as [t|] eqn:E.
    + destruct W as [Wc Wk]. unfold column_names in H. rewrite Wc in H.
      change (py_in company_improvements
                (map col_name (columns fresh_table))) with true in H.
      cbn [negb] in H. injection H as <-. rewrite E. now split.
    + cbn [py_in existsb negb] in H. unfold add_column in H.
      rewrite E in H. discriminate.
  - unfold insert_report, insert_row in H.
    destruct (call_reports d0) as [t|] eqn:E; [|discriminate].
    destruct (forallb _ _); [|discriminate].
    destruct (forallb _ _); [|discriminate].
    destruct (new_rowid t (sqlite_sequence d0)); [|discriminate].
    cbv zeta in H. destruct (forallb _ _); [|discriminate].
    injection H as <- <-. exact W.
  - unfold clear_database in H.
    destruct (call_reports d0) as [t|]; [|discriminate].
    injection H as <-. exact W.
Qed.

Lemma current_schema_kept d : reachable d -> current_schema d.
Proof.
  induction 1 as [|d d' _ IH Hs]; [exact I|].
  exact (step_current_schema d d' IH Hs).
Qed.

(** Whatever the schema calls, the INSERT of the Home page and
    [clear_database] have done to an empty file, in any order and any
    number of times: a table that exists has exactly the columns and
    the constraint of [create_database], its rowids are positive and
    increasing, and [sqlite_sequence] holds the largest of them. *)
Theorem reachable_current_schema d :
  reachable d -> current_schema d /\ well_kept d.
Proof.
  intros Hr. split.
  - exact (current_schema_kept d Hr).
  - exact (reachable_well_kept d Hr).
Qed.

Lemma reachable_current_schema_witness :
  current_schema Scenario.one_row_db /\ well_kept Scenario.one_row_db.
Proof.
  exact (reachable_current_schema Scenario.one_row_db
           Scenario.one_row_db_reachable).
Defined.

(** What the Reports page writes for a list of tuples. *)
Definition listing (n : nat) : widget :=
  match n with
  | O => StNoRecords
  | S _ => StDataframe n
  end.

Definition row_count (d : db) : nat :=
  match call_reports d with
  | Some t => List.length (rows t)
  | None => O
  end.

(** On every database the scripts reach, a run of the Reports page
    raises nothing: the schema calls make the table when it is missing
    and touch nothing else, and the page shows the notice for an empty
    table or else a frame with one line for each row. *)
Theorem reports_page_runs {I : interpreter} c d tr :
  reachable d ->
  exists d1,
    ensure_schema d = Ok d1
    /\ row_count d1 = row_count d
    /\ sqlite_sequence d1 = sqlite_sequence d
    /\ script c Reports {| database := d; trace := tr |}
       = (Ok tt, {| database := d1;
                    trace := tr ++ [Shown (listing (row_count d))] |}).
Proof.
  intros Hr. pose proof (current_schema_kept d Hr) as Hc.
  unfold current_schema in Hc.
  unfold script, statement, reports, bind, on_database, emit, ret, Ok.
  cbn [database trace].
  destruct (call_reports d) as [t|] eqn:E.
  - destruct Hc as [Hcol Hchk]. exists d.
    assert (Hin : In company_improvements (column_names t)).
    { unfold column_names. rewrite Hcol. cbv. tauto. }
    assert (E1 : create_database d = inr d)
      by (unfold create_database; now rewrite E).
    assert (E2 : update_database_schema d = inr d)
      by exact (update_schema_present d t E Hin).
    assert (E3 : select_reports d = inr (map report_of_row (rows t))).
    { apply (select_reports_ok d t E). unfold has_column, report_columns.
      rewrite Hcol. reflexivity. }
    unfold ensure_schema. rewrite E1. cbn [rbind]. rewrite E2.
    repeat split. cbv beta iota zeta. cbn [database trace].
    rewrite E2. cbv beta iota zeta. cbn [database trace]. rewrite E3.
    cbv beta iota zeta. cbn [database trace].
    unfold row_count. rewrite E.
    destruct (rows t) as [|r rs]; cbn [map]; cbv beta iota;
      cbn [database trace List.length listing]; try reflexivity.
    now rewrite length_map.
  - exists {| call_reports := Some fresh_table;
              sqlite_sequence := sqlite_sequence d |}.
    assert (E1 : create_database d
                 = inr {| call_reports := Some fresh_table;
                          sqlite_sequence := sqlite_sequence d |})
      by (unfold create_database; now rewrite E).
    unfold ensure_schema. rewrite E1. cbn [rbind].
    unfold row_count. rewrite E. repeat split.
Qed.

Lemma reports_page_runs_witness :
  exists d1,
    ensure_schema Scenario.one_row_db = Ok d1
    /\ row_count d1 = row_count Scenario.one_row_db
    /\ sqlite_sequence d1 = sqlite_sequence Scenario.one_row_db
    /\ script (I := cpython) Scenario.failing_critique Reports
         {| database := Scenario.one_row_db; trace := [] |}
       = (Ok tt, {| database := d1;
                    trace := [] ++ [Shown (listing
                                      (row_count Scenario.one_row_db))] |}).
Proof.
  exact (reports_page_runs (I := cpython) Scenario.failing_critique
           Scenario.one_row_db [] Scenario.one_row_db_reachable).
Defined.

(** The schema calls keep what is stored: on any database on which
    they succeed, the rows of an existing table, its constraints and
    the sequence are as before. *)
Theorem ensure_schema_keeps_rows d d1 t :
  call_reports d = Some t -> ensure_schema d = Ok d1 ->
  exists t1,
    call_reports d1 = Some t1
    /\ rows t1 = rows t /\ checks t1 = checks t
    /\ sqlite_sequence d1 = sqlite_sequence d
    /\ firstn (List.length (columns t)) (columns t1) = columns t.
Proof.
  intros Ht H. unfold ensure_schema, create_database in H. rewrite Ht in H.
  cbn [rbind Ok] in H. unfold update_database_schema in H.
  destruct (negb _).
  - unfold add_column in H. rewrite Ht in H.
    destruct (has_column t company_improvements); [discriminate|].
    injection H as <-. eexists. split; [reflexivity|].
    cbn [rows checks columns sqlite_sequence]. repeat split.
    rewrite firstn_app, Nat.sub_diag, firstn_all. cbn [firstn].
    apply app_nil_r.
  - injection H as <-. exists t. repeat split; try assumption.
    apply firstn_all.
Qed.

Definition agentless_db : db :=
  {| call_reports := Some agentless_table; sqlite_sequence := None |}.

Lemma ensure_schema_keeps_rows_witness :
  exists t1,
    call_reports (after agentless_db (ensure_schema agentless_db)) = Some t1
    /\ rows t1 = rows agentless_table
    /\ checks t1 = checks agentless_table
    /\ sqlite_sequence (after agentless_db (ensure_schema agentless_db))
       = sqlite_sequence agentless_db
    /\ firstn (List.length (columns agentless_table)) (columns t1)
       = columns agentless_table.
Proof.
  apply (ensure_schema_keeps_rows agentless_db
           (after agentless_db (ensure_schema agentless_db))
           agentless_table); reflexivity.
Defined.

(** *** [clear_database] *)

(** [data.py] needs the table: without it the first DELETE raises and
    nothing is committed.  With it, the table is emptied and the
    sequence entry removed while columns and constraints stay, which
    leaves a database in step whatever it was before; and running the
    script again changes nothing more. *)
Theorem clear_database_resets d :
  match call_reports d with
  | None => clear_database d = Raise OperationalError
  | Some t =>
      exists d0 t0,
        clear_database d = Ok d0
        /\ call_reports d0 = Some t0
        /\ columns t0 = columns t /\ checks t0 = checks t
        /\ rows t0 = [] /\ sqlite_sequence d0 = None
        /\ in_step d0 t0 /\ well_kept d0
        /\ clear_database d0 = Ok d0
  end.
Proof.
  unfold clear_database. destruct (call_reports d) as [t|]; [|reflexivity].
  eexists. eexists. split; [reflexivity|].
  unfold in_step, well_kept, increasing.
  cbn [call_reports sqlite_sequence rows columns checks largest_rowid].
  repeat split; try constructor. discriminate.
Qed.

End ScriptFacts.

(** ** [main.py] on the same file *)

Module Main.

Import Sqlite SchemaFacts RowFacts.

(** The table of [create_database] in [main.py]. *)
Definition main_table : table :=
  {| columns :=
       [ {| col_name := id_column; col_default := Null |};
         {| col_name := lit "customer_service_department";
            col_default := Null |};
         {| col_name := lit "agent_name";
            col_default := Text (lit "Unknown") |};
         {| col_name := lit "customer_name";
            col_default := Text (lit "Unknown") |};
         {| col_name := lit "summary"; col_default := Null |};
         {| col_name := lit "overall_sentiment"; col_default := Null |};
         {| col_name := lit "customer_satisfied"; col_default := Null |};
         {| col_name := lit "main_attention_areas"; col_default := Null |} ];
     checks :=
       [ {| chk_column := lit "overall_sentiment";
            chk_allowed := [lit "Positive"; lit "Negative"; lit "Neutral"] |};
         {| chk_column := lit "customer_satisfied";
            chk_allowed := [lit "Yes"; lit "No"] |} ];
     rows := [] |}.

(** [create_database] of [main.py]. *)
Definition create_database (d : db) : result db :=
  match call_reports d with
  | Some _ => Ok d
  | None =>
      Ok {| call_reports := Some main_table;
            sqlite_sequence := sqlite_sequence d |}
  end.

(** The fields [main.py] stores. *)
Record fields := {
  f_agent_name : str;
  f_customer_name : str;
  f_summary : str;
  f_overall_sentiment : str;
  f_customer_satisfied : str;
  f_main_attention_areas : str
}.

(** [INSERT INTO call_reports (customer_service_department, agent_name,
    customer_name, summary, overall_sentiment, customer_satisfied,
    main_attention_areas) VALUES (?, ?, ?, ?, ?, ?, ?)] with "Unknown"
    for the department. *)
Definition insert_report (d : db) (f : fields) : result (db * Z) :=
  insert_row d
    [ (lit "customer_service_department", Text (lit "Unknown"));
      (lit "agent_name", Text (f_agent_name f));
      (lit "customer_name", Text (f_customer_name f));
      (lit "summary", Text (f_summary f));
      (lit "overall_sentiment", Text (f_overall_sentiment f));
      (lit "customer_satisfied", Text (f_customer_satisfied f));
      (lit "main_attention_areas", Text (f_main_attention_areas f)) ].

(** The six texts of a row can be encoded. *)
Definition encodable_fields (f : fields) : bool :=
  encodable (f_agent_name f) && encodable (f_customer_name f)
  && encodable (f_summary f) && encodable (f_overall_sentiment f)
  && encodable (f_customer_satisfied f)
  && encodable (f_main_attention_areas f).

(** One tuple of the Reports page of [main.py]. *)
Record report := {
  r_id : Z;
  r_agent_name : value;
  r_customer_name : value;
  r_overall_sentiment : value;
  r_customer_satisfied : value;
  r_main_attention_areas : value
}.

Definition report_of_row (r : row) : report :=
  {| r_id := rowid r;
     r_agent_name := cell r (lit "agent_name");
     r_customer_name := cell r (lit "customer_name");
     r_overall_sentiment := cell r (lit "overall_sentiment");
     r_customer_satisfied := cell r (lit "customer_satisfied");
     r_main_attention_areas := cell r (lit "main_attention_areas") |}.

(** [SELECT id, agent_name, customer_name, overall_sentiment,
    customer_satisfied, main_attention_areas FROM call_reports] *)
Definition select_reports (d : db) : result (list report) :=
  match call_reports d with
  | None => Raise OperationalError
  | Some t =>
      if forallb (has_column t)
           [ id_column; lit "agent_name"; lit "customer_name";
             lit "overall_sentiment"; lit "customer_satisfied";
             lit "main_attention_areas" ]
      then Ok (map report_of_row (rows t))
      else Raise OperationalError
  end.

(** A table with the columns and constraints of [main.py], as
    [best.py] finds it on a file that [main.py] made. *)
Definition made_by_main (t : table) : Prop :=
  columns t = columns main_table /\ checks t = checks main_table.

(** The table after the migration of [best.py]. *)
Definition migrated (t : table) : table :=
  {| columns := columns t
                ++ [ {| col_name := company_improvements;
                        col_default := Null |} ];
     checks := checks t;
     rows := rows t |}.

(** [best.py] on a file that [main.py] made, in step with its sequence
    and with a rowid left: the schema calls append
    [company_improvements] and keep the rows; the INSERT of the Home
    page then goes through for four texts that can be encoded and a
    satisfaction of Yes or No, under the next id; the new row has no
    sentiment and no attention areas, which the constraint on the
    sentiment lets pass, and both Reports pages list it after the old
    rows. *)
Theorem best_on_main_file d t f :
  call_reports d = Some t -> made_by_main t -> in_step d t ->
  (next_id t <= max_rowid_value)%Z ->
  RowFacts.encodable_fields f = true ->
  py_in (Sqlite.f_customer_satisfied f) [lit "Yes"; lit "No"] = true ->
  exists d2,
    ensure_schema d
    = Ok {| call_reports := Some (migrated t);
            sqlite_sequence := sqlite_sequence d |}
    /\ Sqlite.insert_report
         {| call_reports := Some (migrated t);
            sqlite_sequence := sqlite_sequence d |} f
       = Ok (d2, next_id t)
    /\ Sqlite.select_reports d2
       = Ok (map Sqlite.report_of_row (rows t)
             ++ [report_of_fields (next_id t) f])
    /\ select_reports d2
       = Ok (map report_of_row (rows t)
             ++ [ {| r_id := next_id t;
                     r_agent_name := Text (Sqlite.f_agent_name f);
                     r_customer_name := Text (Sqlite.f_customer_name f);
                     r_overall_sentiment := Null;
                     r_customer_satisfied :=
                       Text (Sqlite.f_customer_satisfied f);
                     r_main_attention_areas := Null |} ]).
Proof.
  intros Ht [Hcol Hchk] Hstep Hmax Henc Hsat.
  set (d1 := {| call_reports := Some (migrated t);
                sqlite_sequence := sqlite_sequence d |}).
  assert (E1 : ensure_schema d = Ok d1).
  { unfold ensure_schema, Sqlite.create_database. rewrite Ht.
    cbn [rbind Ok]. unfold update_database_schema, table_info.
    rewrite Ht. unfold column_names. rewrite Hcol.
    change (py_in company_improvements (map col_name (columns main_table)))
      with false.
    cbn [negb]. unfold add_column. rewrite Ht.
    assert (Hc : has_column t company_improvements = false)
      by (unfold has_column; rewrite Hcol; reflexivity).
    rewrite Hc. reflexivity. }
  assert (Hstep1 : in_step d1 (migrated t)) by exact Hstep.
  assert (E2 : exists cs,
             Sqlite.insert_report d1 f
             = Ok ({| call_reports :=
                        Some {| columns := columns (migrated t);
                                checks := checks (migrated t);
                                rows := rows t
                                        ++ [ {| rowid := next_id t;
                                                cells := cs |} ] |};
                      sqlite_sequence := Some (next_id t) |}, next_id t)
             /\ Sqlite.report_of_row {| rowid := next_id t; cells := cs |}
                = report_of_fields (next_id t) f
             /\ report_of_row {| rowid := next_id t; cells := cs |}
                = {| r_id := next_id t;
                     r_agent_name := Text (Sqlite.f_agent_name f);
                     r_customer_name := Text (Sqlite.f_customer_name f);
                     r_overall_sentiment := Null;
                     r_customer_satisfied :=
                       Text (Sqlite.f_customer_satisfied f);
                     r_main_attention_areas := Null |}).
  { unfold Sqlite.insert_report, insert_row, d1.
    cbn [call_reports sqlite_sequence].
    rewrite (bindable_fields f), Henc.
    change (new_rowid (migrated t) (sqlite_sequence d))
      with (new_rowid t (sqlite_sequence d)).
    rewrite (new_rowid_in_step d t Hstep Hmax). cbv zeta.
    clear Henc. destruct f as [cn an sat imp].
    cbn [Sqlite.f_customer_name Sqlite.f_agent_name
         Sqlite.f_customer_satisfied Sqlite.f_company_improvements] in *.
    unfold has_column, new_cells, migrated. cbn [columns checks rows].
    rewrite Hcol, Hchk.
    eexists. split; [|split].
    - match goal with
      | |- (if ?b then _ else _) = _ =>
          change b with true; cbv beta iota
      end.
      match goal with
      | |- (if forallb (check_holds ?cs) ?ks then _ else _) = _ =>
          let v := eval cbv in cs in change cs with v
      end.
      cbn [checks main_table forallb]. unfold check_holds.
      cbn [chk_column chk_allowed].
      match goal with
      | |- context [assoc ?l ?k] =>
          let v := eval cbv in (assoc l k) in change (assoc l k) with v
      end.
      cbv beta iota.
      match goal with
      | |- context [assoc ?l ?k] =>
          let v := eval cbv in (assoc l k) in change (assoc l k) with v
      end.
      cbv beta iota. rewrite Hsat. cbn [andb].
      rewrite tree_insert_last; [reflexivity|].
      cbn [rowid]. unfold next_id.
      pose proof (largest_rowid_bound (rows t)) as B.
      destruct (largest_rowid (rows t)) as [m|].
      + eapply Forall_impl; [|exact B]. cbv beta. intros; lia.
      + rewrite B. constructor.
    - reflexivity.
    - reflexivity. }
  destruct E2 as (cs & E2 & R1 & R2).
  eexists. split; [exact E1|]. split; [exact E2|]. split.
  - unfold Sqlite.select_reports. cbn [call_reports columns migrated].
    unfold has_column. cbn [columns]. rewrite Hcol.
    match goal with
    | |- (if ?b then _ else _) = _ => change b with true; cbv beta iota
    end.
    cbn [rows]. now rewrite map_app, <- R1.
  - unfold select_reports. cbn [call_reports columns migrated].
    unfold has_column. cbn [columns]. rewrite Hcol.
    match goal with
    | |- (if ?b then _ else _) = _ => change b with true; cbv beta iota
    end.
    cbn [rows]. now rewrite map_app, <- R2.
Qed.

Definition main_db : db :=
  {| call_reports := Some main_table; sqlite_sequence := None |}.

Lemma best_on_main_file_witness :
  exists d2,
    ensure_schema main_db
    = Ok {| call_reports := Some (migrated main_table);
            sqlite_sequence := sqlite_sequence main_db |}
    /\ Sqlite.insert_report
         {| call_reports := Some (migrated main_table);
            sqlite_sequence := sqlite_sequence main_db |} yes_fields
       = Ok (d2, next_id main_table)
    /\ Sqlite.select_reports d2
       = Ok (map Sqlite.report_of_row (rows main_table)
             ++ [report_of_fields (next_id main_table) yes_fields])
    /\ select_reports d2
       = Ok (map report_of_row (rows main_table)
             ++ [ {| r_id := next_id main_table;
                     r_agent_name := Text (Sqlite.f_agent_name yes_fields);
                     r_customer_name :=
                       Text (Sqlite.f_customer_name yes_fields);
                     r_overall_sentiment := Null;
                     r_customer_satisfied :=
                       Text (Sqlite.f_customer_satisfied yes_fields);
                     r_main_attention_areas := Null |} ]).
Proof.
  apply (best_on_main_file main_db main_table yes_fields).
  - reflexivity.
  - split; reflexivity.
  - split; [constructor | cbn; lia].
  - cbv. discriminate.
  - vm_compute. reflexivity.
  - vm_compute. reflexivity.
Defined.

(** [main.py] on a file that [best.py] made: its [create_database]
    leaves the table alone, so its INSERT names columns the table does
    not have and raises [OperationalError], whatever the fields; so
    does its Reports page. *)
Theorem main_on_best_file d t f :
  call_reports d = Some t -> columns t = columns fresh_table ->
  create_database d = Ok d
  /\ insert_report d f = Raise OperationalError
  /\ select_reports d = Raise OperationalError.
Proof.
  intros Ht Hcol. unfold create_database, insert_report, insert_row,
    select_reports. rewrite Ht. unfold has_column. rewrite Hcol.
  repeat split.
Qed.

Lemma main_on_best_file_witness :
  create_database ready_db = Ok ready_db
  /\ insert_report ready_db
       {| f_agent_name := lit "Sam"; f_customer_name := lit "Alice";
          f_summary := lit "Fine."; f_overall_sentiment := lit "Positive";
          f_customer_satisfied := lit "Yes";
          f_main_attention_areas := lit "billing" |}
     = Raise OperationalError
  /\ select_reports ready_db = Raise OperationalError.
Proof.
  apply (main_on_best_file ready_db fresh_table); reflexivity.
Defined.

Lemma main_bindable_fields f :
  forallb (fun kv : str * value => bindable (snd kv))
    [ (lit "customer_service_department", Text (lit "Unknown"));
      (lit "agent_name", Text (f_agent_name f));
      (lit "customer_name", Text (f_customer_name f));
      (lit "summary", Text (f_summary f));
      (lit "overall_sentiment", Text (f_overall_sentiment f));
      (lit "customer_satisfied", Text (f_customer_satisfied f));
      (lit "main_attention_areas", Text (f_main_attention_areas f)) ]
  = encodable_fields f.
Proof.
  unfold encodable_fields. cbn [forallb snd bindable].
  change (encodable (lit "Unknown")) with true. cbn [andb].
  now rewrite andb_true_r, !andb_assoc.
Qed.

(** The INSERT of [main.py] on its own table, once the values are
    bound and the rowid is taken: the row is stored when both
    constraints hold and refused otherwise. *)
Lemma insert_report_checked d t f :
  call_reports d = Some t -> made_by_main t ->
  in_step d t -> (next_id t <= max_rowid_value)%Z ->
  encodable_fields f = true ->
  insert_report d f
  = if py_in (f_overall_sentiment f)
         [lit "Positive"; lit "Negative"; lit "Neutral"]
       && py_in (f_customer_satisfied f) [lit "Yes"; lit "No"]
    then
      Ok ({| call_reports :=
               Some {| columns := columns t; checks := checks t;
                       rows := rows t
                               ++ [ {| rowid := next_id t;
                                       cells := new_cells main_table
                                         [ (lit "customer_service_department",
                                            Text (lit "Unknown"));
                                           (lit "agent_name",
                                            Text (f_agent_name f));
                                           (lit "customer_name",
                                            Text (f_customer_name f));
                                           (lit "summary",
                                            Text (f_summary f));
                                           (lit "overall_sentiment",
                                            Text (f_overall_sentiment f));
                                           (lit "customer_satisfied",
                                            Text (f_customer_satisfied f));
                                           (lit "main_attention_areas",
                                            Text (f_main_attention_areas f))
                                         ] |} ] |};
             sqlite_sequence := Some (next_id t) |}, next_id t)
    else Raise IntegrityError.
Proof.
  intros Ht [Hcol Hchk] Hstep Hmax Henc.
  unfold insert_report, insert_row. rewrite Ht.
  rewrite (main_bindable_fields f), Henc.
  rewrite (new_rowid_in_step d t Hstep Hmax). cbv zeta.
  assert (Hlast : forall cs,
            tree_insert {| rowid := next_id t; cells := cs |} (rows t)
            = rows t ++ [ {| rowid := next_id t; cells := cs |} ]).
  { intros cs. apply tree_insert_last. cbn [rowid]. unfold next_id.
    pose proof (largest_rowid_bound (rows t)) as B.
    destruct (largest_rowid (rows t)) as [m|].
    - eapply Forall_impl; [|exact B]. cbv beta. intros; lia.
    - rewrite B. constructor. }
  rewrite Hlast. clear Hlast Henc.
  destruct f as [an cn su se sa ar].
  cbn [f_agent_name f_customer_name f_summary f_overall_sentiment
       f_customer_satisfied f_main_attention_areas].
  unfold has_column, new_cells. rewrite Hcol, Hchk.
  match goal with
  | |- context [if forallb ?g ?l then _ else Raise OperationalError] =>
      change (forallb g l) with true
  end.
  cbv beta iota.
  match goal with
  | |- context [forallb (check_holds ?cs) _] =>
      let v := eval cbv in cs in change cs with v at 1
  end.
  cbn [checks main_table forallb]. unfold check_holds.
  cbn [chk_column chk_allowed].
  match goal with
  | |- context [assoc ?l ?k] =>
      let v := eval cbv in (assoc l k) in change (assoc l k) with v
  end.
  cbv beta iota.
  match goal with
  | |- context [assoc ?l ?k] =>
      let v := eval cbv in (assoc l k) in change (assoc l k) with v
  end.
  cbv beta iota. rewrite andb_true_r. reflexivity.
Qed.

(** On its own table, in step with its sequence and with a rowid left,
    and for six texts that can be encoded, [main.py] stores a row, under
    the next id, exactly when the sentiment is one of Positive,
    Negative, Neutral and the satisfaction is Yes or No; any other
    answer makes the INSERT raise [IntegrityError]. *)
Theorem main_insert_checks d t f :
  call_reports d = Some t -> made_by_main t ->
  in_step d t -> (next_id t <= max_rowid_value)%Z ->
  encodable_fields f = true ->
  if py_in (f_overall_sentiment f)
       [lit "Positive"; lit "Negative"; lit "Neutral"]
     && py_in (f_customer_satisfied f) [lit "Yes"; lit "No"]
  then exists d1, insert_report d f = Ok (d1, next_id t)
  else insert_report d f = Raise IntegrityError.
Proof.
  intros Ht Hm Hstep Hmax Henc.
  rewrite (insert_report_checked d t f Ht Hm Hstep Hmax Henc).
  destruct (py_in (f_overall_sentiment f) _ && py_in _ _)%bool.
  - eexists. reflexivity.
  - reflexivity.
Qed.

Lemma main_insert_checks_witness :
  if py_in (lit "Mixed") [lit "Positive"; lit "Negative"; lit "Neutral"]
     && py_in (lit "Yes") [lit "Yes"; lit "No"]
  then exists d1,
         insert_report main_db
           {| f_agent_name := lit "Sam"; f_customer_name := lit "Alice";
              f_summary := lit "Fine."; f_overall_sentiment := lit "Mixed";
              f_customer_satisfied := lit "Yes";
              f_main_attention_areas := lit "billing" |}
         = Ok (d1, next_id main_table)
  else insert_report main_db
         {| f_agent_name := lit "Sam"; f_customer_name := lit "Alice";
            f_summary := lit "Fine."; f_overall_sentiment := lit "Mixed";
            f_customer_satisfied := lit "Yes";
            f_main_attention_areas := lit "billing" |}
       = Raise IntegrityError.
Proof.
  apply (main_insert_checks main_db main_table
           {| f_agent_name := lit "Sam"; f_customer_name := lit "Alice";
              f_summary := lit "Fine."; f_overall_sentiment := lit "Mixed";
              f_customer_satisfied := lit "Yes";
              f_main_attention_areas := lit "billing" |}).
  - reflexivity.
  - split; reflexivity.
  - split; [constructor | cbn; lia].
  - cbv. discriminate.
  - reflexivity.
Defined.

(** The round trip of [main.py] on its own table, in step with its
    sequence and with a rowid left: a row of six texts that can be
    encoded, with a sentiment and a satisfaction the constraints allow,
    is stored under the next id, and the Reports page lists the old
    rows followed by the new one with the stored names, sentiment,
    satisfaction and attention areas. *)
Theorem main_insert_then_list d t f :
  call_reports d = Some t -> made_by_main t ->
  in_step d t -> (next_id t <= max_rowid_value)%Z ->
  encodable_fields f = true ->
  py_in (f_overall_sentiment f)
    [lit "Positive"; lit "Negative"; lit "Neutral"] = true ->
  py_in (f_customer_satisfied f) [lit "Yes"; lit "No"] = true ->
  exists d1,
    insert_report d f = Ok (d1, next_id t)
    /\ select_reports d = Ok (map report_of_row (rows t))
    /\ select_reports d1
       = Ok (map report_of_row (rows t)
             ++ [ {| r_id := next_id t;
                     r_agent_name := Text (f_agent_name f);
                     r_customer_name := Text (f_customer_name f);
                     r_overall_sentiment := Text (f_overall_sentiment f);
                     r_customer_satisfied := Text (f_customer_satisfied f);
                     r_main_attention_areas :=
                       Text (f_main_attention_areas f) |} ]).
Proof.
  intros Ht Hm Hstep Hmax Henc Hse Hsa.
  pose proof (insert_report_checked d t f Ht Hm Hstep Hmax Henc) as E.
  rewrite Hse, Hsa in E. cbn [andb] in E. destruct Hm as [Hcol Hchk].
  assert (Hsel : forall t', columns t' = columns main_table ->
            forallb (has_column t')
              [ id_column; lit "agent_name"; lit "customer_name";
                lit "overall_sentiment"; lit "customer_satisfied";
                lit "main_attention_areas" ] = true).
  { intros t' H. unfold has_column. rewrite H. reflexivity. }
  eexists. split; [exact E|]. split.
  - unfold select_reports. rewrite Ht. now rewrite (Hsel t Hcol).
  - unfold select_reports. cbn [call_reports].
    match goal with
    | |- context [forallb (has_column ?t') _] => rewrite (Hsel t' Hcol)
    end.
    cbn [rows]. rewrite map_app.
    destruct f as [an cn su se sa ar]. reflexivity.
Qed.

Definition positive_fields : fields :=
  {| f_agent_name := lit "Sam"; f_customer_name := lit "Alice";
     f_summary := lit "Fine."; f_overall_sentiment := lit "Positive";
     f_customer_satisfied := lit "Yes";
     f_main_attention_areas := lit "billing" |}.

Lemma main_insert_then_list_witness :
  exists d1,
    insert_report main_db positive_fields = Ok (d1, next_id main_table)
    /\ select_reports main_db = Ok (map report_of_row (rows main_table))
    /\ select_reports d1
       = Ok (map report_of_row (rows main_table)
             ++ [ {| r_id := next_id main_table;
                     r_agent_name := Text (f_agent_name positive_fields);
                     r_customer_name :=
                       Text (f_customer_name positive_fields);
                     r_overall_sentiment :=
                       Text (f_overall_sentiment positive_fields);
                     r_customer_satisfied :=
                       Text (f_customer_satisfied positive_fields);
                     r_main_attention_areas :=
                       Text (f_main_attention_areas positive_fields) |} ]).
Proof.
  apply (main_insert_then_list main_db main_table positive_fields).
  - reflexivity.
  - split; reflexivity.
  - split; [constructor | cbn; lia].
  - cbv. discriminate.
  - reflexivity.
  - reflexivity.
  - reflexivity.
Defined.

End Main.
